(** * videojitter: the recording aligner and the fake-recording synthesizer

    A shallow embedding of [generate-report.py] (module [Report]) and of
    [generate-fake-recording.py] (module [FakeRecording]), and the
    properties of the two programs that their specification states.

    Numbers.  Python's [float] is an IEEE-754 double.  It is embedded as the
    type [float] below: an exact rational, the two infinities, or NaN.
    Rounding, overflow and the sign of zero are abstracted away; the special
    values and their propagation are kept, because pandas encodes a missing
    cell as NaN and the program's control flow depends on it.

    Libraries.  The programs are sequences of pandas, numpy and scipy calls.
    - The pandas operations are embedded by what they compute on the
      columns involved (modules [Series] and [Report]): [min], [max] and
      [mean] skip NaN cells; [pd.Interval] raises unless [left <= right];
      [merge_asof] demands keys that are sorted and not null and, with
      [direction="nearest"], prefers the backward key on a tie; an outer
      [merge] on unique left keys yields, per left key, its matching right
      rows or one row with missing right columns.
    - [Polynomial.fit] is embedded as the exact least-squares solution in
      numpy's window variable (module [Numpy]).
    - The signal-processing functions of scipy and the helpers of
      [videojitter.util] are parameters of the synthesizer (class
      [FakeRecording.Library]).
    - An exception is a [Raise] and ends the run. *)

From Stdlib Require Import ZArith QArith Qreduction Qabs Qminmax Qround Lqa.
From Stdlib Require Import String Bool Lia Sorted Permutation List.
Import ListNotations.

(* ================================================================== *)
(** * Part I: definitions                                               *)
(* ================================================================== *)

(** ** Floating-point values *)

Inductive float : Type :=
| Fin (q : Q)
| PInf
| NInf
| NaN.

(** Every finite result is stored in lowest terms, so that equal values
    computed along different paths are syntactically equal. *)
Definition fin (q : Q) : float := Fin (Qred q).

Definition of_int (z : Z) : float := Fin (inject_Z z).

Definition isna (x : float) : bool :=
  match x with NaN => true | _ => false end.

Definition is_finite (x : float) : bool :=
  match x with Fin _ => true | _ => false end.

(** Sign of a value that is not NaN. *)
Definition sgn (x : float) : Z :=
  match x with
  | Fin q => Z.sgn (Qnum q)
  | PInf => 1
  | NInf => -1
  | NaN => 0
  end.

Definition inf_of_sign (s : Z) : float :=
  match s with
  | Z0 => NaN
  | Zpos _ => PInf
  | Zneg _ => NInf
  end.

Definition fneg (x : float) : float :=
  match x with
  | Fin q => fin (- q)
  | PInf => NInf
  | NInf => PInf
  | NaN => NaN
  end.

Definition fadd (x y : float) : float :=
  match x, y with
  | NaN, _ | _, NaN => NaN
  | Fin a, Fin b => fin (a + b)
  | PInf, NInf | NInf, PInf => NaN
  | PInf, _ | _, PInf => PInf
  | NInf, _ | _, NInf => NInf
  end.

Definition fsub (x y : float) : float :=
  match x, y with
  | NaN, _ | _, NaN => NaN
  | Fin a, Fin b => fin (a - b)
  | PInf, PInf | NInf, NInf => NaN
  | PInf, _ | _, NInf => PInf
  | NInf, _ | _, PInf => NInf
  end.

Definition fmul (x y : float) : float :=
  match x, y with
  | NaN, _ | _, NaN => NaN
  | Fin a, Fin b => fin (a * b)
  | _, _ => inf_of_sign (sgn x * sgn y)
  end.

(** Array division as numpy and pandas do it: no exception, [0/0] is NaN
    and [x/0] is an infinity of the sign of [x]. *)
Definition fdiv (x y : float) : float :=
  match x, y with
  | NaN, _ | _, NaN => NaN
  | Fin a, Fin b =>
      if Qeq_bool b 0 then inf_of_sign (sgn x) else fin (a / b)
  | Fin _, _ => Fin 0
  | _, Fin b => inf_of_sign (sgn x * (if Qeq_bool b 0 then 1 else sgn y))
  | _, _ => NaN
  end.

Definition fabs (x : float) : float :=
  match x with
  | Fin q => fin (Qabs q)
  | PInf | NInf => PInf
  | NaN => NaN
  end.

(** IEEE comparisons: anything compared with NaN is false. *)
Definition fle (x y : float) : bool :=
  match x, y with
  | NaN, _ | _, NaN => false
  | Fin a, Fin b => Qle_bool a b
  | NInf, _ | _, PInf => true
  | _, _ => false
  end.

Definition flt (x y : float) : bool :=
  match x, y with
  | NaN, _ | _, NaN => false
  | Fin a, Fin b => negb (Qle_bool b a)
  | PInf, _ | _, NInf => false
  | _, _ => true
  end.

(** Python truthiness of a float: only zero is false. *)
Definition truthy (x : float) : bool :=
  match x with
  | Fin q => negb (Qeq_bool q 0)
  | _ => true
  end.

(** Same value: equal rationals, or the same special value.  This is the
    equality pandas uses for join keys and for [duplicated], where two NaN
    cells count as equal. *)
Definition same (x y : float) : bool :=
  match x, y with
  | Fin a, Fin b => Qeq_bool a b
  | PInf, PInf | NInf, NInf | NaN, NaN => true
  | _, _ => false
  end.

(** ** Exceptions *)

Inductive exn : Type :=
| ZeroDivisionError
| ValueError (msg : string)
| TypeError (msg : string)
| LinAlgError
| AssertionError
| JSONDecodeError.

Inductive result (A : Type) : Type :=
| Ok (a : A)
| Raise (e : exn).
Arguments Ok {A} a.
Arguments Raise {A} e.

Definition bind {A B} (m : result A) (k : A -> result B) : result B :=
  match m with
  | Ok a => k a
  | Raise e => Raise e
  end.

Notation "'let*' x ':=' m 'in' k" := (bind m (fun x => k))
  (at level 10, x name, m at level 100, k at level 200).

(** ** Series operations of pandas and numpy used by both programs *)

Module Series.

Definition dropna (s : list float) : list float :=
  filter (fun x => negb (isna x)) s.

Definition fmin2 (a b : float) : float := if fle b a then b else a.
Definition fmax2 (a b : float) : float := if fle a b then b else a.

(** [Series.min()], [Series.max()]: NaN cells are skipped; NaN when no
    cell is left. *)
Definition min (s : list float) : float :=
  match dropna s with
  | [] => NaN
  | x :: tl => fold_left fmin2 tl x
  end.

Definition max (s : list float) : float :=
  match dropna s with
  | [] => NaN
  | x :: tl => fold_left fmax2 tl x
  end.

Definition sum (s : list float) : float :=
  fold_left fadd (dropna s) (Fin 0).

(** [Series.mean()]: the mean of the cells that are not NaN; NaN when
    there is none. *)
Definition mean (s : list float) : float :=
  match dropna s with
  | [] => NaN
  | _ => fdiv (sum s) (of_int (Z.of_nat (length (dropna s))))
  end.

(** [Series.shift()]: every cell moves one position down, the first cell
    becomes missing. *)
Definition shift {A} (s : list A) : list (option A) :=
  firstn (length s) (None :: map Some s).

(** [Series.cumsum()] of a boolean series. *)
Fixpoint cumsum_from (acc : nat) (s : list bool) : list nat :=
  match s with
  | [] => []
  | b :: tl =>
      let acc' := if b then S acc else acc in
      acc' :: cumsum_from acc' tl
  end.
Definition cumsum (s : list bool) : list nat := cumsum_from 0 s.

(** [groupby(keys).cumcount()]: the number of earlier rows of the same
    group. *)
Fixpoint cumcount_from (seen : list nat) (keys : list nat) : list nat :=
  match keys with
  | [] => []
  | k :: tl => count_occ Nat.eq_dec seen k :: cumcount_from (k :: seen) tl
  end.
Definition cumcount (keys : list nat) : list nat := cumcount_from [] keys.

(** [np.arange(0, n)]. *)
Definition arange (n : nat) : list Z := map Z.of_nat (seq 0 n).

(** [Series.duplicated(keep=False)]: a cell is flagged when its value
    occurs more than once in the series. *)
Definition occurrences (s : list float) (x : float) : nat :=
  length (filter (same x) s).

Definition duplicated_keep_false (s : list float) : list bool :=
  map (fun x => Nat.ltb 1 (occurrences s x)) s.

(** [Index.is_monotonic_increasing]: non-decreasing and free of NaN. *)
Fixpoint is_monotonic_increasing (s : list float) : bool :=
  match s with
  | [] => true
  | x :: tl =>
      match tl with
      | [] => negb (isna x)
      | y :: _ => fle x y && is_monotonic_increasing tl
      end
  end.

End Series.

(** ** [pd.Interval] *)

Record Interval : Type := mkInterval { left : float; right : float }.

Definition Interval_length (i : Interval) : float := fsub (right i) (left i).

(** [pd.Interval(l, r)] raises [ValueError] unless [l <= r]; in particular
    when an endpoint is NaN. *)
Definition pd_Interval (l r : float) : result Interval :=
  if fle l r then Ok (mkInterval l r)
  else Raise (ValueError "left side of interval must be <= right side").

(** ** [np.polynomial.Polynomial] *)

Module Numpy.

(** A polynomial in the window variable [u = off + scl * x]. *)
Record Polynomial : Type := mkPoly {
  coef : list float;
  off : float;
  scl : float
}.

(** The program asks for degree 0 or degree 1 only. *)
Inductive degree : Type := Deg0 | Deg1.

Fixpoint finite_values (s : list float) : option (list Q) :=
  match s with
  | [] => Some []
  | Fin q :: tl => option_map (cons q) (finite_values tl)
  | _ :: _ => None
  end.

Definition Qsum (l : list Q) : Q := fold_right Qplus 0 l.
Definition Qmean (l : list Q) : Q := Qsum l / inject_Z (Z.of_nat (length l)).
Definition Qmin_list (d : Q) (l : list Q) : Q := fold_left Qmin l d.
Definition Qmax_list (d : Q) (l : list Q) : Q := fold_left Qmax l d.

(** [pu.getdomain(x)]; [fit] widens it by one on each side when it is a
    single point. *)
Definition domain (x0 : Q) (xs : list Q) : Q * Q :=
  let d0 := Qmin_list x0 xs in
  let d1 := Qmax_list x0 xs in
  if Qeq_bool d0 d1 then (d0 - 1, d1 + 1) else (d0, d1).

(** [pu.mapparms(domain, window)] with [window = [-1, 1]]. *)
Definition mapparms (d : Q * Q) : Q * Q :=
  let oldlen := snd d - fst d in
  ((snd d * (-1) - fst d * 1) / oldlen, 2 / oldlen).

(** The exact least-squares solution over the monomials [1] and [u]; the
    solution of minimal norm when all [u] coincide. *)
Definition lstsq (deg : degree) (us ys : list Q) : list Q :=
  match deg with
  | Deg0 => [Qmean ys]
  | Deg1 =>
      let ubar := Qmean us in
      let ybar := Qmean ys in
      let suu := Qsum (map (fun u => (u - ubar) * (u - ubar)) us) in
      let suy :=
        Qsum (map (fun p => (fst p - ubar) * (snd p - ybar)) (combine us ys)) in
      if Qeq_bool suu 0 then [ybar; 0]
      else [ybar - suy / suu * ubar; suy / suu]
  end.

(** [Polynomial.fit(x, y, deg)]. *)
Definition fit (x y : list float) (deg : degree) : result Polynomial :=
  match x with
  | [] => Raise (ValueError "zero-size array to reduction operation minimum")
  | _ :: _ =>
      if negb (Nat.eqb (length x) (length y))
      then Raise (TypeError "expected x and y to have same length")
      else
        match finite_values x, finite_values y with
        | Some (x0 :: xs), Some ys =>
            let os := mapparms (domain x0 xs) in
            let us := map (fun v => fst os + snd os * v) (x0 :: xs) in
            Ok (mkPoly (map fin (lstsq deg us ys))
                       (fin (fst os)) (fin (snd os)))
        | _, _ => Raise LinAlgError
        end
  end.

(** [polyval(u, c)]: Horner's rule, started at [c[-1] + u*0]. *)
Definition polyval (u : float) (c : list float) : float :=
  match rev c with
  | [] => NaN
  | cn :: lower =>
      fold_left (fun acc ci => fadd ci (fmul acc u)) lower
                (fadd cn (fmul u (Fin 0)))
  end.

(** Calling a polynomial: [polyval(off + scl * x, coef)]. *)
Definition call (p : Polynomial) (x : float) : float :=
  polyval (fadd (off p) (fmul (scl p) x)) (coef p).

(** [np.ceil] followed by [int(...)] on the quotient of two integers. *)
Definition ceil_div (a b : Z) : Z := (- ((- a) / b))%Z.

End Numpy.

(* ================================================================== *)
(** ** generate-report.py                                               *)
(* ================================================================== *)

Module Report.

(** [interval(series)] *)
Definition interval (series : list float) : result Interval :=
  pd_Interval (Series.min series) (Series.max series).

(** [rescale(series, target_range)] *)
Definition rescale (series : list float) (target_range : Interval)
  : result (list float) :=
  let* original_range := interval series in
  Ok (map (fun x =>
             fadd (fmul (fdiv (fsub x (left original_range))
                              (Interval_length original_range))
                        (Interval_length target_range))
                  (left target_range))
          series).

(** The spec file, as [json.load] returns it. *)
Record Spec : Type := mkSpec {
  fps_num : Z;
  fps_den : Z;
  transition_count : Z;
  delayed_transitions : list Z;
  frames : list string
}.

(** Python's [/] on two integers. *)
Definition int_truediv (a b : Z) : result float :=
  if Z.eqb b 0 then Raise ZeroDivisionError
  else Ok (fin (inject_Z a / inject_Z b)).

(** A row of [reference_transitions]; [timestamp_seconds] is its index. *)
Record ReferenceTransition : Type := mkRef {
  timestamp_seconds : float;
  ref_frame : string;
  previous_frame_count : float
}.

(** [frame != frame.shift()]: the first cell is compared with a missing
    value, which differs from everything. *)
Definition ne_shift (fs : list string) : list bool :=
  map (fun p => match snd p with
                | None => true
                | Some prev => negb (String.eqb (fst p) prev)
                end)
      (combine fs (Series.shift fs)).

(** [reference_transitions_diff[0] = False]: the row whose index label is
    0, that is the first frame.  (An empty frame list has no such row and
    gives no reference transition; the run then fails at the next
    [interval].) *)
Definition set_label_0 (v : bool) (d : list bool) : list bool :=
  match d with
  | [] => []
  | _ :: tl => v :: tl
  end.

Definition reference_transitions_diff (fs : list string) : list bool :=
  set_label_0 false (ne_shift fs).

(** [groupby(diff.cumsum()).cumcount().shift() + 1] *)
Definition previous_frame_counts (diff : list bool) : list float :=
  map (fun c => match c with
                | None => NaN
                | Some n => fadd (of_int (Z.of_nat n)) (Fin 1)
                end)
      (Series.shift (Series.cumcount (Series.cumsum diff))).

(** [np.arange(0, len(frames)) * frame_duration] *)
Definition timestamps (n : nat) (frame_duration : float) : list float :=
  map (fun i => fmul (of_int i) frame_duration) (Series.arange n).

Fixpoint mask {A} (rows : list A) (m : list bool) : list A :=
  match rows, m with
  | r :: rows', b :: m' => if b then r :: mask rows' m' else mask rows' m'
  | _, _ => []
  end.

Definition all_frames (fs : list string) (frame_duration : float)
  : list ReferenceTransition :=
  let diff := reference_transitions_diff fs in
  map (fun r => mkRef (fst (fst r)) (snd (fst r)) (snd r))
      (combine (combine (timestamps (length fs) frame_duration) fs)
               (previous_frame_counts diff)).

(** Lines 53-74: the reference transitions of a spec. *)
Definition reference_transitions (spec : Spec)
  : result (list ReferenceTransition) :=
  let* nominal_fps := int_truediv (fps_num spec) (fps_den spec) in
  let* frame_duration := int_truediv (fps_den spec) (fps_num spec) in
  Ok (mask (all_frames (frames spec) frame_duration)
           (reference_transitions_diff (frames spec))).

(** A row of the recording analysis read from stdin by [pd.read_csv]. *)
Record RecordedTransition : Type := mkRec {
  csv_recording_timestamp_seconds : float;
  csv_frame : string
}.

(** *** [pd.merge_asof(..., direction="nearest")] *)

Record AsofRow : Type := mkAsof {
  scaled_recording_timestamp_seconds : float;
  asof_recording_timestamp_seconds : float;
  asof_frame : string;
  asof_reference_timestamp_seconds : float
}.

(** The last right key [<= x] and the first right key [>= x]. *)
Definition backward (right_keys : list float) (x : float) : option float :=
  last (map Some (filter (fun r => fle r x) right_keys)) None.

Definition forward (right_keys : list float) (x : float) : option float :=
  hd None (map Some (filter (fun r => fle x r) right_keys)).

(** The nearer of the two; the backward one on a tie. *)
Definition nearest (right_keys : list float) (x : float) : float :=
  match backward right_keys x, forward right_keys x with
  | Some b, Some f => if fle (fsub x b) (fsub f x) then b else f
  | Some b, None => b
  | None, Some f => f
  | None, None => NaN
  end.

Definition check_sorted (side : string) (keys : list float) : result unit :=
  if Series.is_monotonic_increasing keys then Ok tt
  else if existsb isna keys
       then Raise (ValueError ("Merge keys contain null values on "
                                 ++ side ++ " side"))
       else Raise (ValueError (side ++ " keys must be sorted")).

Definition merge_asof (left_index : list float)
           (left_rows : list RecordedTransition)
           (right_index : list float) : result (list AsofRow) :=
  let* _ := check_sorted "left" left_index in
  let* _ := check_sorted "right" right_index in
  Ok (map (fun p =>
             mkAsof (fst p)
                    (csv_recording_timestamp_seconds (snd p))
                    (csv_frame (snd p))
                    (nearest right_index (fst p)))
          (combine left_index left_rows)).

(** *** [pd.merge(left=reference, left_index=True, right=asof,
        right_on="reference_timestamp_seconds", how="outer")] *)

Record MergedRow : Type := mkMerged {
  m_reference_frame : option string;
  m_reference_previous_frame_count : float;
  m_recording_timestamp_seconds : float;
  m_frame : option string;
  m_reference_timestamp_seconds : float
}.

Definition matched (asof : list AsofRow) (key : float) : list AsofRow :=
  filter (fun a => same (asof_reference_timestamp_seconds a) key) asof.

(** One row per recorded transition matched to the reference transition,
    or one row with missing recording columns when there is none. *)
Definition rows_of_reference (asof : list AsofRow) (r : ReferenceTransition)
  : list MergedRow :=
  match matched asof (timestamp_seconds r) with
  | [] => [mkMerged (Some (ref_frame r)) (previous_frame_count r)
                    NaN None (timestamp_seconds r)]
  | ms =>
      map (fun a =>
             mkMerged (Some (ref_frame r)) (previous_frame_count r)
                      (asof_recording_timestamp_seconds a)
                      (Some (asof_frame a))
                      (timestamp_seconds r))
          ms
  end.

(** Rows of the right table whose key is no reference timestamp.  (There
    are none in this program: [nearest] answers with a right key as soon
    as there is one.) *)
Definition right_only (refs : list ReferenceTransition)
           (asof : list AsofRow) : list MergedRow :=
  map (fun a =>
         mkMerged None NaN (asof_recording_timestamp_seconds a)
                  (Some (asof_frame a))
                  (asof_reference_timestamp_seconds a))
      (filter (fun a =>
                 negb (existsb (fun r =>
                                  same (asof_reference_timestamp_seconds a)
                                       (timestamp_seconds r))
                               refs))
              asof).

Definition outer_merge (refs : list ReferenceTransition)
           (asof : list AsofRow) : list MergedRow :=
  flat_map (rows_of_reference asof) refs ++ right_only refs asof.

(** *** The aligned table *)

Record AlignedTransition : Type := mkRow {
  reference_frame : option string;
  reference_previous_frame_count : float;
  recording_timestamp_seconds : float;
  frame : option string;
  reference_timestamp_seconds : float;
  repeated : bool;
  expected_recording_timestamp_seconds : float;
  error_seconds : float
}.

Definition set_error_seconds (e : float) (t : AlignedTransition)
  : AlignedTransition :=
  mkRow (reference_frame t) (reference_previous_frame_count t)
        (recording_timestamp_seconds t) (frame t)
        (reference_timestamp_seconds t) (repeated t)
        (expected_recording_timestamp_seconds t) e.

(** Lines 125-135: the three columns added to the merged table. *)
Definition add_columns (merged : list MergedRow)
  : result (list AlignedTransition) :=
  let repeated :=
    Series.duplicated_keep_false
      (map m_reference_timestamp_seconds merged) in
  let* recording_interval :=
    interval (map m_recording_timestamp_seconds merged) in
  let* expected :=
    rescale (map m_reference_timestamp_seconds merged) recording_interval in
  Ok (map (fun p =>
             let m := fst (fst p) in
             mkRow (m_reference_frame m)
                   (m_reference_previous_frame_count m)
                   (m_recording_timestamp_seconds m)
                   (m_frame m)
                   (m_reference_timestamp_seconds m)
                   (snd (fst p))
                   (snd p)
                   (fsub (m_recording_timestamp_seconds m)
                         (m_reference_timestamp_seconds m)))
          (combine (combine merged repeated) expected)).

(** Lines 141-147. *)
Definition is_valid (t : AlignedTransition) : bool :=
  negb (isna (recording_timestamp_seconds t) || repeated t).

Definition valid_transitions (transitions : list AlignedTransition)
  : list AlignedTransition :=
  filter is_valid transitions.

(** Lines 148-152. *)
Definition fit_degree (compensate_clock_skew : bool) : Numpy.degree :=
  if compensate_clock_skew then Numpy.Deg1 else Numpy.Deg0.

Definition linear_regression (compensate_clock_skew : bool)
           (transitions : list AlignedTransition)
  : result Numpy.Polynomial :=
  let valid := valid_transitions transitions in
  Numpy.fit (map recording_timestamp_seconds valid)
            (map error_seconds valid)
            (fit_degree compensate_clock_skew).

(** What the program prints on stderr. *)
Inductive message : Type :=
| SpecLoaded (size : nat) (nominal_fps first last total : float)
| RecordingAnalysis (size : nat) (first last total : float)
| CountMatches
| WarningCountInconsistent
| WarningAbnormalClockSkew (clock_skew : float)
| BenignClockSkew (clock_skew : float)
| Offsets (shown_as_black shown_as_white : float)
| ErrorStandardDeviation.

(** Lines 153-164: printing only; nothing is assigned that is read
    later. *)
Definition clock_skew_messages (compensate_clock_skew : bool)
           (p : Numpy.Polynomial) : list message :=
  if compensate_clock_skew then
    let c1 := nth 1 (Numpy.coef p) NaN in
    let clock_skew := fadd (Fin 1) c1 in
    if flt (Fin (1 # 10)) (fabs c1)
    then [WarningAbnormalClockSkew clock_skew]
    else [BenignClockSkew clock_skew]
  else [].

(** Lines 165-167: [error_seconds -= linear_regression(recording)]. *)
Definition subtract_regression (p : Numpy.Polynomial)
           (transitions : list AlignedTransition)
  : list AlignedTransition :=
  map (fun t =>
         set_error_seconds
           (fsub (error_seconds t)
                 (Numpy.call p (recording_timestamp_seconds t)))
           t)
      transitions.

(** [transitions.loc[:, "frame"] == label] *)
Definition frame_is (label : string) (t : AlignedTransition) : bool :=
  match frame t with
  | Some f => String.eqb f label
  | None => false
  end.

(** [transitions.loc[frame == label, "error_seconds"].mean()] *)
Definition offset_of (label : string) (transitions : list AlignedTransition)
  : float :=
  Series.mean (map error_seconds (filter (frame_is label) transitions)).

(** [transitions.loc[frame == label, "error_seconds"] -= offset] *)
Definition subtract_offset (label : string) (offset : float)
           (transitions : list AlignedTransition)
  : list AlignedTransition :=
  map (fun t =>
         if frame_is label t
         then set_error_seconds (fsub (error_seconds t) offset) t
         else t)
      transitions.

(** Lines 169-184. *)
Definition remove_offsets (transitions : list AlignedTransition)
  : list AlignedTransition :=
  let black_offset := offset_of "BLACK" transitions in
  let white_offset := offset_of "WHITE" transitions in
  subtract_offset "WHITE" white_offset
    (subtract_offset "BLACK" black_offset transitions).

(** *** The chart's derived columns (lines 211-240) *)

Inductive anomaly_label : Type :=
| Repeated_transition
| Missing_transition.

(** Vega's [isValid]: neither null nor NaN. *)
Definition isValid (x : float) : bool := negb (isna x).

Definition anomaly (t : AlignedTransition) : option anomaly_label :=
  if repeated t then Some Repeated_transition
  else if isValid (recording_timestamp_seconds t) then None
       else Some Missing_transition.

Definition estimated_recording_timestamp_seconds (t : AlignedTransition)
  : float :=
  if isValid (recording_timestamp_seconds t)
  then recording_timestamp_seconds t
  else expected_recording_timestamp_seconds t.

(** *** [generate_report] *)

Record Output : Type := mkOutput {
  stderr : list message;
  transitions : list AlignedTransition
}.

(** Lines 81-124: from the recording analysis to the merged table. *)
Definition align (reference_transitions : list ReferenceTransition)
           (stdin : list RecordedTransition) : result (list MergedRow) :=
  let reference_index := map timestamp_seconds reference_transitions in
  let recording := map csv_recording_timestamp_seconds stdin in
  let* _ := interval recording in
  let* target_range := interval reference_index in
  let* scaled := rescale recording target_range in
  let* asof := merge_asof scaled stdin reference_index in
  Ok (outer_merge reference_transitions asof).

Definition generate_report (compensate_clock_skew : bool) (spec : Spec)
           (stdin : list RecordedTransition) : result Output :=
  let* nominal_fps := int_truediv (fps_num spec) (fps_den spec) in
  let* reference_transitions := reference_transitions spec in
  let reference_index := map timestamp_seconds reference_transitions in
  let* ri := interval reference_index in
  let msg_spec :=
    SpecLoaded (2 * length reference_transitions) nominal_fps
               (left ri) (right ri) (Interval_length ri) in
  let recording := map csv_recording_timestamp_seconds stdin in
  let* ti := interval recording in
  let msg_recording :=
    RecordingAnalysis (length stdin) (left ti) (right ti)
                      (Interval_length ti) in
  let msg_count :=
    if Nat.eqb (length stdin) (length reference_transitions)
    then CountMatches else WarningCountInconsistent in
  let* merged := align reference_transitions stdin in
  let* transitions := add_columns merged in
  let* p := linear_regression compensate_clock_skew transitions in
  let msgs_skew := clock_skew_messages compensate_clock_skew p in
  let transitions := subtract_regression p transitions in
  let black_offset := offset_of "BLACK" transitions in
  let white_offset := offset_of "WHITE" transitions in
  let transitions := remove_offsets transitions in
  Ok (mkOutput ([msg_spec; msg_recording; msg_count] ++ msgs_skew
                  ++ [Offsets white_offset black_offset;
                      ErrorStandardDeviation])
               transitions).

End Report.

(* ================================================================== *)
(** ** generate-fake-recording.py                                       *)
(* ================================================================== *)

Module FakeRecording.

(** The command line, after [argparse] has converted every option. *)
Record Args : Type := mkArgs {
  internal_sample_rate_hz : Z;
  output_sample_rate_hz : Z;
  begin_padding_seconds : float;
  end_padding_seconds : float;
  clock_skew : float;
  sawtooth_step_seconds : float;
  sawtooth_max_deviation : float;
  white_duration_overshoot : float;
  even_duration_overshoot : float;
  dc_offset : float;
  invert : bool;
  amplitude : float;
  gaussian_filter_stddev_seconds : float;
  high_pass_filter_hz : float
}.

(** The file named by [--output-recording-file]. *)
Inductive file : Type :=
| Absent
| Empty
| Wav (rate : Z) (samples : list float).

(** What the program reads and writes: the spec on stdin ([None] when it
    is not JSON) and the output recording file. *)
Record World : Type := mkWorld {
  stdin : option Report.Spec;
  output_recording_file : file
}.

(** The functions of scipy and of [videojitter.util] that the program
    calls.  Their code is not part of the two programs; the embedding is
    parametric in them. *)
Class Library : Type := {
  SOS : Type;
  (** [scipy.signal.sawtooth(np.arange(n) * (np.pi * step))] *)
  sawtooth_pi : nat -> float -> list float;
  (** [scipy.signal.resample_poly(x, up, down)] *)
  resample_poly : list float -> Z -> Z -> list float;
  (** [scipy.signal.windows.gaussian(M, std)] *)
  gaussian : Z -> float -> list float;
  (** [scipy.signal.convolve(x, k, mode="same")] *)
  convolve_same : list float -> list float -> list float;
  (** [scipy.signal.butter(1, f, "highpass", fs=fs, output="sos")] *)
  butter_highpass : float -> float -> SOS;
  (** [scipy.signal.sosfilt(sos, x)] *)
  sosfilt : SOS -> list float -> list float;
  (** [videojitter.util.generate_frames(transition_count, delayed)] *)
  generate_frames : Z -> list Z -> list float;
  (** [videojitter.util.generate_fake_samples(frames, num, den, rate,
      frame_offsets=...)] *)
  generate_fake_samples :
    list float -> Z -> Z -> float -> list float -> list float
}.

(** Python's [/] on scalars: a zero divisor raises. *)
Definition truediv (a b : float) : result float :=
  match b with
  | Fin q => if Qeq_bool q 0 then Raise ZeroDivisionError else Ok (fdiv a b)
  | _ => Ok (fdiv a b)
  end.

(** [np.round]: to the nearest integer, a tie to the even one. *)
Definition round_half_even (q : Q) : Z :=
  let f := Qfloor q in
  match ((q - inject_Z f) ?= (1 # 2))%Q with
  | Lt => f
  | Gt => (f + 1)%Z
  | Eq => if Z.even f then f else (f + 1)%Z
  end.

(** [int(np.round(x))] *)
Definition int_round (x : float) : result Z :=
  match x with
  | Fin q => Ok (round_half_even q)
  | _ => Raise (ValueError "cannot convert float NaN or infinity to integer")
  end.

(** [-np.ones(n)] *)
Definition minus_ones (n : Z) : result (list float) :=
  if (n <? 0)%Z then Raise (ValueError "negative dimensions are not allowed")
  else Ok (repeat (Fin (-1)) (Z.to_nat n)).

Definition np_sum (s : list float) : float := fold_left fadd s (Fin 0).

Fixpoint np_cumsum_from (acc : float) (s : list float) : list float :=
  match s with
  | [] => []
  | x :: tl => fadd acc x :: np_cumsum_from (fadd acc x) tl
  end.
Definition np_cumsum (s : list float) : list float :=
  np_cumsum_from (Fin 0) s.

Definition vadd (a b : list float) : list float :=
  map (fun p => fadd (fst p) (snd p)) (combine a b).

Section Program.
Context {lib : Library}.

(** [apply_gaussian_filter(samples, stddev_samples)] *)
Definition apply_gaussian_filter (samples : list float)
           (stddev_samples : float) : result (list float) :=
  let* M := int_round (fmul stddev_samples (Fin 10)) in
  let kernel := gaussian M stddev_samples in
  Ok (convolve_same samples
        (map (fun k => fdiv k (np_sum kernel)) kernel)).

(** [get_sawtooth_frame_offsets(frame_count, step, max_deviation)] *)
Definition get_sawtooth_frame_offsets (frame_count : nat)
           (step max_deviation : float) : list float :=
  np_cumsum (map (fun v => fmul v max_deviation)
                 (sawtooth_pi frame_count step)).

(** Lines 133-136. *)
Definition downsample_ratio (args : Args) : result Z :=
  if Z.eqb (output_sample_rate_hz args) 0 then Raise ZeroDivisionError
  else Ok (Numpy.ceil_div (internal_sample_rate_hz args)
                          (output_sample_rate_hz args)).

Definition internal_sample_rate (args : Args) (ratio : Z) : Z :=
  (output_sample_rate_hz args * ratio)%Z.

(** Line 177: [sample_rate = sample_rate / downsample_ratio]. *)
Definition effective_sample_rate (sample_rate ratio : Z) : result float :=
  Report.int_truediv sample_rate ratio.

(** The [frame_offsets] argument, lines 152-167. *)
Definition frame_offsets (args : Args) (spec : Report.Spec)
           (frames : list float) : result (list float) :=
  let n := length frames in
  let* sawtooth :=
    if truthy (sawtooth_step_seconds args)
       && truthy (sawtooth_max_deviation args)
    then
      let* step :=
        truediv (fmul (fmul (Fin 2) (sawtooth_step_seconds args))
                      (of_int (Report.fps_num spec)))
                (of_int (Report.fps_den spec)) in
      Ok (get_sawtooth_frame_offsets n step (sawtooth_max_deviation args))
    else Ok (repeat (Fin 0) n) in
  let white :=
    map (fun f => fmul f (white_duration_overshoot args)) frames in
  let even :=
    map (fun i => if Z.eqb (i mod 2) 0
                  then fmul (Fin 1) (even_duration_overshoot args)
                  else fmul (Fin 0) (even_duration_overshoot args))
        (Series.arange n) in
  Ok (vadd (vadd sawtooth white) even).

(** Lines 139-176: the samples before the optional filters. *)
Definition render (args : Args) (spec : Report.Spec)
           (sample_rate ratio : Z) : result (list float) :=
  let frames :=
    generate_frames (Report.transition_count spec)
                    (Report.delayed_transitions spec) in
  let* n_begin :=
    int_round (fmul (begin_padding_seconds args) (of_int sample_rate)) in
  let* begin_padding := minus_ones n_begin in
  let* rate := truediv (of_int sample_rate) (clock_skew args) in
  let* offsets := frame_offsets args spec frames in
  let pattern :=
    generate_fake_samples frames (Report.fps_num spec)
                          (Report.fps_den spec) rate offsets in
  let* n_end :=
    int_round (fmul (end_padding_seconds args) (of_int sample_rate)) in
  let* end_padding := minus_ones n_end in
  let resampled :=
    resample_poly (begin_padding ++ pattern ++ end_padding) 1 ratio in
  let gain :=
    fmul (if invert args then Fin (-1) else Fin 1) (amplitude args) in
  Ok (map (fun v => fmul (fadd v (dc_offset args)) gain) resampled).

(** Lines 179-183. *)
Definition gaussian_stage (args : Args) (sample_rate : float)
           (samples : list float) : result (list float) :=
  if truthy (gaussian_filter_stddev_seconds args) then
    apply_gaussian_filter samples
      (fmul (gaussian_filter_stddev_seconds args) sample_rate)
  else Ok samples.

(** Lines 185-191. *)
Definition high_pass_stage (args : Args) (sample_rate : float)
           (samples : list float) : list float :=
  if truthy (high_pass_filter_hz args) then
    sosfilt (butter_highpass (high_pass_filter_hz args) sample_rate)
            samples
  else samples.

(** [parse_arguments()]: [argparse.FileType(mode="wb")] opens the
    output file while the command line is parsed, which creates it or
    truncates it. *)
Definition parse_arguments (w : World) : World :=
  mkWorld (stdin w) Empty.

(** [scipy.io.wavfile.write(file, rate, samples)] *)
Definition wavfile_write (w : World) (rate : Z) (samples : list float)
  : World :=
  mkWorld (stdin w) (Wav rate samples).

(** Lines 129-191: everything between the parsing of the command line
    and the writing of the file. *)
Definition compute (args : Args) (w : World) : result (list float) :=
  let* spec :=
    match stdin w with
    | Some spec => Ok spec
    | None => Raise JSONDecodeError
    end in
  let* _ :=
    if (internal_sample_rate_hz args >? output_sample_rate_hz args)%Z
    then Ok tt else Raise AssertionError in
  let* ratio := downsample_ratio args in
  let sample_rate := internal_sample_rate args ratio in
  let* samples := render args spec sample_rate ratio in
  let* sample_rate := effective_sample_rate sample_rate ratio in
  let* samples := gaussian_stage args sample_rate samples in
  Ok (high_pass_stage args sample_rate samples).

(** [generate_fake_recording()]: the world after the run, and how the
    run ended. *)
Definition generate_fake_recording (args : Args) (w : World)
  : World * result unit :=
  let w := parse_arguments w in
  match compute args w with
  | Ok samples =>
      (wavfile_write w (output_sample_rate_hz args) samples, Ok tt)
  | Raise e => (w, Raise e)
  end.

(** The program with the Gaussian stage (lines 179-183) left out. *)
Definition compute_without_gaussian (args : Args) (w : World)
  : result (list float) :=
  let* spec :=
    match stdin w with
    | Some spec => Ok spec
    | None => Raise JSONDecodeError
    end in
  let* _ :=
    if (internal_sample_rate_hz args >? output_sample_rate_hz args)%Z
    then Ok tt else Raise AssertionError in
  let* ratio := downsample_ratio args in
  let sample_rate := internal_sample_rate args ratio in
  let* samples := render args spec sample_rate ratio in
  let* sample_rate := effective_sample_rate sample_rate ratio in
  Ok (high_pass_stage args sample_rate samples).

(** The program with the high-pass stage (lines 185-191) left out. *)
Definition compute_without_high_pass (args : Args) (w : World)
  : result (list float) :=
  let* spec :=
    match stdin w with
    | Some spec => Ok spec
    | None => Raise JSONDecodeError
    end in
  let* _ :=
    if (internal_sample_rate_hz args >? output_sample_rate_hz args)%Z
    then Ok tt else Raise AssertionError in
  let* ratio := downsample_ratio args in
  let sample_rate := internal_sample_rate args ratio in
  let* samples := render args spec sample_rate ratio in
  let* sample_rate := effective_sample_rate sample_rate ratio in
  gaussian_stage args sample_rate samples.

End Program.


(** A small configuration for examples: 40 Hz internally for an output
    at 8 Hz, a tenth of a second of padding, no distortion. *)
Definition example_args : Args :=
  {| internal_sample_rate_hz := 40;
     output_sample_rate_hz := 8;
     begin_padding_seconds := Fin (1 # 10);
     end_padding_seconds := Fin (1 # 10);
     clock_skew := Fin 1;
     sawtooth_step_seconds := Fin 0;
     sawtooth_max_deviation := Fin 0;
     white_duration_overshoot := Fin 0;
     even_duration_overshoot := Fin 0;
     dc_offset := Fin 0;
     invert := false;
     amplitude := Fin 1;
     gaussian_filter_stddev_seconds := Fin (1 # 1000);
     high_pass_filter_hz := Fin 10 |}.

Definition with_rates (internal output : Z) (a : Args) : Args :=
  {| internal_sample_rate_hz := internal;
     output_sample_rate_hz := output;
     begin_padding_seconds := begin_padding_seconds a;
     end_padding_seconds := end_padding_seconds a;
     clock_skew := clock_skew a;
     sawtooth_step_seconds := sawtooth_step_seconds a;
     sawtooth_max_deviation := sawtooth_max_deviation a;
     white_duration_overshoot := white_duration_overshoot a;
     even_duration_overshoot := even_duration_overshoot a;
     dc_offset := dc_offset a;
     invert := invert a;
     amplitude := amplitude a;
     gaussian_filter_stddev_seconds := gaussian_filter_stddev_seconds a;
     high_pass_filter_hz := high_pass_filter_hz a |}.

Definition with_filters (stddev cutoff : float) (a : Args) : Args :=
  {| internal_sample_rate_hz := internal_sample_rate_hz a;
     output_sample_rate_hz := output_sample_rate_hz a;
     begin_padding_seconds := begin_padding_seconds a;
     end_padding_seconds := end_padding_seconds a;
     clock_skew := clock_skew a;
     sawtooth_step_seconds := sawtooth_step_seconds a;
     sawtooth_max_deviation := sawtooth_max_deviation a;
     white_duration_overshoot := white_duration_overshoot a;
     even_duration_overshoot := even_duration_overshoot a;
     dc_offset := dc_offset a;
     invert := invert a;
     amplitude := amplitude a;
     gaussian_filter_stddev_seconds := stddev;
     high_pass_filter_hz := cutoff |}.

(** A stand-in for the library, to run the program on examples: frames
    alternate, a frame is rendered as one sample, resampling keeps one
    sample in [down], and the filters halve or negate the signal, so that
    an applied filter shows. *)
Fixpoint alternate (n : nat) (v : float) : list float :=
  match n with
  | O => []
  | S n' => v :: alternate n' (fsub (Fin 1) v)
  end.

Fixpoint decimate (x : list float) (down : nat) (phase : nat)
  : list float :=
  match x with
  | [] => []
  | v :: tl =>
      match phase with
      | O => v :: decimate tl down (Nat.pred down)
      | S p => decimate tl down p
      end
  end.

Definition example_library : Library := {|
  SOS := unit;
  sawtooth_pi n _ := repeat (Fin 0) n;
  resample_poly x _ down := decimate x (Z.to_nat down) 0;
  gaussian M _ := repeat (Fin 1) (Z.to_nat M);
  convolve_same x _ := map (fun v => fmul v (Fin (1 # 2))) x;
  butter_highpass _ _ := tt;
  sosfilt _ x := map fneg x;
  generate_frames n _ := alternate (Z.to_nat n) (Fin 0);
  generate_fake_samples frames _ _ _ _ :=
    map (fun f => fsub (fmul (Fin 2) f) (Fin 1)) frames
|}.

End FakeRecording.

(* ================================================================== *)
(** ** Scenarios and the vocabulary of the statements                   *)
(* ================================================================== *)

(** The spec of the concrete scenario: four alternating frames at 24
    frames per second. *)
Definition BW4 : Report.Spec :=
  Report.mkSpec 24 1 4 [] ["BLACK"; "WHITE"; "BLACK"; "WHITE"]%string.

(** A recording analysis that reports the three transitions of [BW4] at
    their nominal timestamps. *)
Definition BW4_recording : list Report.RecordedTransition :=
  [Report.mkRec (fin (1 # 24)) "WHITE";
   Report.mkRec (fin (2 # 24)) "BLACK";
   Report.mkRec (fin (3 # 24)) "WHITE"]%string.



(** Six alternating frames, and a recording that misses the third
    transition and detects the second one twice. *)
Definition BW6 : Report.Spec :=
  Report.mkSpec 24 1 6 []
    ["BLACK"; "WHITE"; "BLACK"; "WHITE"; "BLACK"; "WHITE"]%string.

Definition one_missing_one_duplicated : list Report.RecordedTransition :=
  [Report.mkRec (fin (1 # 24)) "WHITE";
   Report.mkRec (fin (2 # 24)) "BLACK";
   Report.mkRec (fin (21 # 240)) "BLACK";
   Report.mkRec (fin (4 # 24)) "BLACK";
   Report.mkRec (fin (5 # 24)) "WHITE"]%string.

(** Two states of the synthesizer's surroundings: the output file does not
    exist yet, or holds an earlier recording. *)
Definition no_recording : FakeRecording.World :=
  FakeRecording.mkWorld (Some BW4) FakeRecording.Absent.

Definition previous_recording : FakeRecording.World :=
  FakeRecording.mkWorld (Some BW4) (FakeRecording.Wav 8 [Fin 1; Fin (-1)]).

(** The value of a computation that is known to succeed. *)
Definition value_or {A} (d : A) (r : result A) : A :=
  match r with Ok a => a | Raise _ => d end.

(** Every cell is a finite number; every cell is the number [c]. *)
Definition all_finite (s : list float) : Prop :=
  forall x, In x s -> is_finite x = true.

Definition all_equal_to (c : Q) (s : list float) : Prop :=
  forall x, In x s -> exists q, x = Fin q /\ (q == c)%Q.

(** Reference transitions in strictly increasing order of timestamp. *)
Definition increasing (refs : list Report.ReferenceTransition) : Prop :=
  StronglySorted
    (fun a b => flt (Report.timestamp_seconds a)
                    (Report.timestamp_seconds b) = true) refs.

(** The errors of the rows of one label. *)
Definition errors_of (label : string) (t : list Report.AlignedTransition)
  : list float :=
  map Report.error_seconds (filter (Report.frame_is label) t).

(** The affine map that [rescale] applies, between finite intervals. *)
Definition affine (l r tl tr : Q) (x : float) : float :=
  fadd (fmul (fdiv (fsub x (Fin l)) (fin (r - l))) (fin (tr - tl))) (Fin tl).

(** The row that [add_columns] makes of a merged row, given the key
    column and the map to expected timestamps. *)
Definition row_of (keys : list float) (g : float -> float)
           (m : Report.MergedRow) : Report.AlignedTransition :=
  Report.mkRow
    (Report.m_reference_frame m)
    (Report.m_reference_previous_frame_count m)
    (Report.m_recording_timestamp_seconds m)
    (Report.m_frame m)
    (Report.m_reference_timestamp_seconds m)
    (Nat.ltb 1 (Series.occurrences keys
                  (Report.m_reference_timestamp_seconds m)))
    (g (Report.m_reference_timestamp_seconds m))
    (fsub (Report.m_recording_timestamp_seconds m)
          (Report.m_reference_timestamp_seconds m)).

Definition key_is (k : float) (m : Report.MergedRow) : bool :=
  same k (Report.m_reference_timestamp_seconds m).

(** The rows of the aligned table that belong to a reference transition,
    and the number of recorded rows the nearest-neighbour merge matched to
    it. *)
Definition rows_at (r : Report.ReferenceTransition)
           (t : list Report.AlignedTransition) : list Report.AlignedTransition :=
  filter (fun row => same (Report.timestamp_seconds r)
                          (Report.reference_timestamp_seconds row)) t.

Definition detections (asof : list Report.AsofRow)
           (r : Report.ReferenceTransition) : nat :=
  length (Report.matched asof (Report.timestamp_seconds r)).

(** A pass over the table that leaves the anomaly columns alone. *)
Definition keeps_anomaly
           (f : Report.AlignedTransition -> Report.AlignedTransition) : Prop :=
  forall r, Report.anomaly (f r) = Report.anomaly r /\
            Report.reference_timestamp_seconds (f r)
              = Report.reference_timestamp_seconds r.

(** The number of rows with a given anomaly ([None]: normal rows). *)
Definition count_anomaly (a : option Report.anomaly_label)
           (t : list Report.AlignedTransition) : nat :=
  length (filter (fun row =>
                    match Report.anomaly row, a with
                    | None, None => true
                    | Some Report.Repeated_transition,
                      Some Report.Repeated_transition => true
                    | Some Report.Missing_transition,
                      Some Report.Missing_transition => true
                    | _, _ => false
                    end) t).

(** *** Vocabulary of the further properties *)

(** Every cell is a finite number or is missing. *)
Definition finite_or_missing (s : list float) : Prop :=
  all_finite (Series.dropna s).

(** A series in non-decreasing order. *)
Definition ascending (s : list float) : Prop :=
  StronglySorted (fun a b => fle a b = true) s.

(** The number of cells that hold a given anomaly. *)
Definition count_label (a : option Report.anomaly_label)
           (l : list (option Report.anomaly_label)) : nat :=
  length (filter (fun x =>
                    match x, a with
                    | None, None => true
                    | Some Report.Repeated_transition,
                      Some Report.Repeated_transition => true
                    | Some Report.Missing_transition,
                      Some Report.Missing_transition => true
                    | _, _ => false
                    end) l).

(** The anomaly cells of the rows made for a reference transition that
    was matched with [k] recorded rows. *)
Definition labels_of_group (k : nat) : list (option Report.anomaly_label) :=
  match k with
  | O => [Some Report.Missing_transition]
  | S O => [None]
  | _ => repeat (Some Report.Repeated_transition) k
  end.

(** The number held by a finite cell. *)
Definition finite_part (x : float) : Q :=
  match x with Fin q => q | _ => 0 end.

(** A row without a recording (nothing but NaN in its recording columns)
    or a row with a recording and a finite error. *)
Definition well_formed_row (row : Report.AlignedTransition) : Prop :=
  match Report.frame row with
  | None => Report.recording_timestamp_seconds row = NaN /\
            Report.error_seconds row = NaN
  | Some _ => is_finite (Report.recording_timestamp_seconds row) = true /\
              is_finite (Report.error_seconds row) = true
  end.

(** The command line with [--invert] set or cleared, and with another
    [--clock-skew]. *)
Definition with_invert (b : bool) (a : FakeRecording.Args)
  : FakeRecording.Args :=
  {| FakeRecording.internal_sample_rate_hz :=
       FakeRecording.internal_sample_rate_hz a;
     FakeRecording.output_sample_rate_hz :=
       FakeRecording.output_sample_rate_hz a;
     FakeRecording.begin_padding_seconds :=
       FakeRecording.begin_padding_seconds a;
     FakeRecording.end_padding_seconds := FakeRecording.end_padding_seconds a;
     FakeRecording.clock_skew := FakeRecording.clock_skew a;
     FakeRecording.sawtooth_step_seconds :=
       FakeRecording.sawtooth_step_seconds a;
     FakeRecording.sawtooth_max_deviation :=
       FakeRecording.sawtooth_max_deviation a;
     FakeRecording.white_duration_overshoot :=
       FakeRecording.white_duration_overshoot a;
     FakeRecording.even_duration_overshoot :=
       FakeRecording.even_duration_overshoot a;
     FakeRecording.dc_offset := FakeRecording.dc_offset a;
     FakeRecording.invert := b;
     FakeRecording.amplitude := FakeRecording.amplitude a;
     FakeRecording.gaussian_filter_stddev_seconds :=
       FakeRecording.gaussian_filter_stddev_seconds a;
     FakeRecording.high_pass_filter_hz := FakeRecording.high_pass_filter_hz a |}.

Definition with_clock_skew (c : float) (a : FakeRecording.Args)
  : FakeRecording.Args :=
  {| FakeRecording.internal_sample_rate_hz :=
       FakeRecording.internal_sample_rate_hz a;
     FakeRecording.output_sample_rate_hz :=
       FakeRecording.output_sample_rate_hz a;
     FakeRecording.begin_padding_seconds :=
       FakeRecording.begin_padding_seconds a;
     FakeRecording.end_padding_seconds := FakeRecording.end_padding_seconds a;
     FakeRecording.clock_skew := c;
     FakeRecording.sawtooth_step_seconds :=
       FakeRecording.sawtooth_step_seconds a;
     FakeRecording.sawtooth_max_deviation :=
       FakeRecording.sawtooth_max_deviation a;
     FakeRecording.white_duration_overshoot :=
       FakeRecording.white_duration_overshoot a;
     FakeRecording.even_duration_overshoot :=
       FakeRecording.even_duration_overshoot a;
     FakeRecording.dc_offset := FakeRecording.dc_offset a;
     FakeRecording.invert := FakeRecording.invert a;
     FakeRecording.amplitude := FakeRecording.amplitude a;
     FakeRecording.gaussian_filter_stddev_seconds :=
       FakeRecording.gaussian_filter_stddev_seconds a;
     FakeRecording.high_pass_filter_hz := FakeRecording.high_pass_filter_hz a |}.

(** The result of a computation, every sample negated. *)
Definition negated (r : result (list float)) : result (list float) :=
  match r with
  | Ok samples => Ok (map fneg samples)
  | Raise e => Raise e
  end.


(** A recorded transition at [a * t + b] for the reference transition at
    [t]; a recording analysis that has one such row for every reference
    transition, in order. *)
Definition recorded_at (a b : Q) (r : Report.ReferenceTransition)
           (c : Report.RecordedTransition) : Prop :=
  exists t x,
    Report.timestamp_seconds r = Fin t /\
    Report.csv_recording_timestamp_seconds c = Fin x /\
    x == a * t + b.

Definition exact_recording (a b : Q) (refs : list Report.ReferenceTransition)
           (stdin : list Report.RecordedTransition) : Prop :=
  Forall2 (recorded_at a b) refs stdin.




(** Three black frames: a spec without any transition. *)
Definition BBB : Report.Spec :=
  Report.mkSpec 24 1 0 [] ["BLACK"; "BLACK"; "BLACK"]%string.

(* ================================================================== *)
(** * Part II: properties                                              *)
(* ================================================================== *)

(** ** Lists: positions, masks and sortedness *)

Section ListFacts.
Context {A B : Type}.

Lemma nth_error_combine (a : list A) (b : list B) (i : nat) :
  nth_error (combine a b) i =
  match nth_error a i, nth_error b i with
  | Some x, Some y => Some (x, y)
  | _, _ => None
  end.
Proof.
  revert b i; induction a as [|x a IH]; intros [|y b] [|i]; simpl; auto.
  destruct (nth_error a i); reflexivity.
Qed.

Lemma In_mask (l : list A) (m : list bool) (x : A) :
  In x (Report.mask l m) <->
  exists i, nth_error l i = Some x /\ nth_error m i = Some true.
Proof.
  revert m; induction l as [|a l IH]; intros [|b m]; simpl.
  - split; [tauto | intros [[|i] [H _]]; discriminate].
  - split; [tauto | intros [[|i] [H _]]; discriminate].
  - split; [tauto | intros [[|i] [_ H]]; discriminate].
  - destruct b; simpl; rewrite IH; split.
    + intros [->|[i Hi]]; [exists 0%nat; auto | exists (S i); auto].
    + intros [[|i] [H1 H2]]; simpl in *;
        [left; congruence | right; exists i; auto].
    + intros [i Hi]; exists (S i); auto.
    + intros [[|i] [H1 H2]]; simpl in *; [discriminate | exists i; auto].
Qed.

Lemma mask_sorted (R : A -> A -> Prop) (l : list A) (m : list bool) :
  StronglySorted R l -> StronglySorted R (Report.mask l m).
Proof.
  intros H; revert m; induction H as [|a l Hs IH Hall]; intros [|b m];
    simpl; try constructor.
  destruct b; auto.
  constructor; auto.
  rewrite Forall_forall in *; intros x Hx.
  apply Hall. apply In_mask in Hx as [i [Hi _]].
  eapply nth_error_In; eauto.
Qed.

(** A list whose element at position [i] has key [g i], for a strictly
    monotone [g], is sorted by key. *)
Lemma sorted_by_position (R : B -> B -> Prop) (key : A -> B)
      (l : list A) :
  forall g : nat -> B,
    (forall i x, nth_error l i = Some x -> key x = g i) ->
    (forall i j, (i < j)%nat -> R (g i) (g j)) ->
    StronglySorted (fun a b => R (key a) (key b)) l.
Proof.
  induction l as [|a l IH]; intros g Hkey Hmono; constructor.
  - apply (IH (fun i => g (S i))).
    + intros i x Hx. apply (Hkey (S i)); exact Hx.
    + intros i j Hij. apply Hmono; lia.
  - rewrite Forall_forall; intros x Hx.
    apply In_nth_error in Hx as [i Hi].
    rewrite (Hkey 0%nat a eq_refl), (Hkey (S i) x Hi).
    apply Hmono; lia.
Qed.

End ListFacts.

Lemma nth_error_shift {A} (s : list A) (i : nat) :
  nth_error (Series.shift s) i =
  if Nat.ltb i (length s)
  then Some (match i with O => None | S j => nth_error s j end)
  else None.
Proof.
  unfold Series.shift. rewrite nth_error_firstn.
  destruct (Nat.ltb i (length s)) eqn:Hi; [|reflexivity].
  apply Nat.ltb_lt in Hi.
  destruct i as [|j]; simpl; [reflexivity|].
  rewrite nth_error_map.
  destruct (nth_error s j) eqn:Hj; [reflexivity|].
  apply nth_error_None in Hj; lia.
Qed.

Lemma length_shift {A} (s : list A) : length (Series.shift s) = length s.
Proof.
  unfold Series.shift. rewrite length_firstn. simpl. rewrite length_map. lia.
Qed.

Lemma length_cumsum_from acc s :
  length (Series.cumsum_from acc s) = length s.
Proof. revert acc; induction s; simpl; intros; auto. Qed.

Lemma length_cumcount_from seen ks :
  length (Series.cumcount_from seen ks) = length ks.
Proof. revert seen; induction ks; simpl; intros; auto. Qed.

(** ** Arithmetic of [float] *)

Lemma Qle_bool_false (a b : Q) : Qle_bool a b = false <-> (b < a)%Q.
Proof.
  split; intros H.
  - apply Qnot_le_lt. intros Hle. apply Qle_bool_iff in Hle. congruence.
  - destruct (Qle_bool a b) eqn:E; [|reflexivity].
    apply Qle_bool_iff in E. exfalso. apply (Qlt_not_le _ _ H E).
Qed.

Lemma flt_fin (a b : Q) : flt (fin a) (fin b) = true <-> (a < b)%Q.
Proof.
  unfold fin; simpl. rewrite negb_true_iff, Qle_bool_false.
  rewrite !Qred_correct. reflexivity.
Qed.

Lemma same_refl x : same x x = true.
Proof. destruct x; simpl; auto. apply Qeq_bool_iff. reflexivity. Qed.

Lemma same_sym x y : same x y = same y x.
Proof.
  destruct x, y; simpl; auto.
  destruct (Qeq_bool q q0) eqn:E1, (Qeq_bool q0 q) eqn:E2; auto.
  - apply Qeq_bool_iff in E1. symmetry in E1.
    apply Qeq_bool_iff in E1. congruence.
  - apply Qeq_bool_iff in E2. symmetry in E2.
    apply Qeq_bool_iff in E2. congruence.
Qed.

Lemma same_trans x y z : same x y = true -> same y z = true -> same x z = true.
Proof.
  destruct x, y, z; simpl; auto; try discriminate.
  rewrite !Qeq_bool_iff. intros H1 H2. rewrite H1. exact H2.
Qed.

(** ** The reference transitions *)

Section ReferenceTransitions.
Import Report.

Lemma nth_error_timestamps n fd i :
  nth_error (timestamps n fd) i =
  if Nat.ltb i n then Some (fmul (of_int (Z.of_nat i)) fd) else None.
Proof.
  unfold timestamps, Series.arange.
  rewrite !nth_error_map, nth_error_seq.
  destruct (Nat.ltb i n); reflexivity.
Qed.

Lemma length_ne_shift fs : length (ne_shift fs) = length fs.
Proof.
  unfold ne_shift. rewrite length_map, length_combine, length_shift. lia.
Qed.

Lemma length_diff fs : length (reference_transitions_diff fs) = length fs.
Proof.
  unfold reference_transitions_diff. rewrite <- (length_ne_shift fs).
  destruct (ne_shift fs); reflexivity.
Qed.

Lemma length_previous_frame_counts d :
  length (previous_frame_counts d) = length d.
Proof.
  unfold previous_frame_counts, Series.cumcount, Series.cumsum.
  now rewrite length_map, length_shift, length_cumcount_from,
    length_cumsum_from.
Qed.

(** The mask is true exactly at the positions, other than the first,
    whose frame differs from the frame before. *)
Lemma nth_error_diff fs i :
  nth_error (reference_transitions_diff fs) i = Some true <->
  exists j prev cur,
    i = S j /\ nth_error fs j = Some prev /\ nth_error fs i = Some cur /\
    String.eqb cur prev = false.
Proof.
  unfold reference_transitions_diff.
  destruct i as [|j].
  - split.
    + destruct (ne_shift fs); simpl; discriminate.
    + intros (j & ? & ? & H & _); discriminate.
  - assert (E : nth_error (set_label_0 false (ne_shift fs)) (S j) =
                nth_error (ne_shift fs) (S j))
      by (destruct (ne_shift fs); reflexivity).
    rewrite E. unfold ne_shift.
    rewrite nth_error_map, nth_error_combine, nth_error_shift.
    destruct (nth_error fs (S j)) as [cur|] eqn:Hc; simpl.
    + assert (Hlt : Nat.ltb (S j) (length fs) = true).
      { apply Nat.ltb_lt. apply nth_error_Some. congruence. }
      rewrite Hlt. simpl.
      destruct (nth_error fs j) as [prev|] eqn:Hp; simpl.
      * split.
        -- intros H. exists j, prev, cur. repeat split; auto.
           injection H as H. now apply negb_true_iff.
        -- intros (j' & prev' & cur' & Hj & Hp' & Hc' & Hne).
           injection Hj as <-. rewrite Hp in Hp'.
           injection Hp' as <-. injection Hc' as <-.
           now rewrite Hne.
      * apply nth_error_None in Hp. apply Nat.ltb_lt in Hlt. lia.
    + split; [discriminate|].
      intros (j' & prev' & cur' & _ & _ & Hc' & _). discriminate.
Qed.

Lemma nth_error_all_frames fs fd i r :
  nth_error (all_frames fs fd) i = Some r ->
  timestamp_seconds r = fmul (of_int (Z.of_nat i)) fd /\
  nth_error fs i = Some (ref_frame r).
Proof.
  unfold all_frames.
  rewrite nth_error_map, !nth_error_combine, nth_error_timestamps.
  destruct (Nat.ltb i (length fs)); [|discriminate].
  destruct (nth_error fs i) as [f|]; [|discriminate].
  destruct (nth_error (previous_frame_counts _) i); [|discriminate].
  simpl. intros H; injection H as <-. simpl. auto.
Qed.

Lemma all_frames_defined fs fd i f :
  nth_error fs i = Some f ->
  exists r, nth_error (all_frames fs fd) i = Some r.
Proof.
  intros Hf. unfold all_frames.
  assert (Hi : (i < length fs)%nat) by (apply nth_error_Some; congruence).
  rewrite nth_error_map, !nth_error_combine, nth_error_timestamps, Hf.
  apply Nat.ltb_lt in Hi as Hi'. rewrite Hi'.
  destruct (nth_error (previous_frame_counts _) i) eqn:Hp; simpl; eauto.
  apply nth_error_None in Hp.
  rewrite length_previous_frame_counts, length_diff in Hp. lia.
Qed.

Lemma timestamps_increasing (q : Q) (i j : nat) :
  (0 < q)%Q -> (i < j)%nat ->
  flt (fmul (of_int (Z.of_nat i)) (fin q))
      (fmul (of_int (Z.of_nat j)) (fin q)) = true.
Proof.
  intros Hq Hij. unfold of_int, fin, fmul. apply flt_fin.
  rewrite Qred_correct.
  apply Qmult_lt_compat_r; [exact Hq|].
  rewrite <- Zlt_Qlt. lia.
Qed.

Lemma frame_duration_positive (num den : Z) :
  (0 < num)%Z -> (0 < den)%Z -> (0 < inject_Z den / inject_Z num)%Q.
Proof.
  intros Hn Hd. apply Qlt_shift_div_l.
  - change 0%Q with (inject_Z 0). rewrite <- Zlt_Qlt. exact Hn.
  - rewrite Qmult_0_l. change 0%Q with (inject_Z 0).
    rewrite <- Zlt_Qlt. exact Hd.
Qed.

(** The reference transitions of a spec with a positive frame rate:
    increasing and finite timestamps. *)
Lemma reference_transitions_increasing_finite spec refs :
  (0 < fps_num spec)%Z -> (0 < fps_den spec)%Z ->
  reference_transitions spec = Ok refs ->
  increasing refs /\ all_finite (map timestamp_seconds refs).
Proof.
  intros Hnum Hden. unfold reference_transitions, int_truediv.
  destruct (Z.eqb_spec (fps_den spec) 0) as [E|_]; [lia|].
  destruct (Z.eqb_spec (fps_num spec) 0) as [E|_]; [lia|].
  cbn [bind]. intros H.
  assert (E : refs =
    mask (all_frames (frames spec)
            (fin (inject_Z (fps_den spec) / inject_Z (fps_num spec))))
         (reference_transitions_diff (frames spec))) by congruence.
  subst refs. clear H.
  pose proof (frame_duration_positive _ _ Hnum Hden) as Hpos.
  split.
  - apply mask_sorted.
    apply (sorted_by_position (fun x y => flt x y = true)
             timestamp_seconds _
             (fun i => fmul (of_int (Z.of_nat i))
                (fin (inject_Z (fps_den spec) / inject_Z (fps_num spec))))).
    + intros i x Hx. now apply nth_error_all_frames in Hx.
    + intros i j Hij. now apply timestamps_increasing.
  - intros x Hx. apply in_map_iff in Hx as (r & <- & Hr).
    apply In_mask in Hr as (i & Hi & _).
    apply nth_error_all_frames in Hi as [-> _]. reflexivity.
Qed.

Lemma reference_transitions_fps spec refs :
  reference_transitions spec = Ok refs ->
  exists fps, int_truediv (fps_num spec) (fps_den spec) = Ok fps.
Proof.
  unfold reference_transitions.
  destruct (int_truediv (fps_num spec) (fps_den spec)); [eauto|discriminate].
Qed.

End ReferenceTransitions.

(** C6.  For every spec with a positive frame rate the aligner derives its
    reference transitions, and: their timestamps are strictly increasing;
    every one of them sits at a frame index [i >= 1] whose label differs from
    the label of frame [i - 1], at timestamp [i * frame_duration], and carries
    the label of frame [i]; every such index yields a transition.  The first
    frame (index 0) is therefore never a transition, whatever its label. *)
Theorem reference_transitions_strictly_increasing (spec : Report.Spec) :
  (0 < Report.fps_num spec)%Z ->
  (0 < Report.fps_den spec)%Z ->
  let frame_duration :=
    fin (inject_Z (Report.fps_den spec) / inject_Z (Report.fps_num spec)) in
  exists refs,
    Report.reference_transitions spec = Ok refs /\
    StronglySorted
      (fun a b => flt (Report.timestamp_seconds a)
                      (Report.timestamp_seconds b) = true) refs /\
    (forall r, In r refs ->
       exists i prev,
         nth_error (Report.frames spec) i = Some prev /\
         nth_error (Report.frames spec) (S i) = Some (Report.ref_frame r) /\
         prev <> Report.ref_frame r /\
         Report.timestamp_seconds r =
           fmul (of_int (Z.of_nat (S i))) frame_duration) /\
    (forall i prev cur,
       nth_error (Report.frames spec) i = Some prev ->
       nth_error (Report.frames spec) (S i) = Some cur ->
       prev <> cur ->
       exists r, In r refs /\ Report.ref_frame r = cur /\
                 Report.timestamp_seconds r =
                   fmul (of_int (Z.of_nat (S i))) frame_duration).
Proof.
  intros Hnum Hden fd.
  unfold Report.reference_transitions, Report.int_truediv.
  destruct (Z.eqb_spec (Report.fps_den spec) 0) as [E|_]; [lia|].
  destruct (Z.eqb_spec (Report.fps_num spec) 0) as [E|_]; [lia|].
  cbn [bind]. fold fd.
  eexists; split; [reflexivity|].
  pose proof (frame_duration_positive _ _ Hnum Hden) as Hpos.
  split; [|split].
  - apply mask_sorted.
    apply (sorted_by_position (fun x y => flt x y = true)
             Report.timestamp_seconds _
             (fun i => fmul (of_int (Z.of_nat i)) fd)).
    + intros i x Hx. now apply nth_error_all_frames in Hx.
    + intros i j Hij. now apply timestamps_increasing.
  - intros r Hr. apply In_mask in Hr as (i & Hi & Hd).
    apply nth_error_diff in Hd as (j & prev & cur & -> & Hp & Hc & Hne).
    apply nth_error_all_frames in Hi as [Ht Hf].
    exists j, prev. rewrite Hc in Hf. injection Hf as Hf. subst cur.
    repeat split; auto.
    intros ->. rewrite String.eqb_refl in Hne. discriminate.
  - intros i prev cur Hp Hc Hne.
    destruct (all_frames_defined _ fd _ _ Hc) as [r Hr].
    exists r. pose proof (nth_error_all_frames _ _ _ _ Hr) as [Ht Hf].
    rewrite Hc in Hf. injection Hf as Hf.
    repeat split; auto.
    apply In_mask. exists (S i); split; [exact Hr|].
    apply nth_error_diff. exists i, prev, cur. repeat split; auto.
    apply String.eqb_neq. congruence.
Qed.

Lemma reference_transitions_witness :
  (0 < Report.fps_num BW4)%Z /\ (0 < Report.fps_den BW4)%Z /\
  exists refs, Report.reference_transitions BW4 = Ok refs /\ length refs = 3%nat.
Proof.
  split; [reflexivity|]. split; [reflexivity|].
  destruct (reference_transitions_strictly_increasing BW4 eq_refl eq_refl)
    as (refs & Hrefs & _).
  exists refs. split; [exact Hrefs|].
  vm_compute in Hrefs. injection Hrefs as <-. reflexivity.
Defined.

(** C1.  For the spec [fps = 24/1], [frames = BLACK, WHITE, BLACK, WHITE] the
    aligner derives three reference transitions, at 1/24, 2/24 and 3/24
    seconds, labelled WHITE, BLACK, WHITE, each with
    [previous_frame_count = 1]; and on the recording analysis that holds
    exactly these timestamps and labels, with or without clock-skew
    compensation, the aligned table has three rows whose [error_seconds] is
    0 after rescaling, regression and per-label offset removal. *)
Theorem BW4_scenario :
  Report.reference_transitions BW4 =
    Ok [Report.mkRef (fin (1 # 24)) "WHITE" (Fin 1);
        Report.mkRef (fin (2 # 24)) "BLACK" (Fin 1);
        Report.mkRef (fin (3 # 24)) "WHITE" (Fin 1)]%string
  /\ forall compensate_clock_skew,
       exists out,
         Report.generate_report compensate_clock_skew BW4 BW4_recording
           = Ok out /\
         map Report.reference_timestamp_seconds (Report.transitions out)
           = [fin (1 # 24); fin (2 # 24); fin (3 # 24)] /\
         map Report.error_seconds (Report.transitions out)
           = [Fin 0; Fin 0; Fin 0].
Proof.
  split.
  - vm_compute. reflexivity.
  - intros [|]; eexists; (split; [vm_compute; reflexivity|]);
      split; reflexivity.
Qed.

(** ** Rescaling a series whose values all coincide *)

Section DegenerateInterval.
Import Report.

Lemma dropna_all_equal c s : all_equal_to c s -> Series.dropna s = s.
Proof.
  unfold Series.dropna. induction s as [|x s IH]; intros H; simpl; auto.
  destruct (H x (or_introl eq_refl)) as (q & -> & _). simpl.
  f_equal. apply IH. intros y Hy. apply H. now right.
Qed.

Lemma fold_left_choice (pick : float -> float -> float) c tl :
  (forall a b, pick a b = a \/ pick a b = b) ->
  forall x0, all_equal_to c (x0 :: tl) ->
  exists q, fold_left pick tl x0 = Fin q /\ (q == c)%Q.
Proof.
  intros Hpick. induction tl as [|y tl IH]; intros x0 H; simpl.
  - apply H. now left.
  - apply IH. intros z [<-|Hz].
    + destruct (Hpick x0 y) as [-> | ->]; apply H; simpl; auto.
    + apply H. simpl; auto.
Qed.

Lemma fmin2_choice a b : Series.fmin2 a b = a \/ Series.fmin2 a b = b.
Proof. unfold Series.fmin2. destruct (fle b a); auto. Qed.

Lemma fmax2_choice a b : Series.fmax2 a b = a \/ Series.fmax2 a b = b.
Proof. unfold Series.fmax2. destruct (fle a b); auto. Qed.

Lemma Qred_zero (q : Q) : (q == 0)%Q -> Qred q = 0%Q.
Proof. intros H. apply (Qred_complete q 0 H). Qed.

Lemma check_sorted_NaN (side : string) (tl : list float) :
  check_sorted side (NaN :: tl) =
  Raise (ValueError ("Merge keys contain null values on " ++ side ++ " side")).
Proof. unfold check_sorted. destruct tl; reflexivity. Qed.

End DegenerateInterval.

(** C10.  [rescale] divides by the length of the interval of its series
    without a guard.  On a recorded timeline that is not empty and whose
    timestamps all coincide, that interval exists and has length zero, the
    division is 0/0, and [rescale] raises nothing: it returns a scaled
    timestamp NaN for every row.  No aligned table comes out of such a
    timeline: the nearest-neighbour merge then rejects its NaN keys, and the
    run ends with that [ValueError]. *)
Theorem rescale_zero_length_interval
        (c : Q) (stdin : list Report.RecordedTransition)
        (target_range : Interval) (refs : list Report.ReferenceTransition) :
  let recording := map Report.csv_recording_timestamp_seconds stdin in
  stdin <> [] ->
  all_equal_to c recording ->
  (exists i, Report.interval recording = Ok i /\ Interval_length i = Fin 0) /\
  Report.rescale recording target_range = Ok (map (fun _ => NaN) recording) /\
  (Report.interval (map Report.timestamp_seconds refs) = Ok target_range ->
   Report.align refs stdin =
     Raise (ValueError "Merge keys contain null values on left side") /\
   forall compensate_clock_skew spec,
     Report.reference_transitions spec = Ok refs ->
     Report.generate_report compensate_clock_skew spec stdin =
       Raise (ValueError "Merge keys contain null values on left side")).
Proof.
  intros recording Hne Hall.
  assert (Hrec : recording <> []) by (subst recording; destruct stdin; [congruence | discriminate]).
  assert (Hmin : exists a, Series.min recording = Fin a /\ (a == c)%Q).
  { unfold Series.min. rewrite (dropna_all_equal c) by exact Hall.
    destruct recording as [|x0 tl]; [congruence|].
    apply fold_left_choice; [apply fmin2_choice | exact Hall]. }
  assert (Hmax : exists b, Series.max recording = Fin b /\ (b == c)%Q).
  { unfold Series.max. rewrite (dropna_all_equal c) by exact Hall.
    destruct recording as [|x0 tl]; [congruence|].
    apply fold_left_choice; [apply fmax2_choice | exact Hall]. }
  destruct Hmin as (a & Hmin & Ha), Hmax as (b & Hmax & Hb).
  assert (Hint : Report.interval recording = Ok (mkInterval (Fin a) (Fin b))).
  { unfold Report.interval, pd_Interval. rewrite Hmin, Hmax. simpl.
    assert (E : Qle_bool a b = true)
      by (apply Qle_bool_iff; rewrite Ha, Hb; apply Qle_refl).
    now rewrite E. }
  assert (Hlen : Interval_length (mkInterval (Fin a) (Fin b)) = Fin 0).
  { unfold Interval_length; simpl. unfold fin. f_equal.
    apply Qred_zero. rewrite Ha, Hb. ring. }
  assert (Hres : Report.rescale recording target_range
                 = Ok (map (fun _ => NaN) recording)).
  { unfold Report.rescale. rewrite Hint. cbn [bind]. f_equal.
    apply map_ext_in. intros x Hx.
    destruct (Hall x Hx) as (q & -> & Hq).
    rewrite Hlen. cbn [left fsub]. unfold fin.
    rewrite (Qred_zero (q - a)) by (rewrite Hq, Ha; ring).
    reflexivity. }
  split; [eauto|]. split; [exact Hres|].
  intros Htarget.
  assert (Halign : Report.align refs stdin =
            Raise (ValueError "Merge keys contain null values on left side")).
  { unfold Report.align.
    fold recording. rewrite Hint, Htarget. cbn [bind].
    rewrite Hres. cbn [bind]. unfold Report.merge_asof.
    destruct recording as [|x0 tl]; [congruence|].
    cbn [map]. rewrite (check_sorted_NaN "left"). reflexivity. }
  split; [exact Halign|].
  intros compensate_clock_skew spec Hrefs.
  destruct (reference_transitions_fps _ _ Hrefs) as [fps Hfps].
  unfold Report.generate_report.
  rewrite Hfps, Hrefs. cbn [bind]. rewrite Htarget. cbn [bind].
  fold recording. rewrite Hint. cbn [bind]. rewrite Halign. reflexivity.
Qed.

Lemma rescale_zero_length_interval_witness :
  [Report.mkRec (Fin 5) "WHITE"; Report.mkRec (Fin 5) "BLACK"]%string <> [] /\
  Report.rescale [Fin 5; Fin 5] (mkInterval (fin (1 # 24)) (fin (3 # 24)))
    = Ok [NaN; NaN].
Proof.
  split; [discriminate|].
  apply (rescale_zero_length_interval 5
           [Report.mkRec (Fin 5) "WHITE"; Report.mkRec (Fin 5) "BLACK"]%string
           (mkInterval (fin (1 # 24)) (fin (3 # 24))) []).
  - discriminate.
  - intros x [<-|[<-|[]]]; exists 5%Q; split; reflexivity.
Defined.

(** ** Means with missing values *)

Section Means.

Lemma fadd_finite x y q :
  fadd x y = Fin q ->
  exists a b, x = Fin a /\ y = Fin b /\ (q == a + b)%Q.
Proof.
  destruct x as [a| | |], y as [b| | |]; cbn [fadd]; try discriminate.
  unfold fin. intros H.
  assert (E : q = Qred (a + b)) by congruence. subst q.
  exists a, b. split; [reflexivity|]. split; [reflexivity|].
  apply Qred_correct.
Qed.

(** A finite sum has finite terms only. *)
Lemma fold_fadd_finite (l : list float) :
  forall acc s,
    fold_left fadd l acc = Fin s ->
    exists a qs, acc = Fin a /\ l = map Fin qs /\
                 (s == a + Numpy.Qsum qs)%Q.
Proof.
  induction l as [|x l IH]; simpl; intros acc s H.
  - exists s, []. split; [exact H|]. split; [reflexivity|].
    simpl. ring.
  - apply IH in H as (a' & qs & Hacc & -> & Hs).
    apply fadd_finite in Hacc as (a & b & -> & -> & Ha').
    exists a, (b :: qs). split; [reflexivity|]. split; [reflexivity|].
    simpl. rewrite Hs, Ha'. ring.
Qed.

Lemma fold_fadd_Fin (qs : list Q) :
  forall a, exists s,
    fold_left fadd (map Fin qs) (Fin a) = Fin s /\
    (s == a + Numpy.Qsum qs)%Q.
Proof.
  induction qs as [|q qs IH]; simpl; intros a.
  - exists a. split; auto. ring.
  - destruct (IH (Qred (a + q))) as (s & Hs & Es).
    exists s. split; [exact Hs|]. rewrite Es, Qred_correct. ring.
Qed.

Lemma dropna_Fin (qs : list Q) : Series.dropna (map Fin qs) = map Fin qs.
Proof.
  unfold Series.dropna. induction qs; simpl; auto. now f_equal.
Qed.

Lemma dropna_fsub (m : Q) (s : list float) :
  Series.dropna (map (fun e => fsub e (Fin m)) s) =
  map (fun e => fsub e (Fin m)) (Series.dropna s).
Proof.
  unfold Series.dropna. induction s as [|x s IH]; simpl; auto.
  destruct x; simpl; rewrite IH; reflexivity.
Qed.

Lemma Qsum_shift (m : Q) (qs : list Q) :
  (Numpy.Qsum (map (fun q => Qred (q - m)) qs) ==
   Numpy.Qsum qs - inject_Z (Z.of_nat (length qs)) * m)%Q.
Proof.
  induction qs as [|q qs IH].
  - simpl. ring.
  - cbn [map Numpy.Qsum fold_right length].
    fold (Numpy.Qsum (map (fun q => Qred (q - m)) qs)).
    fold (Numpy.Qsum qs).
    rewrite IH, Qred_correct, Nat2Z.inj_succ. unfold Z.succ.
    rewrite inject_Z_plus. ring.
Qed.

Lemma count_nonzero (n : nat) :
  (0 < n)%nat -> ~ (inject_Z (Z.of_nat n) == 0)%Q.
Proof.
  intros Hn H. unfold Qeq in H. simpl in H. lia.
Qed.

Lemma fdiv_finite (x : float) (n m : Q) :
  ~ (n == 0)%Q -> fdiv x (Fin n) = Fin m ->
  exists t, x = Fin t /\ m = Qred (t / n).
Proof.
  intros Hn. destruct (Qeq_bool n 0) eqn:En;
    [apply Qeq_bool_iff in En; tauto|].
  destruct x as [t| | |]; cbn [fdiv]; rewrite ?En.
  - unfold fin. intros H. exists t. split; [reflexivity | congruence].
  - cbn [sgn]. destruct (Z.sgn (Qnum n)); discriminate.
  - cbn [sgn]. destruct (Z.sgn (Qnum n)); discriminate.
  - discriminate.
Qed.

Lemma mean_same_dropna (s1 s2 : list float) :
  Series.dropna s1 = Series.dropna s2 -> Series.mean s1 = Series.mean s2.
Proof. unfold Series.mean, Series.sum. now intros ->. Qed.

(** The mean of a series of finite values. *)
Lemma mean_Fin (qs : list Q) :
  qs <> [] ->
  exists t, (t == Numpy.Qsum qs)%Q /\
    Series.mean (map Fin qs) =
    fin (t / inject_Z (Z.of_nat (length qs))).
Proof.
  intros Hne. unfold Series.mean, Series.sum. rewrite dropna_Fin.
  destruct (fold_fadd_Fin qs 0) as (t & Ht & Et).
  exists t. split; [rewrite Et; ring|].
  rewrite Ht, length_map.
  destruct qs as [|q qs]; [congruence|]. cbn [map].
  unfold of_int. cbn [fdiv].
  destruct (Qeq_bool (inject_Z (Z.of_nat (length (q :: qs)))) 0) eqn:En;
    [|reflexivity].
  apply Qeq_bool_iff in En. apply count_nonzero in En; [tauto | simpl; lia].
Qed.

(** A finite mean is the mean of finite values. *)
Lemma mean_finite_inv (s : list float) (m : Q) :
  Series.mean s = Fin m ->
  exists qs, Series.dropna s = map Fin qs /\ qs <> [] /\
             (m == Numpy.Qsum qs / inject_Z (Z.of_nat (length qs)))%Q.
Proof.
  unfold Series.mean, Series.sum.
  destruct (Series.dropna s) as [|x0 tl] eqn:Hd; [discriminate|].
  intros H. apply fdiv_finite in H as (t & Hsum & Hm);
    [|apply count_nonzero; simpl; lia].
  apply fold_fadd_finite in Hsum as (a & qs & Ha & Hqs & Ht).
  assert (a = 0%Q) by congruence. subst a.
  exists qs. split; [exact Hqs|]. split.
  - intros ->. discriminate.
  - rewrite Hm, Qred_correct, Ht, Hqs, length_map.
    apply Qdiv_comp; [ring | reflexivity].
Qed.

(** Subtracting its own mean from a series leaves a series of mean 0. *)
Lemma mean_centered (s : list float) (m : Q) :
  Series.mean s = Fin m ->
  Series.mean (map (fun e => fsub e (Fin m)) s) = Fin 0.
Proof.
  intros H. apply mean_finite_inv in H as (qs & Hd & Hne & Hm).
  set (qs' := map (fun q => Qred (q - m)) qs).
  rewrite (mean_same_dropna _ (map Fin qs')).
  2:{ rewrite dropna_fsub, Hd, dropna_Fin. unfold qs'.
      rewrite !map_map. reflexivity. }
  destruct (mean_Fin qs') as (t & Et & ->).
  { unfold qs'. destruct qs; [congruence | discriminate]. }
  unfold fin. f_equal. apply Qred_zero.
  unfold qs' in *. rewrite length_map, Et, Qsum_shift, Hm.
  field. apply count_nonzero. destruct qs; simpl; [congruence | lia].
Qed.

End Means.

(** ** Per-label offsets *)

Section Offsets.
Import Report.

Lemma frame_is_set_error label e r :
  frame_is label (set_error_seconds e r) = frame_is label r.
Proof. reflexivity. Qed.

Lemma frame_is_exclusive l l' r :
  l <> l' -> frame_is l r = true -> frame_is l' r = false.
Proof.
  unfold frame_is. destruct (frame r) as [f|]; [|discriminate].
  intros Hne H. apply String.eqb_eq in H. subst f.
  now apply String.eqb_neq.
Qed.

Lemma errors_subtract_same l o t :
  errors_of l (subtract_offset l o t) =
  map (fun e => fsub e o) (errors_of l t).
Proof.
  unfold errors_of, subtract_offset.
  induction t as [|r t IH]; simpl; auto.
  destruct (frame_is l r) eqn:E.
  - rewrite frame_is_set_error, E. simpl. now rewrite IH.
  - rewrite E. exact IH.
Qed.

Lemma errors_subtract_other l l' o t :
  l <> l' ->
  errors_of l (subtract_offset l' o t) = errors_of l t.
Proof.
  intros Hne. unfold errors_of, subtract_offset.
  induction t as [|r t IH]; simpl; auto.
  destruct (frame_is l' r) eqn:E'.
  - rewrite frame_is_set_error.
    destruct (frame_is l r) eqn:E; [|exact IH].
    rewrite (frame_is_exclusive l l' r Hne E) in E'. discriminate.
  - destruct (frame_is l r); simpl; now rewrite IH.
Qed.

(** What the two subtractions of lines 179-184 do to the rows of one
    label: that label's own offset is subtracted, and nothing else. *)
Lemma errors_remove_offsets label t :
  label = "BLACK"%string \/ label = "WHITE"%string ->
  errors_of label (remove_offsets t) =
  map (fun e => fsub e (offset_of label t)) (errors_of label t).
Proof.
  unfold remove_offsets. intros [-> | ->].
  - rewrite errors_subtract_other by discriminate.
    apply errors_subtract_same.
  - rewrite errors_subtract_same.
    rewrite errors_subtract_other by discriminate. reflexivity.
Qed.

End Offsets.

(** C7.  The offset-removal pass computes the mean error of the BLACK rows
    and of the WHITE rows and subtracts from every row of a label that
    label's own mean.  For every aligned table and each of the two labels
    whose mean error is defined (a finite number), the mean error of that
    label's rows is 0 after the pass. *)
Theorem per_label_mean_is_zero
        (t : list Report.AlignedTransition) (label : string) :
  label = "BLACK"%string \/ label = "WHITE"%string ->
  is_finite (Report.offset_of label t) = true ->
  Report.offset_of label (Report.remove_offsets t) = Fin 0.
Proof.
  intros Hlabel Hfin.
  destruct (Report.offset_of label t) as [m| | |] eqn:Hm; try discriminate.
  unfold Report.offset_of in *. fold (errors_of label (Report.remove_offsets t)).
  fold (errors_of label t) in Hm.
  rewrite errors_remove_offsets by exact Hlabel.
  unfold Report.offset_of. fold (errors_of label t). rewrite Hm.
  apply mean_centered. exact Hm.
Qed.

Lemma per_label_mean_is_zero_witness :
  let refs := value_or [] (Report.reference_transitions BW6) in
  let t :=
    value_or []
      (Report.add_columns
         (value_or [] (Report.align refs one_missing_one_duplicated))) in
  ("BLACK" = "BLACK" \/ "BLACK" = "WHITE")%string /\
  is_finite (Report.offset_of "BLACK" t) = true /\
  Report.offset_of "BLACK" t = fin (1 # 720) /\
  Report.offset_of "BLACK" (Report.remove_offsets t) = Fin 0.
Proof.
  intros refs t.
  split; [left; reflexivity|].
  split; [vm_compute; reflexivity|].
  split; [vm_compute; reflexivity|].
  apply (per_label_mean_is_zero t "BLACK").
  - left; reflexivity.
  - vm_compute; reflexivity.
Defined.

(** ** Regression and clock skew *)

Section Regression.
Import Report.



End Regression.




(** ** The outer merge, one reference transition at a time *)

Section Merge.
Import Report.

Lemma combine_map_map {A B C} (f : A -> B) (g : A -> C) (l : list A) :
  combine (map f l) (map g l) = map (fun x => (f x, g x)) l.
Proof. induction l; simpl; congruence. Qed.

Lemma flt_not_same x y : flt x y = true -> same x y = false.
Proof.
  destruct x, y; simpl; auto; try discriminate.
  rewrite negb_true_iff, Qle_bool_false. intros H.
  destruct (Qeq_bool q q0) eqn:E; [|reflexivity].
  apply Qeq_bool_iff in E. rewrite E in H.
  exfalso. apply (Qlt_irrefl _ H).
Qed.

Lemma add_columns_rows merged t :
  add_columns merged = Ok t ->
  exists g,
    t = map (row_of (map m_reference_timestamp_seconds merged) g) merged.
Proof.
  unfold add_columns, rescale.
  destruct (interval (map m_recording_timestamp_seconds merged)) as [ri|];
    [|discriminate].
  cbn [bind].
  destruct (interval (map m_reference_timestamp_seconds merged)) as [oi|];
    [|discriminate].
  cbn [bind]. intros H.
  exists (fun x => fadd (fmul (fdiv (fsub x (left oi)) (Interval_length oi))
                             (Interval_length ri)) (left ri)).
  assert (E : forall a b : list AlignedTransition, Ok a = Ok b -> b = a)
    by (intros a b Hab; congruence).
  apply E in H. rewrite H. clear E H.
  unfold Series.duplicated_keep_false.
  rewrite !map_map.
  rewrite <- (map_id merged) at 1.
  rewrite combine_map_map, combine_map_map, map_map.
  reflexivity.
Qed.

Lemma rows_of_reference_key asof r m :
  In m (rows_of_reference asof r) ->
  m_reference_timestamp_seconds m = timestamp_seconds r.
Proof.
  unfold rows_of_reference.
  destruct (matched asof (timestamp_seconds r)) as [|a ms].
  - intros [<-|[]]. reflexivity.
  - intros H. apply in_map_iff in H as (a' & <- & _). reflexivity.
Qed.

Lemma filter_all {A} (f : A -> bool) (l : list A) :
  (forall x, In x l -> f x = true) -> filter f l = l.
Proof.
  induction l as [|x l IH]; simpl; intros H; auto.
  rewrite (H x (or_introl eq_refl)). f_equal. apply IH. auto.
Qed.

Lemma filter_none {A} (f : A -> bool) (l : list A) :
  (forall x, In x l -> f x = false) -> filter f l = [].
Proof.
  induction l as [|x l IH]; simpl; intros H; auto.
  rewrite (H x (or_introl eq_refl)). apply IH. auto.
Qed.

Lemma key_is_rows_same k asof r :
  same k (timestamp_seconds r) = true ->
  filter (key_is k) (rows_of_reference asof r) = rows_of_reference asof r.
Proof.
  intros H. apply filter_all. intros m Hm. unfold key_is.
  now rewrite (rows_of_reference_key _ _ _ Hm).
Qed.

Lemma key_is_rows_other k asof r :
  same k (timestamp_seconds r) = false ->
  filter (key_is k) (rows_of_reference asof r) = [].
Proof.
  intros H. apply filter_none. intros m Hm. unfold key_is.
  now rewrite (rows_of_reference_key _ _ _ Hm).
Qed.

(** Among the rows made for the reference transitions, those whose key
    is the timestamp of [r] are the rows made for [r]. *)
Lemma key_is_flat_map asof refs r :
  increasing refs -> In r refs ->
  filter (key_is (timestamp_seconds r))
         (flat_map (rows_of_reference asof) refs)
  = rows_of_reference asof r.
Proof.
  intros Hs. induction Hs as [|r0 refs Hs IH Hall]; intros Hin;
    [destruct Hin|].
  cbn [flat_map]. rewrite filter_app.
  rewrite Forall_forall in Hall.
  destruct Hin as [->|Hin].
  - rewrite key_is_rows_same by apply same_refl.
    rewrite filter_none; [apply app_nil_r|].
    intros m Hm. apply in_flat_map in Hm as (r' & Hr' & Hm).
    unfold key_is. rewrite (rows_of_reference_key _ _ _ Hm).
    apply flt_not_same. auto.
  - rewrite key_is_rows_other.
    + simpl. auto.
    + rewrite same_sym. apply flt_not_same. auto.
Qed.

End Merge.

Section Nearest.
Import Report.

Lemma fle_total x y :
  isna x = false -> isna y = false -> fle x y = true \/ fle y x = true.
Proof.
  destruct x as [a| | |], y as [b| | |]; simpl; auto; try discriminate.
  intros _ _. destruct (Qlt_le_dec b a) as [H|H].
  - right. apply Qle_bool_iff. now apply Qlt_le_weak.
  - left. now apply Qle_bool_iff.
Qed.

Lemma monotonic_no_nan s :
  Series.is_monotonic_increasing s = true ->
  forall x, In x s -> isna x = false.
Proof.
  induction s as [|a s IH]; [intros _ x []|].
  cbn [Series.is_monotonic_increasing].
  destruct s as [|b s].
  - intros H x [<-|[]]. now apply negb_true_iff.
  - intros H. apply andb_true_iff in H as [Hab Hs].
    intros x [<-|Hx]; [|now apply IH].
    destruct a; simpl in *; auto; discriminate.
Qed.

Lemma last_Some {A} (l : list A) (b : A) :
  last (map Some l) None = Some b -> In b l.
Proof.
  induction l as [|x l IH]; [discriminate|].
  destruct l as [|y l].
  - simpl. intros H. left. congruence.
  - intros H. right. apply IH. exact H.
Qed.

Lemma last_None {A} (l : list A) : last (map Some l) None = None -> l = [].
Proof.
  induction l as [|x l IH]; auto.
  destruct l as [|y l]; [discriminate|].
  intros H. specialize (IH H). discriminate.
Qed.

(** On keys that passed the sortedness check, [nearest] answers with one
    of the right keys as soon as there is one. *)
Lemma nearest_in rs x :
  rs <> [] -> isna x = false ->
  (forall r, In r rs -> isna r = false) ->
  In (nearest rs x) rs.
Proof.
  intros Hne Hx Hrs. unfold nearest, backward, forward.
  destruct (last (map Some (filter (fun r => fle r x) rs)) None)
    as [b|] eqn:Hb;
    destruct (hd None (map Some (filter (fun r => fle x r) rs)))
    as [f|] eqn:Hf.
  - apply last_Some in Hb. apply filter_In in Hb as [Hb _].
    destruct (filter (fun r => fle x r) rs) as [|f' l] eqn:E;
      [discriminate|].
    assert (Hf' : In f rs).
    { simpl in Hf. assert (f' = f) by congruence. subst f'.
      assert (H : In f (f :: l)) by (left; reflexivity).
      rewrite <- E in H. now apply filter_In in H. }
    destruct (fle (fsub x b) (fsub f x)); assumption.
  - apply last_Some in Hb. now apply filter_In in Hb.
  - destruct (filter (fun r => fle x r) rs) as [|f' l] eqn:E;
      [discriminate|].
    simpl in Hf. assert (f' = f) by congruence. subst f'.
    assert (H : In f (f :: l)) by (left; reflexivity).
    rewrite <- E in H. now apply filter_In in H.
  - exfalso. apply last_None in Hb.
    destruct (filter (fun r => fle x r) rs) as [|f' l] eqn:E;
      [|discriminate].
    destruct rs as [|r rs]; [congruence|].
    assert (Hr : In r (r :: rs)) by (left; reflexivity).
    destruct (fle_total r x (Hrs r Hr) Hx) as [H|H].
    + assert (Hin : In r (filter (fun r => fle r x) (r :: rs)))
        by (apply filter_In; auto).
      rewrite Hb in Hin. destruct Hin.
    + assert (Hin : In r (filter (fun r => fle x r) (r :: rs)))
        by (apply filter_In; auto).
      rewrite E in Hin. destruct Hin.
Qed.

Lemma check_sorted_Ok side keys :
  check_sorted side keys = Ok tt ->
  Series.is_monotonic_increasing keys = true.
Proof.
  unfold check_sorted.
  destruct (Series.is_monotonic_increasing keys); [reflexivity|].
  destruct (existsb isna keys); discriminate.
Qed.

Lemma merge_asof_rows scaled stdin rs asof :
  merge_asof scaled stdin rs = Ok asof ->
  Series.is_monotonic_increasing scaled = true /\
  Series.is_monotonic_increasing rs = true /\
  asof = map (fun p =>
                mkAsof (fst p) (csv_recording_timestamp_seconds (snd p))
                       (csv_frame (snd p)) (nearest rs (fst p)))
             (combine scaled stdin).
Proof.
  unfold merge_asof.
  destruct (check_sorted "left" scaled) as [[]|] eqn:Hl; [|discriminate].
  destruct (check_sorted "right" rs) as [[]|] eqn:Hr; [|discriminate].
  cbn [bind]. intros H.
  split; [eapply check_sorted_Ok; eauto|].
  split; [eapply check_sorted_Ok; eauto|]. congruence.
Qed.

Lemma right_only_empty scaled stdin refs asof :
  refs <> [] ->
  merge_asof scaled stdin (map timestamp_seconds refs) = Ok asof ->
  right_only refs asof = [].
Proof.
  intros Hne H. apply merge_asof_rows in H as (Hl & Hr & ->).
  unfold right_only. rewrite filter_none; [reflexivity|].
  intros a Ha. apply in_map_iff in Ha as ([x c] & <- & Hp).
  apply in_combine_l in Hp. cbn [asof_reference_timestamp_seconds fst].
  apply negb_false_iff. apply existsb_exists.
  assert (Hin : In (nearest (map timestamp_seconds refs) x)
                   (map timestamp_seconds refs)).
  { apply nearest_in.
    - destruct refs; [congruence | discriminate].
    - exact (monotonic_no_nan scaled Hl x Hp).
    - exact (monotonic_no_nan _ Hr). }
  apply in_map_iff in Hin as (r & Hr' & Hin).
  exists r. split; [exact Hin|]. rewrite Hr'. apply same_refl.
Qed.

End Nearest.

Section Anomalies.
Import Report.

Lemma map_constant {A B} (f : A -> B) (c : B) (l : list A) :
  (forall x, In x l -> f x = c) -> map f l = repeat c (length l).
Proof.
  induction l as [|x l IH]; simpl; intros H; auto.
  rewrite (H x (or_introl eq_refl)). f_equal. apply IH. auto.
Qed.

Lemma rows_at_reference refs asof t r :
  increasing refs -> In r refs ->
  right_only refs asof = [] ->
  add_columns (outer_merge refs asof) = Ok t ->
  exists g,
    let keys := map m_reference_timestamp_seconds (outer_merge refs asof) in
    rows_at r t = map (row_of keys g) (rows_of_reference asof r) /\
    Series.occurrences keys (timestamp_seconds r) =
      length (rows_of_reference asof r).
Proof.
  intros Hs Hr Hro Hadd.
  destruct (add_columns_rows _ _ Hadd) as [g ->].
  exists g. cbn zeta. unfold outer_merge. rewrite Hro, app_nil_r.
  split.
  - unfold rows_at. rewrite filter_map_swap.
    cbn [row_of reference_timestamp_seconds].
    change (fun a : MergedRow =>
              same (timestamp_seconds r) (m_reference_timestamp_seconds a))
      with (key_is (timestamp_seconds r)).
    now rewrite key_is_flat_map.
  - unfold Series.occurrences. rewrite filter_map_swap, length_map.
    change (fun a : MergedRow =>
              same (timestamp_seconds r) (m_reference_timestamp_seconds a))
      with (key_is (timestamp_seconds r)).
    now rewrite key_is_flat_map.
Qed.

End Anomalies.

(** The rows that the outer merge and [add_columns] make for one reference
    transition, by the number [k] of recorded rows matched to it: one
    "missing" row for [k = 0], one normal row for [k = 1], [k] "repeated"
    rows for [k >= 2]. *)
Lemma anomalies_of_merge
        (refs : list Report.ReferenceTransition)
        (scaled : list float) (stdin : list Report.RecordedTransition)
        (asof : list Report.AsofRow) (t : list Report.AlignedTransition) :
  increasing refs ->
  refs <> [] ->
  (forall x, In x stdin ->
             isna (Report.csv_recording_timestamp_seconds x) = false) ->
  Report.merge_asof scaled stdin (map Report.timestamp_seconds refs)
    = Ok asof ->
  Report.add_columns (Report.outer_merge refs asof) = Ok t ->
  (forall row, In row t -> exists r, In r refs /\ In row (rows_at r t)) /\
  (forall r, In r refs ->
     (forall row, In row (rows_at r t) ->
        (Report.anomaly row = Some Report.Repeated_transition
         <-> (1 < detections asof r)%nat)) /\
     match detections asof r with
     | O => map Report.anomaly (rows_at r t)
            = [Some Report.Missing_transition]
     | S O => map Report.anomaly (rows_at r t) = [None]
     | k => map Report.anomaly (rows_at r t)
            = repeat (Some Report.Repeated_transition) k
     end).
Proof.
  intros Hs Hne Hrec Hasof Hadd.
  pose proof (right_only_empty _ _ _ _ Hne Hasof) as Hro.
  assert (Hcases : forall r, In r refs ->
    match detections asof r with
    | O => map Report.anomaly (rows_at r t)
           = [Some Report.Missing_transition]
    | S O => map Report.anomaly (rows_at r t) = [None]
    | k => map Report.anomaly (rows_at r t)
           = repeat (Some Report.Repeated_transition) k
    end).
  { intros r Hr.
    destruct (rows_at_reference _ _ _ _ Hs Hr Hro Hadd) as (g & Hrows & Hocc).
    cbn zeta in Hrows, Hocc. rewrite Hrows. unfold detections.
    unfold Report.rows_of_reference in *.
    destruct (Report.matched asof (Report.timestamp_seconds r))
      as [|a [|a' ms]] eqn:Hm.
    - cbn [map length]. unfold Report.anomaly.
      cbn [row_of Report.repeated Report.recording_timestamp_seconds
           Report.m_reference_timestamp_seconds
           Report.m_recording_timestamp_seconds].
      rewrite Hocc. reflexivity.
    - cbn [map length]. unfold Report.anomaly.
      cbn [row_of Report.repeated Report.recording_timestamp_seconds
           Report.m_reference_timestamp_seconds
           Report.m_recording_timestamp_seconds].
      rewrite Hocc. cbn [length Nat.ltb Nat.leb].
      assert (Ha : In a (Report.matched asof (Report.timestamp_seconds r)))
        by (rewrite Hm; left; reflexivity).
      apply filter_In in Ha as [Ha _].
      apply merge_asof_rows in Hasof as (_ & _ & ->).
      apply in_map_iff in Ha as ([x c] & <- & Hp).
      apply in_combine_r in Hp.
      cbn [Report.asof_recording_timestamp_seconds snd].
      unfold Report.isValid. rewrite (Hrec c Hp). reflexivity.
    - cbn [length]. rewrite !map_map.
      rewrite (map_constant _ (Some Report.Repeated_transition)).
      + reflexivity.
      + intros x Hx. unfold Report.anomaly.
        cbn [row_of Report.repeated Report.m_reference_timestamp_seconds].
        rewrite Hocc, length_map. reflexivity. }
  split.
  - intros row Hrow.
    destruct (add_columns_rows _ _ Hadd) as [g Ht].
    rewrite Ht in Hrow. apply in_map_iff in Hrow as (m & Hm & Hin).
    unfold Report.outer_merge in Hin. rewrite Hro, app_nil_r in Hin.
    apply in_flat_map in Hin as (r & Hr & Hin).
    exists r. split; [exact Hr|].
    unfold rows_at. apply filter_In. split.
    + rewrite Ht. apply in_map_iff. exists m. split; [exact Hm|].
      unfold Report.outer_merge. rewrite Hro, app_nil_r.
      apply in_flat_map. eauto.
    + rewrite <- Hm. cbn [row_of Report.reference_timestamp_seconds].
      rewrite (rows_of_reference_key _ _ _ Hin). apply same_refl.
  - intros r Hr. split; [|exact (Hcases r Hr)].
    intros row Hrow. specialize (Hcases r Hr).
    assert (Ha : In (Report.anomaly row)
                    (map Report.anomaly (rows_at r t)))
      by (apply in_map; exact Hrow).
    destruct (detections asof r) as [|[|k]].
    + rewrite Hcases in Ha. destruct Ha as [<-|[]].
      split; [discriminate | lia].
    + rewrite Hcases in Ha. destruct Ha as [<-|[]].
      split; [discriminate | lia].
    + rewrite Hcases in Ha. apply repeat_spec in Ha. rewrite Ha.
      split; [lia | reflexivity].
Qed.


Section EndToEnd.
Import Report.

(** The stages a successful run went through. *)
Lemma generate_report_stages compensate spec stdin out :
  generate_report compensate spec stdin = Ok out ->
  exists refs ri scaled asof t p,
    reference_transitions spec = Ok refs /\
    interval (map timestamp_seconds refs) = Ok ri /\
    rescale (map csv_recording_timestamp_seconds stdin) ri = Ok scaled /\
    merge_asof scaled stdin (map timestamp_seconds refs) = Ok asof /\
    add_columns (outer_merge refs asof) = Ok t /\
    linear_regression compensate t = Ok p /\
    transitions out = remove_offsets (subtract_regression p t).
Proof.
  unfold generate_report.
  destruct (int_truediv (fps_num spec) (fps_den spec)) as [fps|];
    [|discriminate].
  cbn [bind].
  destruct (reference_transitions spec) as [refs|]; [|discriminate].
  cbn [bind].
  destruct (interval (map timestamp_seconds refs)) as [ri|] eqn:Hri;
    [|discriminate].
  cbn [bind].
  destruct (interval (map csv_recording_timestamp_seconds stdin))
    as [ti|] eqn:Hti; [|discriminate].
  cbn [bind]. unfold align. rewrite Hti, Hri. cbn [bind].
  destruct (rescale (map csv_recording_timestamp_seconds stdin) ri)
    as [scaled|] eqn:Hs; [|discriminate].
  cbn [bind].
  destruct (merge_asof scaled stdin (map timestamp_seconds refs))
    as [asof|] eqn:Hm; [|discriminate].
  cbn [bind].
  destruct (add_columns (outer_merge refs asof)) as [t|] eqn:Ht;
    [|discriminate].
  cbn [bind].
  destruct (linear_regression compensate t) as [p|] eqn:Hp;
    [|discriminate].
  cbn [bind]. intros H.
  exists refs, ri, scaled, asof, t, p.
  repeat (split; [reflexivity || assumption|]).
  assert (E : forall a b : Output, Ok a = Ok b -> transitions b = transitions a)
    by (intros a b Hab; congruence).
  apply E in H. exact H.
Qed.

(** A recording analysis that got through the merge has a timestamp in
    every row: a missing timestamp stays missing when rescaled, and the
    merge refuses NaN keys. *)
Lemma merged_rows_have_timestamps stdin ri scaled rs asof :
  rescale (map csv_recording_timestamp_seconds stdin) ri = Ok scaled ->
  merge_asof scaled stdin rs = Ok asof ->
  forall x, In x stdin -> isna (csv_recording_timestamp_seconds x) = false.
Proof.
  unfold rescale.
  destruct (interval (map csv_recording_timestamp_seconds stdin)) as [oi|];
    [|discriminate].
  cbn [bind]. intros Hs Hm x Hx.
  apply merge_asof_rows in Hm as (Hmono & _ & _).
  destruct (csv_recording_timestamp_seconds x) eqn:E; try reflexivity.
  exfalso.
  assert (Hin : In NaN scaled).
  { assert (Es : scaled =
      map (fun x => fadd (fmul (fdiv (fsub x (left oi)) (Interval_length oi))
                               (Interval_length ri)) (left ri))
          (map csv_recording_timestamp_seconds stdin)) by congruence.
    rewrite Es. apply in_map_iff. exists NaN. split; [reflexivity|].
    apply in_map_iff. exists x. split; [exact E | exact Hx]. }
  pose proof (monotonic_no_nan _ Hmono _ Hin) as H. discriminate.
Qed.

Lemma interval_nonempty {A} (f : A -> float) (l : list A) i :
  interval (map f l) = Ok i -> l <> [].
Proof. intros H ->. discriminate. Qed.


Lemma anomaly_map f l :
  keeps_anomaly f -> map anomaly (map f l) = map anomaly l.
Proof.
  intros Hf. rewrite map_map. apply map_ext. intros x. apply Hf.
Qed.

Lemma corrections_keep_anomaly p t :
  exists f, keeps_anomaly f /\
            remove_offsets (subtract_regression p t) = map f t.
Proof.
  unfold remove_offsets, subtract_regression, subtract_offset.
  set (t1 := map _ t).
  set (bo := offset_of "BLACK" t1). set (wo := offset_of "WHITE" t1).
  unfold t1. rewrite !map_map.
  eexists. split; [|reflexivity].
  intros r. cbn beta.
  destruct (frame_is "BLACK" _); destruct (frame_is "WHITE" _);
    split; reflexivity.
Qed.

End EndToEnd.



(** ** Rescaling keeps the order of the timestamps *)

Section RescaleOrder.
Import Report.

Lemma dropna_finite s : all_finite s -> Series.dropna s = s.
Proof.
  unfold Series.dropna. intros H. apply filter_all.
  intros x Hx. specialize (H x Hx). destruct x; auto; discriminate.
Qed.

Lemma fold_left_pick (pick : float -> float -> float) tl :
  (forall a b, pick a b = a \/ pick a b = b) ->
  forall x0, In (fold_left pick tl x0) (x0 :: tl).
Proof.
  intros Hpick. induction tl as [|y tl IH]; intros x0; simpl; auto.
  destruct (IH (pick x0 y)) as [H|H]; [|auto].
  rewrite <- H. destruct (Hpick x0 y) as [-> | ->]; auto.
Qed.

(** The interval of a series of finite values has finite endpoints. *)
Lemma interval_finite s i :
  all_finite s -> interval s = Ok i ->
  exists l r, i = mkInterval (Fin l) (Fin r) /\ (l <= r)%Q.
Proof.
  intros Hfin. unfold interval, pd_Interval, Series.min, Series.max.
  rewrite (dropna_finite s Hfin).
  destruct s as [|x0 tl]; [discriminate|].
  pose proof (fold_left_pick Series.fmin2 tl fmin2_choice x0) as Hmin.
  pose proof (fold_left_pick Series.fmax2 tl fmax2_choice x0) as Hmax.
  apply Hfin in Hmin, Hmax.
  destruct (fold_left Series.fmin2 tl x0) as [l| | |]; try discriminate.
  destruct (fold_left Series.fmax2 tl x0) as [r| | |]; try discriminate.
  cbn [fle]. destruct (Qle_bool l r) eqn:E; [|discriminate].
  intros H. exists l, r. split; [congruence|]. now apply Qle_bool_iff.
Qed.


Lemma affine_Fin l r tl tr q :
  (l < r)%Q ->
  exists v, affine l r tl tr (Fin q) = Fin v /\
            (v == (tr - tl) / (r - l) * q + (tl - (tr - tl) / (r - l) * l))%Q.
Proof.
  intros Hlr. unfold affine. cbn [fsub fin fdiv].
  assert (Hd : ~ (r - l == 0)%Q).
  { intros E. apply (Qlt_irrefl l).
    assert (E' : (r == l)%Q) by (rewrite <- (Qplus_0_l l), <- E; ring).
    now rewrite <- E' at 2. }
  assert (Hz : Qeq_bool (Qred (r - l)) 0 = false).
  { destruct (Qeq_bool (Qred (r - l)) 0) eqn:E; [|reflexivity].
    apply Qeq_bool_iff in E. rewrite Qred_correct in E. tauto. }
  unfold fin. cbn [fdiv]. rewrite Hz. cbn [fmul fadd]. unfold fin.
  eexists. split; [reflexivity|].
  rewrite !Qred_correct. field. exact Hd.
Qed.





End RescaleOrder.

Section SortedInput.
Import Report.



End SortedInput.




(** ** The synthesizer *)

Section Synthesizer.
Import FakeRecording.

(** [ceil_div a b] is the ceiling of [a / b]. *)
Lemma ceil_div_spec (a b : Z) :
  (0 < b)%Z ->
  ((Numpy.ceil_div a b - 1) * b < a <= Numpy.ceil_div a b * b)%Z.
Proof.
  intros Hb. unfold Numpy.ceil_div.
  pose proof (Z.div_mod (- a) b ltac:(lia)) as Hdm.
  pose proof (Z.mod_pos_bound (- a) b Hb) as Hmod.
  nia.
Qed.

Lemma downsample_ratio_value (args : Args) :
  (0 < output_sample_rate_hz args)%Z ->
  downsample_ratio args =
    Ok (Numpy.ceil_div (internal_sample_rate_hz args)
                       (output_sample_rate_hz args)).
Proof.
  intros H. unfold downsample_ratio.
  destruct (Z.eqb_spec (output_sample_rate_hz args) 0); [lia|reflexivity].
Qed.


Lemma truthy_zero (x : float) : same x (Fin 0) = true -> truthy x = false.
Proof. destruct x; simpl; try discriminate. now intros ->. Qed.

Context {lib : Library}.


End Synthesizer.




(** C5 (as amended).  When the requested minimum internal rate is not
    above the output rate the run fails before any sample is computed: with
    [AssertionError], or with the JSON error when stdin holds no spec.  By
    then the command line has been parsed, which opened the output file for
    writing: the file exists and is empty when the run ends, whatever it
    held before. *)
Theorem failed_precondition_leaves_empty_file
        (lib : FakeRecording.Library)
        (args : FakeRecording.Args) (w : FakeRecording.World) :
  (FakeRecording.internal_sample_rate_hz args
     <= FakeRecording.output_sample_rate_hz args)%Z ->
  FakeRecording.generate_fake_recording args w =
    (FakeRecording.mkWorld (FakeRecording.stdin w) FakeRecording.Empty,
     Raise (match FakeRecording.stdin w with
            | Some _ => AssertionError
            | None => JSONDecodeError
            end)).
Proof.
  intros Hle.
  unfold FakeRecording.generate_fake_recording, FakeRecording.compute,
    FakeRecording.parse_arguments.
  cbn [FakeRecording.stdin].
  destruct (FakeRecording.stdin w) as [spec|]; cbn [bind]; [|reflexivity].
  destruct (Z.gtb_spec (FakeRecording.internal_sample_rate_hz args)
                       (FakeRecording.output_sample_rate_hz args)); [lia|].
  reflexivity.
Qed.

Lemma failed_precondition_leaves_empty_file_witness :
  (FakeRecording.internal_sample_rate_hz
     (FakeRecording.with_rates 8 8 FakeRecording.example_args)
   <= FakeRecording.output_sample_rate_hz
        (FakeRecording.with_rates 8 8 FakeRecording.example_args))%Z /\
  FakeRecording.generate_fake_recording
    (lib := FakeRecording.example_library)
    (FakeRecording.with_rates 8 8 FakeRecording.example_args) no_recording
  = (FakeRecording.mkWorld (Some BW4) FakeRecording.Empty,
     Raise AssertionError).
Proof.
  split; [discriminate|].
  apply (failed_precondition_leaves_empty_file
           FakeRecording.example_library
           (FakeRecording.with_rates 8 8 FakeRecording.example_args)
           no_recording).
  discriminate.
Defined.

(** A run that fails its precondition creates the output file, and wipes
    the recording that the file held. *)
Lemma failed_run_writes_the_output_file :
  (FakeRecording.internal_sample_rate_hz
     (FakeRecording.with_rates 8 8 FakeRecording.example_args)
   <= FakeRecording.output_sample_rate_hz
        (FakeRecording.with_rates 8 8 FakeRecording.example_args))%Z /\
  FakeRecording.output_recording_file no_recording = FakeRecording.Absent /\
  FakeRecording.generate_fake_recording
    (lib := FakeRecording.example_library)
    (FakeRecording.with_rates 8 8 FakeRecording.example_args) no_recording
  = (FakeRecording.mkWorld (Some BW4) FakeRecording.Empty,
     Raise AssertionError) /\
  FakeRecording.generate_fake_recording
    (lib := FakeRecording.example_library)
    (FakeRecording.with_rates 8 8 FakeRecording.example_args)
    previous_recording
  = (FakeRecording.mkWorld (Some BW4) FakeRecording.Empty,
     Raise AssertionError).
Proof.
  split; [discriminate|]. split; [reflexivity|].
  split; vm_compute; reflexivity.
Qed.

(** C8.  A Gaussian standard deviation of zero, or a high-pass cutoff of
    zero, leaves the corresponding filter out: the stage returns the samples
    it was given, and the whole computation gives what the program without
    that stage gives, for every input and whatever the other options. *)
Theorem zero_disables_filter
        (lib : FakeRecording.Library)
        (args : FakeRecording.Args) (w : FakeRecording.World) :
  (same (FakeRecording.gaussian_filter_stddev_seconds args) (Fin 0) = true ->
   (forall rate samples,
      FakeRecording.gaussian_stage args rate samples = Ok samples) /\
   FakeRecording.compute args w
     = FakeRecording.compute_without_gaussian args w) /\
  (same (FakeRecording.high_pass_filter_hz args) (Fin 0) = true ->
   (forall rate samples,
      FakeRecording.high_pass_stage args rate samples = samples) /\
   FakeRecording.compute args w
     = FakeRecording.compute_without_high_pass args w).
Proof.
  split; intros Hz; apply truthy_zero in Hz.
  - assert (Hstage : forall rate samples,
              FakeRecording.gaussian_stage args rate samples = Ok samples)
      by (intros; unfold FakeRecording.gaussian_stage; now rewrite Hz).
    split; [exact Hstage|].
    unfold FakeRecording.compute, FakeRecording.compute_without_gaussian.
    repeat match goal with
           | |- bind ?m _ = bind ?m _ => destruct m; cbn [bind]; auto
           end.
    now rewrite Hstage.
  - assert (Hstage : forall rate samples,
              FakeRecording.high_pass_stage args rate samples = samples)
      by (intros; unfold FakeRecording.high_pass_stage; now rewrite Hz).
    split; [exact Hstage|].
    unfold FakeRecording.compute, FakeRecording.compute_without_high_pass.
    repeat match goal with
           | |- bind ?m _ = bind ?m _ => destruct m; cbn [bind]; auto
           end.
    match goal with
    | |- context [FakeRecording.gaussian_stage ?a ?r ?x] =>
        destruct (FakeRecording.gaussian_stage a r x); cbn [bind]; auto
    end.
    now rewrite Hstage.
Qed.

Lemma zero_disables_filter_witness :
  same (FakeRecording.gaussian_filter_stddev_seconds
          (FakeRecording.with_filters (Fin 0) (Fin 10)
             FakeRecording.example_args)) (Fin 0) = true /\
  FakeRecording.compute (lib := FakeRecording.example_library)
    (FakeRecording.with_filters (Fin 0) (Fin 10) FakeRecording.example_args)
    no_recording
  = FakeRecording.compute_without_gaussian
      (lib := FakeRecording.example_library)
      (FakeRecording.with_filters (Fin 0) (Fin 10) FakeRecording.example_args)
      no_recording /\
  same (FakeRecording.high_pass_filter_hz
          (FakeRecording.with_filters (Fin 1) (Fin 0)
             FakeRecording.example_args)) (Fin 0) = true /\
  FakeRecording.compute (lib := FakeRecording.example_library)
    (FakeRecording.with_filters (Fin 1) (Fin 0) FakeRecording.example_args)
    no_recording
  = FakeRecording.compute_without_high_pass
      (lib := FakeRecording.example_library)
      (FakeRecording.with_filters (Fin 1) (Fin 0) FakeRecording.example_args)
      no_recording.
Proof.
  split; [reflexivity|]. split.
  - apply (zero_disables_filter FakeRecording.example_library
             (FakeRecording.with_filters (Fin 0) (Fin 10)
                FakeRecording.example_args) no_recording).
    reflexivity.
  - split; [reflexivity|].
    apply (zero_disables_filter FakeRecording.example_library
             (FakeRecording.with_filters (Fin 1) (Fin 0)
                FakeRecording.example_args) no_recording).
    reflexivity.
Defined.

(* ================================================================== *)
(** * Part III: further properties of the two programs                 *)
(* ================================================================== *)

(** ** Intervals and rescaling *)

Section Intervals.
Import Report.

Lemma fle_Fin a b : fle (Fin a) (Fin b) = true <-> (a <= b)%Q.
Proof. simpl. apply Qle_bool_iff. Qed.

Lemma fle_trans_finite x y z :
  is_finite y = true ->
  fle x y = true -> fle y z = true -> fle x z = true.
Proof.
  destruct y as [b| | |]; try discriminate. intros _.
  destruct x as [a| | |], z as [c| | |]; simpl; auto; try discriminate.
  rewrite !Qle_bool_iff. apply Qle_trans.
Qed.

Lemma fle_refl_finite x : is_finite x = true -> fle x x = true.
Proof.
  destruct x; try discriminate. intros _. apply fle_Fin. apply Qle_refl.
Qed.

Lemma fmin2_le a b :
  is_finite a = true -> is_finite b = true ->
  fle (Series.fmin2 a b) a = true /\ fle (Series.fmin2 a b) b = true.
Proof.
  intros Ha Hb. unfold Series.fmin2.
  destruct (fle b a) eqn:E; split; auto using fle_refl_finite.
  destruct (fle_total a b) as [H|H]; auto.
  - destruct a; auto; discriminate.
  - destruct b; auto; discriminate.
  - congruence.
Qed.

Lemma fmax2_le a b :
  is_finite a = true -> is_finite b = true ->
  fle a (Series.fmax2 a b) = true /\ fle b (Series.fmax2 a b) = true.
Proof.
  intros Ha Hb. unfold Series.fmax2.
  destruct (fle a b) eqn:E; split; auto using fle_refl_finite.
  destruct (fle_total a b) as [H|H]; auto.
  - destruct a; auto; discriminate.
  - destruct b; auto; discriminate.
  - congruence.
Qed.

Lemma fmin2_finite a b :
  is_finite a = true -> is_finite b = true ->
  is_finite (Series.fmin2 a b) = true.
Proof. intros. destruct (fmin2_choice a b) as [-> | ->]; auto. Qed.

Lemma fmax2_finite a b :
  is_finite a = true -> is_finite b = true ->
  is_finite (Series.fmax2 a b) = true.
Proof. intros. destruct (fmax2_choice a b) as [-> | ->]; auto. Qed.

Lemma fold_min_le tl :
  forall x0, all_finite (x0 :: tl) ->
  forall y, In y (x0 :: tl) -> fle (fold_left Series.fmin2 tl x0) y = true.
Proof.
  induction tl as [|z tl IH]; intros x0 Hfin y Hy.
  - destruct Hy as [<-|[]]. apply fle_refl_finite. apply Hfin. now left.
  - cbn [fold_left].
    assert (Hx : is_finite x0 = true) by (apply Hfin; simpl; auto).
    assert (Hz : is_finite z = true) by (apply Hfin; simpl; auto).
    assert (Hfin' : all_finite (Series.fmin2 x0 z :: tl)).
    { intros w [<-|Hw]; [now apply fmin2_finite | apply Hfin; simpl; auto]. }
    destruct (fmin2_le x0 z Hx Hz) as [H1 H2].
    assert (Hm : fle (fold_left Series.fmin2 tl (Series.fmin2 x0 z))
                     (Series.fmin2 x0 z) = true)
      by (apply IH; [exact Hfin' | now left]).
    destruct Hy as [<-|[<-|Hy]].
    + eapply fle_trans_finite; [|exact Hm|exact H1]. now apply fmin2_finite.
    + eapply fle_trans_finite; [|exact Hm|exact H2]. now apply fmin2_finite.
    + apply IH; [exact Hfin' | now right].
Qed.

Lemma fold_max_le tl :
  forall x0, all_finite (x0 :: tl) ->
  forall y, In y (x0 :: tl) -> fle y (fold_left Series.fmax2 tl x0) = true.
Proof.
  induction tl as [|z tl IH]; intros x0 Hfin y Hy.
  - destruct Hy as [<-|[]]. apply fle_refl_finite. apply Hfin. now left.
  - cbn [fold_left].
    assert (Hx : is_finite x0 = true) by (apply Hfin; simpl; auto).
    assert (Hz : is_finite z = true) by (apply Hfin; simpl; auto).
    assert (Hfin' : all_finite (Series.fmax2 x0 z :: tl)).
    { intros w [<-|Hw]; [now apply fmax2_finite | apply Hfin; simpl; auto]. }
    destruct (fmax2_le x0 z Hx Hz) as [H1 H2].
    assert (Hm : fle (Series.fmax2 x0 z)
                     (fold_left Series.fmax2 tl (Series.fmax2 x0 z)) = true)
      by (apply IH; [exact Hfin' | now left]).
    destruct Hy as [<-|[<-|Hy]].
    + eapply fle_trans_finite; [|exact H1|exact Hm]. now apply fmax2_finite.
    + eapply fle_trans_finite; [|exact H2|exact Hm]. now apply fmax2_finite.
    + apply IH; [exact Hfin' | now right].
Qed.

Lemma dropna_In s x : In x (Series.dropna s) <-> In x s /\ isna x = false.
Proof.
  unfold Series.dropna. rewrite filter_In, negb_true_iff. reflexivity.
Qed.

End Intervals.

(** The interval of a series of finite or missing values. *)
Lemma interval_spec (s : list float) :
  finite_or_missing s ->
  (Series.dropna s = [] ->
   Report.interval s
     = Raise (ValueError "left side of interval must be <= right side")) /\
  (Series.dropna s <> [] ->
   exists i,
     Report.interval s = Ok i /\
     In (left i) s /\ In (right i) s /\
     forall x, In x s -> isna x = false ->
               fle (left i) x = true /\ fle x (right i) = true).
Proof.
  intros Hfin. unfold Report.interval, pd_Interval, Series.min, Series.max.
  split.
  - intros ->. reflexivity.
  - intros Hne. unfold finite_or_missing in Hfin.
    destruct (Series.dropna s) as [|x0 tl] eqn:Hd; [congruence|].
    pose proof (fold_min_le tl x0 Hfin) as Hmin.
    pose proof (fold_max_le tl x0 Hfin) as Hmax.
    pose proof (fold_left_pick Series.fmin2 tl fmin2_choice x0) as Imin.
    pose proof (fold_left_pick Series.fmax2 tl fmax2_choice x0) as Imax.
    assert (Hle : fle (fold_left Series.fmin2 tl x0)
                      (fold_left Series.fmax2 tl x0) = true).
    { eapply (fle_trans_finite _ x0).
      - apply Hfin. now left.
      - apply Hmin. now left.
      - apply Hmax. now left. }
    rewrite Hle. eexists. split; [reflexivity|]. cbn [left right].
    rewrite <- Hd in Imin, Imax. apply dropna_In in Imin, Imax.
    split; [tauto|]. split; [tauto|].
    intros x Hx Hna.
    assert (Hin : In x (x0 :: tl)) by (rewrite <- Hd; now apply dropna_In).
    split; [now apply Hmin | now apply Hmax].
Qed.

(** X1.  [interval] of a series whose cells are finite numbers or missing:
    it raises [ValueError] exactly when no cell holds a number, and
    otherwise its two ends are cells of the series that bound every cell
    that holds a number. *)
Theorem interval_bounds (s : list float) :
  finite_or_missing s ->
  (Series.dropna s = [] ->
   Report.interval s
     = Raise (ValueError "left side of interval must be <= right side")) /\
  (Series.dropna s <> [] ->
   exists i,
     Report.interval s = Ok i /\
     In (left i) s /\ In (right i) s /\
     forall x, In x s -> isna x = false ->
               fle (left i) x = true /\ fle x (right i) = true).
Proof. exact (interval_spec s). Qed.

Section RescaleEnds.
Import Report.






(** The interval of a series of finite numbers encloses them. *)
Lemma interval_encloses s i :
  all_finite s -> interval s = Ok i ->
  forall x, In x s -> fle (left i) x = true /\ fle x (right i) = true.
Proof.
  intros Hfin. unfold interval, pd_Interval, Series.min, Series.max.
  rewrite (dropna_finite s Hfin).
  destruct s as [|x0 tl0]; [discriminate|].
  destruct (fle _ _); [|discriminate].
  intros H x Hx.
  assert (E : i = mkInterval (fold_left Series.fmin2 tl0 x0)
                             (fold_left Series.fmax2 tl0 x0)) by congruence.
  subst i. cbn [left right].
  split; [now apply fold_min_le | now apply fold_max_le].
Qed.

End RescaleEnds.



(** ** The number of frames before a transition *)

Section PreviousFrameCount.
Import Report.








End PreviousFrameCount.


(** ** The nearest reference transition *)

Section NearestKey.
Import Report.

Lemma monotonic_ascending s :
  all_finite s -> Series.is_monotonic_increasing s = true -> ascending s.
Proof.
  induction s as [|a s IH]; intros Hfin Hm; [constructor|].
  assert (Hs : all_finite s) by (intros y Hy; apply Hfin; now right).
  destruct s as [|b s].
  - constructor; constructor.
  - change (fle a b && Series.is_monotonic_increasing (b :: s) = true) in Hm.
    apply andb_true_iff in Hm as [Hab Hm].
    specialize (IH Hs Hm). constructor; [exact IH|].
    apply StronglySorted_inv in IH as [_ Hall].
    constructor; [exact Hab|].
    rewrite Forall_forall in *. intros y Hy.
    apply (fle_trans_finite a b y); auto. apply Hfin. simpl; auto.
Qed.

Lemma filter_ascending f s : ascending s -> ascending (filter f s).
Proof.
  intros H. induction H as [|a s Hs IH Hall]; [constructor|].
  simpl. destruct (f a); [|exact IH].
  constructor; [exact IH|].
  rewrite Forall_forall in *. intros y Hy.
  apply Hall. now apply filter_In in Hy.
Qed.

Lemma last_In {A} (l : list A) (d : A) : l <> [] -> In (last l d) l.
Proof.
  induction l as [|x l IH]; [congruence|]. intros _.
  destruct l as [|y l]; [now left|].
  right. apply IH. discriminate.
Qed.

Lemma ascending_last s d :
  all_finite s -> ascending s ->
  forall y, In y s -> fle y (last s d) = true.
Proof.
  intros Hfin H. induction H as [|a s Hs IH Hall]; intros y Hy; [destruct Hy|].
  assert (Hs' : all_finite s) by (intros z Hz; apply Hfin; now right).
  destruct s as [|b s].
  - destruct Hy as [<-|[]]. apply fle_refl_finite. apply Hfin. now left.
  - change (last (a :: b :: s) d) with (last (b :: s) d).
    destruct Hy as [<-|Hy]; [|now apply IH].
    rewrite Forall_forall in Hall. apply Hall.
    apply last_In. discriminate.
Qed.

Lemma last_Some_eq {A} (l : list A) (b d : A) :
  last (map Some l) None = Some b -> last l d = b.
Proof.
  induction l as [|x l IH]; [discriminate|].
  destruct l as [|y l].
  - simpl. congruence.
  - intros H. change (last (x :: y :: l) d) with (last (y :: l) d).
    apply IH. exact H.
Qed.

Lemma fle_fin_iff (a b : Q) : fle (fin a) (fin b) = true <-> (a <= b)%Q.
Proof.
  unfold fin; simpl. rewrite Qle_bool_iff, !Qred_correct. reflexivity.
Qed.

(** The backward key is the largest key at or below [x]. *)
Lemma backward_greatest rs x :
  all_finite rs -> ascending rs ->
  match backward rs (Fin x) with
  | Some b => In b rs /\ fle b (Fin x) = true /\
              forall r, In r rs -> fle r (Fin x) = true -> fle r b = true
  | None => forall r, In r rs -> fle r (Fin x) = false
  end.
Proof.
  intros Hfin Hs. unfold backward.
  set (B := filter (fun r => fle r (Fin x)) rs).
  destruct (last (map Some B) None) as [b|] eqn:Hb.
  - pose proof (last_Some _ _ Hb) as Hin.
    apply filter_In in Hin as [Hin Hle].
    split; [exact Hin|]. split; [exact Hle|].
    intros r Hr Hrx.
    rewrite <- (last_Some_eq B b b Hb).
    apply ascending_last.
    + intros y Hy. apply Hfin. now apply filter_In in Hy.
    + now apply filter_ascending.
    + apply filter_In. auto.
  - apply last_None in Hb. intros r Hr.
    destruct (fle r (Fin x)) eqn:E; [|reflexivity].
    assert (Hin : In r B) by (apply filter_In; auto).
    rewrite Hb in Hin. destruct Hin.
Qed.

(** The forward key is the smallest key at or above [x]. *)
Lemma forward_least rs x :
  all_finite rs -> ascending rs ->
  match forward rs (Fin x) with
  | Some f => In f rs /\ fle (Fin x) f = true /\
              forall r, In r rs -> fle (Fin x) r = true -> fle f r = true
  | None => forall r, In r rs -> fle (Fin x) r = false
  end.
Proof.
  intros Hfin Hs. unfold forward.
  pose proof (filter_ascending (fun r => fle (Fin x) r) rs Hs) as HF.
  destruct (filter (fun r => fle (Fin x) r) rs) as [|f F] eqn:E.
  - cbn [map hd]. intros r Hr.
    destruct (fle (Fin x) r) eqn:Er; [|reflexivity].
    assert (Hin : In r (filter (fun r => fle (Fin x) r) rs))
      by (apply filter_In; auto).
    rewrite E in Hin. destruct Hin.
  - cbn [map hd].
    assert (Hf : In f (filter (fun r => fle (Fin x) r) rs))
      by (rewrite E; now left).
    apply filter_In in Hf as [Hin Hle].
    split; [exact Hin|]. split; [exact Hle|].
    intros r Hr Hxr.
    assert (Hr' : In r (f :: F)) by (rewrite <- E; apply filter_In; auto).
    destruct Hr' as [<-|Hr'].
    + apply fle_refl_finite. now apply Hfin.
    + apply StronglySorted_inv in HF as [_ Hall].
      rewrite Forall_forall in Hall. now apply Hall.
Qed.

Lemma fle_false_Fin a b : fle (Fin a) (Fin b) = false <-> (b < a)%Q.
Proof. simpl. apply Qle_bool_false. Qed.

End NearestKey.

Lemma Qabs_cases (a : Q) :
  (0 <= a /\ Qabs a == a)%Q \/ (a <= 0 /\ Qabs a == - a)%Q.
Proof.
  destruct (Qlt_le_dec a 0) as [H|H].
  - right. split; [now apply Qlt_le_weak|].
    apply Qabs_neg. now apply Qlt_le_weak.
  - left. split; [exact H|]. now apply Qabs_pos.
Qed.

Ltac split_abs :=
  repeat match goal with
         | |- context [Qabs ?a] =>
             let E := fresh "E" in
             destruct (Qabs_cases a) as [[? E]|[? E]]; rewrite E in *; clear E
         | H : context [Qabs ?a] |- _ =>
             let E := fresh "E" in
             destruct (Qabs_cases a) as [[? E]|[? E]]; rewrite E in *; clear E
         end.

(** What [nearest] answers, for finite sorted keys. *)
Lemma nearest_closest (rs : list float) (x : Q) :
  all_finite rs -> rs <> [] ->
  Series.is_monotonic_increasing rs = true ->
  exists n,
    Report.nearest rs (Fin x) = Fin n /\
    In (Fin n) rs /\
    (forall r, In (Fin r) rs -> Qabs (x - n) <= Qabs (x - r))%Q /\
    (forall r, In (Fin r) rs -> Qabs (x - r) == Qabs (x - n) -> n <= r)%Q.
Proof.
  intros Hfin Hne Hm.
  pose proof (monotonic_ascending rs Hfin Hm) as Hs.
  pose proof (backward_greatest rs x Hfin Hs) as HB.
  pose proof (forward_least rs x Hfin Hs) as HF.
  unfold Report.nearest.
  destruct (Report.backward rs (Fin x)) as [b|];
    destruct (Report.forward rs (Fin x)) as [f|].
  - destruct HB as (Hb & Hbx & Hbmax), HF as (Hf & Hxf & Hfmin).
    pose proof (Hfin b Hb) as Fb. pose proof (Hfin f Hf) as Ff.
    destruct b as [qb| | |]; try discriminate.
    destruct f as [qf| | |]; try discriminate.
    apply fle_Fin in Hbx, Hxf. cbn [fsub].
    destruct (fle (fin (x - qb)) (fin (qf - x))) eqn:E.
    + apply fle_fin_iff in E. exists qb.
      split; [reflexivity|]. split; [exact Hb|]. split.
      * intros r Hr. destruct (Qlt_le_dec x r) as [H|H].
        -- assert (Hfr : (qf <= r)%Q)
             by (apply fle_Fin, Hfmin; [exact Hr|];
                 apply fle_Fin; now apply Qlt_le_weak).
           split_abs; lra.
        -- assert (Hrb : (r <= qb)%Q)
             by (apply fle_Fin, Hbmax; [exact Hr|]; now apply fle_Fin).
           split_abs; lra.
      * intros r Hr Ht. destruct (Qlt_le_dec x r) as [H|H]; [lra|].
        split_abs; lra.
    + assert (E' : ~ (x - qb <= qf - x)%Q).
      { intros H. apply fle_fin_iff in H. congruence. }
      exists qf.
      split; [reflexivity|]. split; [exact Hf|]. split.
      * intros r Hr. destruct (Qlt_le_dec x r) as [H|H].
        -- assert (Hfr : (qf <= r)%Q)
             by (apply fle_Fin, Hfmin; [exact Hr|];
                 apply fle_Fin; now apply Qlt_le_weak).
           split_abs; lra.
        -- assert (Hrb : (r <= qb)%Q)
             by (apply fle_Fin, Hbmax; [exact Hr|]; now apply fle_Fin).
           split_abs; lra.
      * intros r Hr Ht. destruct (Qlt_le_dec x r) as [H|H].
        -- apply fle_Fin, Hfmin; [exact Hr|].
           apply fle_Fin; now apply Qlt_le_weak.
        -- assert (Hrb : (r <= qb)%Q)
             by (apply fle_Fin, Hbmax; [exact Hr|]; now apply fle_Fin).
           split_abs; lra.
  - destruct HB as (Hb & Hbx & Hbmax).
    pose proof (Hfin b Hb) as Fb.
    destruct b as [qb| | |]; try discriminate.
    apply fle_Fin in Hbx. exists qb.
    split; [reflexivity|]. split; [exact Hb|].
    assert (Hall : forall r, In (Fin r) rs -> (r <= qb)%Q).
    { intros r Hr. apply fle_Fin, Hbmax; [exact Hr|].
      specialize (HF _ Hr). apply fle_false_Fin in HF.
      apply fle_Fin. now apply Qlt_le_weak. }
    split.
    + intros r Hr. specialize (Hall r Hr). split_abs; lra.
    + intros r Hr Ht. specialize (Hall r Hr). split_abs; lra.
  - destruct HF as (Hf & Hxf & Hfmin).
    pose proof (Hfin f Hf) as Ff.
    destruct f as [qf| | |]; try discriminate.
    apply fle_Fin in Hxf. exists qf.
    split; [reflexivity|]. split; [exact Hf|].
    assert (Hall : forall r, In (Fin r) rs -> (qf <= r)%Q).
    { intros r Hr. apply fle_Fin, Hfmin; [exact Hr|].
      specialize (HB _ Hr). apply fle_false_Fin in HB.
      apply fle_Fin. now apply Qlt_le_weak. }
    split.
    + intros r Hr. specialize (Hall r Hr). split_abs; lra.
    + intros r Hr Ht. now apply Hall.
  - exfalso. destruct rs as [|r rs]; [congruence|].
    assert (Hr : In r (r :: rs)) by now left.
    pose proof (Hfin r Hr) as Fr. destruct r as [q| | |]; try discriminate.
    specialize (HB _ Hr). specialize (HF _ Hr).
    apply fle_false_Fin in HB, HF. lra.
Qed.

(** X5.  The nearest-neighbour association: for reference timestamps that
    are finite and sorted, and a finite recorded timestamp [x], the matched
    reference timestamp is one of them, none of them is closer to [x], and
    among two that are equally close the earlier one is taken. *)
Theorem nearest_is_closest (rs : list float) (x : Q) :
  all_finite rs -> rs <> [] ->
  Series.is_monotonic_increasing rs = true ->
  exists n,
    Report.nearest rs (Fin x) = Fin n /\
    In (Fin n) rs /\
    (forall r, In (Fin r) rs -> Qabs (x - n) <= Qabs (x - r))%Q /\
    (forall r, In (Fin r) rs -> Qabs (x - r) == Qabs (x - n) -> n <= r)%Q.
Proof. exact (nearest_closest rs x). Qed.

(** X13.  The association preserves the order of the recording: of two
    finite recorded timestamps, the later one is never matched to an
    earlier reference transition than the earlier one. *)
Theorem nearest_is_monotone (rs : list float) (x y : Q) :
  all_finite rs -> rs <> [] ->
  Series.is_monotonic_increasing rs = true ->
  (x <= y)%Q ->
  exists n m,
    Report.nearest rs (Fin x) = Fin n /\
    Report.nearest rs (Fin y) = Fin m /\
    (n <= m)%Q.
Proof.
  intros Hfin Hne Hm Hxy.
  destruct (nearest_closest rs x Hfin Hne Hm) as (n & En & Hn & Hcn & Htn).
  destruct (nearest_closest rs y Hfin Hne Hm) as (m & Em & Hm' & Hcm & Htm).
  exists n, m. split; [exact En|]. split; [exact Em|].
  destruct (Qlt_le_dec m n) as [Hlt|Hle]; [|exact Hle]. exfalso.
  pose proof (Hcn m Hm') as H1. pose proof (Hcm n Hn) as H2.
  assert (Hstrict : ~ (Qabs (x - m) == Qabs (x - n))%Q).
  { intros E. pose proof (Htn m Hm' E). lra. }
  split_abs; lra.
Qed.

(** ** Counting the rows of the aligned table *)

Section RowCount.
Import Report.

Lemma count_anomaly_label a t :
  count_anomaly a t = count_label a (map anomaly t).
Proof.
  unfold count_anomaly, count_label. induction t as [|r t IH]; [reflexivity|].
  cbn [map filter]. destruct (anomaly r) as [[|]|], a as [[|]|];
    cbn [length]; rewrite ?IH; reflexivity.
Qed.

Lemma list_sum_head x l : list_sum (x :: l) = (x + list_sum l)%nat.
Proof. reflexivity. Qed.

Lemma count_label_flat_map {A} a (g : A -> list (option anomaly_label)) l :
  count_label a (flat_map g l) = list_sum (map (fun x => count_label a (g x)) l).
Proof.
  unfold count_label. induction l as [|x l IH]; [reflexivity|].
  cbn [flat_map map]. rewrite list_sum_head, filter_app, length_app. now rewrite IH.
Qed.

Lemma count_label_repeat a b n :
  count_label a (repeat b n) =
  if (match b, a with
      | None, None => true
      | Some Repeated_transition, Some Repeated_transition => true
      | Some Missing_transition, Some Missing_transition => true
      | _, _ => false
      end) then n else 0%nat.
Proof.
  unfold count_label. induction n as [|n IH].
  - cbn. now destruct (match b, a with None, None => true | _, _ => _ end).
  - cbn [repeat filter].
    destruct (match b, a with None, None => true | _, _ => _ end);
      cbn [length]; now rewrite IH.
Qed.

Lemma rescale_length s i scaled :
  rescale s i = Ok scaled -> length scaled = length s.
Proof.
  unfold rescale. destruct (interval s); [|discriminate]. cbn [bind].
  intros H. assert (E : scaled = map (fun x =>
      fadd (fmul (fdiv (fsub x (left a)) (Interval_length a))
                 (Interval_length i)) (left i)) s) by congruence.
  rewrite E. apply length_map.
Qed.

(** A key that is the timestamp of a reference transition is the
    timestamp of just one, when they increase. *)
Lemma one_reference_per_key refs k :
  increasing refs ->
  (exists r, In r refs /\ same k (timestamp_seconds r) = true) ->
  list_sum (map (fun r => if same k (timestamp_seconds r) then 1 else 0)%nat
                refs) = 1%nat.
Proof.
  intros Hs. induction Hs as [|r0 refs Hs IH Hall]; intros (r & Hr & Hk);
    [destruct Hr|].
  cbn [map]; rewrite ?list_sum_head. rewrite Forall_forall in Hall.
  destruct (same k (timestamp_seconds r0)) eqn:E.
  - assert (Hz : list_sum (map (fun r => if same k (timestamp_seconds r)
                                         then 1 else 0)%nat refs) = 0%nat).
    { clear IH Hr Hk r. induction refs as [|r1 refs IH1]; [reflexivity|].
      cbn [map]; rewrite ?list_sum_head.
      assert (E1 : same k (timestamp_seconds r1) = false).
      { destruct (same k (timestamp_seconds r1)) eqn:E1; [|reflexivity].
        rewrite same_sym in E.
        pose proof (same_trans _ _ _ E E1) as H.
        rewrite (flt_not_same _ _ (Hall r1 (or_introl eq_refl))) in H.
        discriminate. }
      rewrite E1. apply IH1.
      - now apply StronglySorted_inv in Hs.
      - intros y Hy. apply Hall. now right. }
    rewrite Hz. reflexivity.
  - destruct Hr as [<-|Hr]; [congruence|].
    rewrite IH by eauto. reflexivity.
Qed.

(** Every row of the nearest-neighbour merge is matched to one reference
    transition: the matches add up to the rows. *)
Lemma detections_add_up refs asof :
  increasing refs ->
  (forall a, In a asof ->
     exists r, In r refs /\
               same (asof_reference_timestamp_seconds a)
                    (timestamp_seconds r) = true) ->
  list_sum (map (detections asof) refs) = length asof.
Proof.
  intros Hs. induction asof as [|a asof IH]; intros Hkeys.
  - clear Hs Hkeys. induction refs as [|r refs IHrefs]; [reflexivity|].
    cbn [map]. rewrite list_sum_head, IHrefs. reflexivity.
  - assert (E : forall l,
      list_sum (map (detections (a :: asof)) l) =
      (list_sum (map (fun r => if same (asof_reference_timestamp_seconds a)
                                       (timestamp_seconds r)
                               then 1 else 0) l)
       + list_sum (map (detections asof) l))%nat).
    { induction l as [|r l IHl]; [reflexivity|].
      cbn [map]; rewrite ?list_sum_head. rewrite IHl.
      unfold detections, matched. cbn [filter].
      destruct (same _ _); cbn [length]; lia. }
    rewrite E, IH, one_reference_per_key.
    + reflexivity.
    + exact Hs.
    + apply Hkeys. now left.
    + intros a' Ha'. apply Hkeys. now right.
Qed.

Lemma asof_keys_are_references scaled stdin refs asof :
  refs <> [] ->
  merge_asof scaled stdin (map timestamp_seconds refs) = Ok asof ->
  forall a, In a asof ->
    exists r, In r refs /\
              same (asof_reference_timestamp_seconds a)
                   (timestamp_seconds r) = true.
Proof.
  intros Hne Hm a Ha.
  pose proof (right_only_empty _ _ _ _ Hne Hm) as Hro.
  unfold right_only in Hro.
  apply map_eq_nil in Hro.
  destruct (existsb (fun r => same (asof_reference_timestamp_seconds a)
                                   (timestamp_seconds r)) refs) eqn:E.
  - apply existsb_exists in E. exact E.
  - assert (Hin : In a (filter (fun a =>
        negb (existsb (fun r => same (asof_reference_timestamp_seconds a)
                                     (timestamp_seconds r)) refs)) asof))
      by (apply filter_In; split; [exact Ha | now rewrite E]).
    rewrite Hro in Hin. destruct Hin.
Qed.

End RowCount.

Section RowAccounting.
Import Report.

Lemma map_flat_map_comm {A B C} (f : B -> C) (g : A -> list B) l :
  map f (flat_map g l) = flat_map (fun x => map f (g x)) l.
Proof.
  induction l as [|x l IH]; [reflexivity|].
  cbn [flat_map]. now rewrite map_app, IH.
Qed.

Lemma flat_map_ext_in {A B} (f g : A -> list B) l :
  (forall x, In x l -> f x = g x) -> flat_map f l = flat_map g l.
Proof.
  induction l as [|x l IH]; [reflexivity|]. intros H. cbn [flat_map].
  rewrite (H x (or_introl eq_refl)), IH; [reflexivity|].
  intros y Hy. apply H. now right.
Qed.

Lemma list_sum_ext_in {A} (f g : A -> nat) l :
  (forall x, In x l -> f x = g x) ->
  list_sum (map f l) = list_sum (map g l).
Proof.
  induction l as [|x l IH]; [reflexivity|]. intros H. cbn [map].
  rewrite !list_sum_head, (H x (or_introl eq_refl)), IH; [reflexivity|].
  intros y Hy. apply H. now right.
Qed.

Lemma list_sum_add {A} (f g : A -> nat) l :
  (list_sum (map f l) + list_sum (map g l))%nat
  = list_sum (map (fun x => f x + g x)%nat l).
Proof.
  induction l as [|x l IH]; [reflexivity|]. cbn [map].
  rewrite !list_sum_head, <- IH. lia.
Qed.

Lemma list_sum_ge {A} (f : A -> nat) l :
  (forall x, In x l -> 1 <= f x)%nat -> (length l <= list_sum (map f l))%nat.
Proof.
  induction l as [|x l IH]; [cbn; lia|]. intros H. cbn [map length].
  rewrite list_sum_head.
  pose proof (H x (or_introl eq_refl)).
  assert (length l <= list_sum (map f l))%nat
    by (apply IH; intros y Hy; apply H; now right).
  lia.
Qed.

Lemma count_label_total l :
  length l = (count_label None l
              + count_label (Some Repeated_transition) l
              + count_label (Some Missing_transition) l)%nat.
Proof.
  unfold count_label. induction l as [|[[|]|] l IH]; cbn [filter length];
    lia.
Qed.

(** The anomaly column of the table before the corrections, cut into the
    groups of the reference transitions. *)
Lemma anomalies_by_reference refs asof t :
  increasing refs ->
  right_only refs asof = [] ->
  add_columns (outer_merge refs asof) = Ok t ->
  map anomaly t = flat_map (fun r => map anomaly (rows_at r t)) refs.
Proof.
  intros Hs Hro Hadd.
  destruct (add_columns_rows _ _ Hadd) as [g Ht].
  rewrite Ht at 1. unfold outer_merge at 2. rewrite Hro, app_nil_r.
  rewrite !map_flat_map_comm. apply flat_map_ext_in. intros r Hr.
  destruct (rows_at_reference _ _ _ _ Hs Hr Hro Hadd) as (g' & Hrows & _).
  cbn zeta in Hrows. rewrite Hrows, !map_map. reflexivity.
Qed.

End RowAccounting.

(** The anomalies of the final table, counted per reference transition;
    the matches add up to the rows of the recording analysis. *)
Lemma row_counts
      (compensate_clock_skew : bool) (spec : Report.Spec)
      (stdin : list Report.RecordedTransition) (out : Report.Output) :
  (0 < Report.fps_num spec)%Z -> (0 < Report.fps_den spec)%Z ->
  Report.generate_report compensate_clock_skew spec stdin = Ok out ->
  exists refs asof,
    Report.reference_transitions spec = Ok refs /\
    list_sum (map (detections asof) refs) = length stdin /\
    forall a,
      count_anomaly a (Report.transitions out)
      = list_sum (map (fun r => count_label a
                                  (labels_of_group (detections asof r)))
                      refs).
Proof.
  intros Hnum Hden Hrun.
  destruct (generate_report_stages _ _ _ _ Hrun)
    as (refs & ri & scaled & asof & t & p &
        Hrefs & Hri & Hscaled & Hasof & Hadd & _ & Hout).
  pose proof (merged_rows_have_timestamps _ _ _ _ _ Hscaled Hasof) as Hrec.
  destruct (reference_transitions_increasing_finite _ _ Hnum Hden Hrefs)
    as [Hinc _].
  pose proof (interval_nonempty _ _ _ Hri) as Hne.
  pose proof (right_only_empty _ _ _ _ Hne Hasof) as Hro.
  destruct (anomalies_of_merge refs scaled stdin asof t
              Hinc Hne Hrec Hasof Hadd) as [_ Hcases].
  destruct (corrections_keep_anomaly p t) as (f & Hf & Hmap).
  exists refs, asof. split; [exact Hrefs|]. split.
  - assert (Hlen : length asof = length stdin).
    { pose proof (rescale_length _ _ _ Hscaled) as Hl.
      rewrite length_map in Hl.
      pose proof Hasof as Hasof'.
      apply merge_asof_rows in Hasof' as (_ & _ & ->).
      rewrite length_map, length_combine. lia. }
    rewrite <- Hlen. apply detections_add_up; [exact Hinc|].
    eapply asof_keys_are_references; eauto.
  - intros a. rewrite Hout, Hmap, count_anomaly_label, anomaly_map by exact Hf.
    rewrite (anomalies_by_reference _ _ _ Hinc Hro Hadd).
    rewrite count_label_flat_map. apply list_sum_ext_in. intros r Hr.
    f_equal. generalize (proj2 (Hcases r Hr)). unfold labels_of_group.
    destruct (detections asof r) as [|[|k]]; intros H; exact H.
Qed.

Lemma counts_of_labels k :
  (count_label None (labels_of_group k)
   + count_label (Some Report.Repeated_transition) (labels_of_group k)
   = k)%nat /\
  count_label (Some Report.Missing_transition) (labels_of_group k)
  = (if Nat.eqb k 0 then 1 else 0)%nat /\
  count_label (Some Report.Repeated_transition) (labels_of_group k)
  = (if Nat.ltb 1 k then k else 0)%nat.
Proof.
  destruct k as [|[|k]].
  - repeat split.
  - repeat split.
  - unfold labels_of_group. rewrite !count_label_repeat.
    repeat split.
Qed.

(** X6.  Row accounting of the aligned table.  In the table of a
    successful run on a spec with a positive frame rate, the rows that are
    normal or "repeated" are as many as the rows of the recording analysis
    (each recorded transition appears once), the table has one more row for
    every "missing" transition, and it has at least one row for every
    reference transition. *)
Theorem every_recorded_transition_has_one_row
        (compensate_clock_skew : bool) (spec : Report.Spec)
        (stdin : list Report.RecordedTransition) (out : Report.Output) :
  (0 < Report.fps_num spec)%Z -> (0 < Report.fps_den spec)%Z ->
  Report.generate_report compensate_clock_skew spec stdin = Ok out ->
  (count_anomaly None (Report.transitions out)
   + count_anomaly (Some Report.Repeated_transition) (Report.transitions out)
   = length stdin)%nat /\
  length (Report.transitions out)
  = (length stdin
     + count_anomaly (Some Report.Missing_transition)
                     (Report.transitions out))%nat /\
  exists refs,
    Report.reference_transitions spec = Ok refs /\
    (length refs <= length (Report.transitions out))%nat /\
    (count_anomaly (Some Report.Missing_transition) (Report.transitions out)
     <= length refs)%nat.
Proof.
  intros Hnum Hden Hrun.
  destruct (row_counts _ _ _ _ Hnum Hden Hrun)
    as (refs & asof & Hrefs & Hdet & Hcount).
  assert (Hsum : (count_anomaly None (Report.transitions out)
     + count_anomaly (Some Report.Repeated_transition)
                     (Report.transitions out) = length stdin)%nat).
  { rewrite !Hcount, list_sum_add, <- Hdet.
    apply list_sum_ext_in. intros r _. apply counts_of_labels. }
  assert (Htotal : length (Report.transitions out)
    = (count_anomaly None (Report.transitions out)
       + count_anomaly (Some Report.Repeated_transition)
                       (Report.transitions out)
       + count_anomaly (Some Report.Missing_transition)
                       (Report.transitions out))%nat).
  { rewrite !count_anomaly_label, <- count_label_total.
    symmetry. apply length_map. }
  split; [exact Hsum|]. split; [lia|].
  exists refs. split; [exact Hrefs|].
  assert (Hmiss : (count_anomaly (Some Report.Missing_transition)
                     (Report.transitions out) <= length refs)%nat).
  { rewrite Hcount. clear. induction refs as [|r refs IH]; [cbn; lia|].
    cbn [map length]. rewrite list_sum_head.
    rewrite (proj1 (proj2 (counts_of_labels (detections asof r)))).
    destruct (Nat.eqb (detections asof r) 0); lia. }
  split; [|exact Hmiss].
  rewrite Htotal, <- Nat.add_assoc, !Hcount, !list_sum_add.
  apply list_sum_ge. intros r _.
  destruct (counts_of_labels (detections asof r)) as (H1 & H2 & _).
  destruct (Nat.eqb (detections asof r) 0) eqn:E.
  - lia.
  - apply Nat.eqb_neq in E. lia.
Qed.

(** ** Timestamps that are not finite numbers *)

Section NonFinite.
Import Report.

Lemma fold_fmax2_PInf l : fold_left Series.fmax2 l PInf = PInf.
Proof.
  induction l as [|b l IH]; [reflexivity|]. cbn [fold_left].
  destruct b; exact IH.
Qed.

Lemma fold_fmin2_NInf l : fold_left Series.fmin2 l NInf = NInf.
Proof.
  induction l as [|b l IH]; [reflexivity|]. cbn [fold_left].
  destruct b; exact IH.
Qed.

Lemma fold_fmax2_reaches_PInf l a :
  isna a = false -> (forall x, In x l -> isna x = false) -> In PInf l ->
  fold_left Series.fmax2 l a = PInf.
Proof.
  revert a. induction l as [|b l IH]; intros a Ha Hl Hin; [destruct Hin|].
  cbn [fold_left]. destruct Hin as [->|Hin].
  - replace (Series.fmax2 a PInf) with PInf
      by (destruct a; [reflexivity | reflexivity | reflexivity | discriminate]).
    apply fold_fmax2_PInf.
  - apply IH; [|intros x Hx; apply Hl; now right | exact Hin].
    pose proof (Hl b (or_introl eq_refl)) as Hb.
    unfold Series.fmax2. now destruct (fle a b).
Qed.

Lemma fold_fmin2_reaches_NInf l a :
  isna a = false -> (forall x, In x l -> isna x = false) -> In NInf l ->
  fold_left Series.fmin2 l a = NInf.
Proof.
  revert a. induction l as [|b l IH]; intros a Ha Hl Hin; [destruct Hin|].
  cbn [fold_left]. destruct Hin as [->|Hin].
  - replace (Series.fmin2 a NInf) with NInf
      by (destruct a; [reflexivity | reflexivity | reflexivity | discriminate]).
    apply fold_fmin2_NInf.
  - apply IH; [|intros x Hx; apply Hl; now right | exact Hin].
    pose proof (Hl b (or_introl eq_refl)) as Hb.
    unfold Series.fmin2. now destruct (fle b a).
Qed.

Lemma dropna_no_nan s x : In x (Series.dropna s) -> isna x = false.
Proof.
  unfold Series.dropna. intros H. apply filter_In in H as [_ H].
  now apply negb_true_iff in H.
Qed.

Lemma max_PInf s : In PInf s -> Series.max s = PInf.
Proof.
  intros H. unfold Series.max.
  assert (Hd : In PInf (Series.dropna s))
    by (apply filter_In; split; [exact H | reflexivity]).
  pose proof (dropna_no_nan s) as Hn.
  destruct (Series.dropna s) as [|a l]; [destruct Hd|].
  destruct Hd as [->|Hd]; [apply fold_fmax2_PInf|].
  apply fold_fmax2_reaches_PInf; [|intros x Hx|exact Hd].
  - apply Hn. now left.
  - apply Hn. now right.
Qed.

Lemma min_NInf s : In NInf s -> Series.min s = NInf.
Proof.
  intros H. unfold Series.min.
  assert (Hd : In NInf (Series.dropna s))
    by (apply filter_In; split; [exact H | reflexivity]).
  pose proof (dropna_no_nan s) as Hn.
  destruct (Series.dropna s) as [|a l]; [destruct Hd|].
  destruct Hd as [->|Hd]; [apply fold_fmin2_NInf|].
  apply fold_fmin2_reaches_NInf; [|intros x Hx|exact Hd].
  - apply Hn. now left.
  - apply Hn. now right.
Qed.

Lemma interval_ends s i :
  interval s = Ok i -> left i = Series.min s /\ right i = Series.max s.
Proof.
  unfold interval, pd_Interval.
  destruct (fle (Series.min s) (Series.max s)); [|discriminate].
  intros H. assert (E : i = mkInterval (Series.min s) (Series.max s))
    by congruence.
  rewrite E. split; reflexivity.
Qed.

(** An infinite or missing timestamp is rescaled to NaN, whatever the
    target interval: inf - inf and inf / inf are NaN. *)
Lemma rescale_not_finite s target scaled x :
  rescale s target = Ok scaled -> In x s -> is_finite x = false ->
  In NaN scaled.
Proof.
  unfold rescale. destruct (interval s) as [oi|] eqn:Hi; [|discriminate].
  cbn [bind]. intros H Hx Hfin.
  assert (E : scaled = map (fun x =>
      fadd (fmul (fdiv (fsub x (left oi)) (Interval_length oi))
                 (Interval_length target)) (left target)) s) by congruence.
  rewrite E. apply in_map_iff. exists x. split; [|exact Hx].
  destruct (interval_ends _ _ Hi) as [Hl Hr]. unfold Interval_length.
  destruct x as [q| | |]; [discriminate| | |].
  - rewrite Hr, (max_PInf _ Hx). now destruct (left oi).
  - rewrite Hl, (min_NInf _ Hx). reflexivity.
  - reflexivity.
Qed.

(** The merge accepts the recording analysis only when every timestamp
    is a finite number. *)
Lemma merged_rows_are_finite stdin ri scaled rs asof :
  rescale (map csv_recording_timestamp_seconds stdin) ri = Ok scaled ->
  merge_asof scaled stdin rs = Ok asof ->
  forall x, In x stdin ->
            is_finite (csv_recording_timestamp_seconds x) = true.
Proof.
  intros Hs Hm x Hx.
  destruct (is_finite (csv_recording_timestamp_seconds x)) eqn:E;
    [reflexivity|]. exfalso.
  apply merge_asof_rows in Hm as (Hmono & _ & _).
  assert (Hin : In NaN scaled).
  { eapply rescale_not_finite; [exact Hs | | exact E].
    now apply in_map. }
  pose proof (monotonic_no_nan _ Hmono _ Hin) as H. discriminate.
Qed.

End NonFinite.

(** X7.  A run that produces a table was given finite timestamps only: a
    recording analysis with a missing (NaN) or infinite
    [recording_timestamp_seconds] makes the run fail. *)
Theorem successful_run_has_finite_timestamps
        (compensate_clock_skew : bool) (spec : Report.Spec)
        (stdin : list Report.RecordedTransition) (out : Report.Output) :
  Report.generate_report compensate_clock_skew spec stdin = Ok out ->
  forall x, In x stdin ->
            is_finite (Report.csv_recording_timestamp_seconds x) = true.
Proof.
  intros Hrun.
  destruct (generate_report_stages _ _ _ _ Hrun)
    as (refs & ri & scaled & asof & t & p &
        _ & _ & Hscaled & Hasof & _).
  exact (merged_rows_are_finite _ _ _ _ _ Hscaled Hasof).
Qed.

(** ** The regression and its residuals *)

Section Residuals.
Import Report.

Lemma finite_values_Some s qs :
  Numpy.finite_values s = Some qs -> s = map Fin qs.
Proof.
  revert qs. induction s as [|x s IH]; intros qs H.
  - cbn in H. assert (qs = []) by congruence. now subst.
  - destruct x as [q| | |]; try discriminate. cbn [Numpy.finite_values] in H.
    destruct (Numpy.finite_values s) as [l|]; [|discriminate].
    cbn [option_map] in H. assert (qs = q :: l) by congruence. subst qs.
    cbn [map]. now rewrite (IH l eq_refl).
Qed.

(** What [fit] returns, when it returns. *)
Lemma fit_Ok x y deg p :
  Numpy.fit x y deg = Ok p ->
  exists x0 xs ys,
    x = map Fin (x0 :: xs) /\ y = map Fin ys /\
    length (x0 :: xs) = length ys /\
    let os := Numpy.mapparms (Numpy.domain x0 xs) in
    p = Numpy.mkPoly
          (map fin (Numpy.lstsq deg
                      (map (fun v => fst os + snd os * v) (x0 :: xs)) ys))
          (fin (fst os)) (fin (snd os)).
Proof.
  unfold Numpy.fit. destruct x as [|a x]; [discriminate|].
  destruct (Nat.eqb (length (a :: x)) (length y)) eqn:El; [|discriminate].
  cbn [negb].
  destruct (Numpy.finite_values (a :: x)) as [[|x0 xs]|] eqn:Ex;
    try discriminate.
  destruct (Numpy.finite_values y) as [ys|] eqn:Ey; [|discriminate].
  intros H. exists x0, xs, ys.
  apply finite_values_Some in Ex. apply finite_values_Some in Ey.
  apply Nat.eqb_eq in El.
  split; [exact Ex|]. split; [exact Ey|]. split.
  - rewrite Ex, Ey, !length_map in El. exact El.
  - cbn zeta. congruence.
Qed.

(** The value of a fitted polynomial at a finite point: [c0] in degree 0,
    [c0 + c1 * (off + scl * x)] in degree 1. *)
Lemma call_constant c0 o s x :
  exists v, Numpy.call (Numpy.mkPoly [fin c0] (fin o) (fin s)) (Fin x) = Fin v
            /\ v == c0.
Proof.
  unfold Numpy.call, Numpy.polyval, fin.
  cbn [Numpy.coef Numpy.off Numpy.scl rev app fold_left fmul fadd fin].
  unfold fin. eexists. split; [reflexivity|].
  rewrite !Qred_correct. ring.
Qed.

Lemma call_linear c0 c1 o s x :
  exists v,
    Numpy.call (Numpy.mkPoly [fin c0; fin c1] (fin o) (fin s)) (Fin x) = Fin v
    /\ v == c0 + c1 * (o + s * x).
Proof.
  unfold Numpy.call, Numpy.polyval, fin.
  cbn [Numpy.coef Numpy.off Numpy.scl rev app fold_left fmul fadd fin].
  unfold fin. eexists. split; [reflexivity|].
  rewrite !Qred_correct. ring.
Qed.

Lemma Qsum_cons q l : Numpy.Qsum (q :: l) = q + Numpy.Qsum l.
Proof. reflexivity. Qed.

(** The residuals of a line [c0 + c1 * u] add up to
    [sum y - n * c0 - c1 * sum u]. *)
Lemma Qsum_residuals (P : Q -> Q) (c0 c1 : Q) (u : Q -> Q) :
  (forall x, P x == c0 + c1 * u x) ->
  forall xs ys, length xs = length ys ->
    Numpy.Qsum (map (fun pr => Qred (snd pr - P (fst pr))) (combine xs ys))
    == Numpy.Qsum ys - inject_Z (Z.of_nat (length ys)) * c0
       - c1 * Numpy.Qsum (map u xs).
Proof.
  intros HP. induction xs as [|x xs IH]; intros [|y ys] Hl;
    try discriminate.
  - cbn. ring.
  - cbn [combine map length fst snd].
    rewrite !Qsum_cons, IH by (cbn in Hl; lia).
    rewrite Qred_correct, HP, Nat2Z.inj_succ. unfold Z.succ.
    rewrite inject_Z_plus. ring.
Qed.

Lemma Qmean_times_length l :
  l <> [] -> inject_Z (Z.of_nat (length l)) * Numpy.Qmean l == Numpy.Qsum l.
Proof.
  intros Hne. unfold Numpy.Qmean. field.
  apply count_nonzero. destruct l; [congruence | cbn; lia].
Qed.

(** Least squares: the fitted polynomial has a finite value at every
    finite point, and its residuals add up to 0. *)
Lemma lstsq_residuals deg (o s : Q) x0 xs ys :
  length (x0 :: xs) = length ys ->
  let p := Numpy.mkPoly
             (map fin (Numpy.lstsq deg
                         (map (fun v => o + s * v) (x0 :: xs)) ys))
             (fin o) (fin s) in
  (forall x, Numpy.call p (Fin x) = Fin (finite_part (Numpy.call p (Fin x))))
  /\ Numpy.Qsum (map (fun pr =>
                        Qred (snd pr
                              - finite_part (Numpy.call p (Fin (fst pr)))))
                     (combine (x0 :: xs) ys)) == 0.
Proof.
  intros Hl. cbn zeta.
  assert (Hy : ys <> []) by (intros ->; discriminate).
  set (us := map (fun v => o + s * v) (x0 :: xs)).
  assert (Hu : us <> []) by discriminate.
  assert (Hlu : length us = length ys)
    by (unfold us; rewrite length_map; exact Hl).
  assert (Key : forall (P : Q -> Q) (c0 c1 : Q),
    c0 + c1 * Numpy.Qmean us == Numpy.Qmean ys ->
    (forall x, P x == c0 + c1 * (o + s * x)) ->
    Numpy.Qsum (map (fun pr => Qred (snd pr - P (fst pr)))
                    (combine (x0 :: xs) ys)) == 0).
  { intros P c0 c1 Hc HP.
    rewrite (Qsum_residuals P c0 c1 (fun v => o + s * v) HP _ _ Hl).
    fold us. rewrite <- (Qmean_times_length ys Hy).
    rewrite <- (Qmean_times_length us Hu), Hlu, <- Hc. ring. }
  destruct deg; cbn [Numpy.lstsq]; fold us.
  - cbn [map]. set (p := Numpy.mkPoly _ _ _). split.
    + intros x. unfold p.
      destruct (call_constant (Numpy.Qmean ys) o s x) as (v & -> & _).
      reflexivity.
    + apply (Key (fun x => finite_part (Numpy.call p (Fin x))) (Numpy.Qmean ys) 0); [ring|]. intros x. cbn beta. unfold p. unfold p.
      destruct (call_constant (Numpy.Qmean ys) o s x) as (v & -> & Hv).
      cbn [finite_part]. rewrite Hv. ring.
  - set (suu := Numpy.Qsum (map (fun u => (u - Numpy.Qmean us)
                                          * (u - Numpy.Qmean us)) us)).
    set (suy := Numpy.Qsum (map (fun p => (fst p - Numpy.Qmean us)
                                          * (snd p - Numpy.Qmean ys))
                                (combine us ys))).
    destruct (Qeq_bool suu 0); cbn [map]; set (p := Numpy.mkPoly _ _ _).
    + split.
      * intros x. unfold p.
        destruct (call_linear (Numpy.Qmean ys) 0 o s x) as (v & -> & _).
        reflexivity.
      * apply (Key (fun x => finite_part (Numpy.call p (Fin x))) (Numpy.Qmean ys) 0); [ring|]. intros x. cbn beta. unfold p. unfold p.
        destruct (call_linear (Numpy.Qmean ys) 0 o s x) as (v & -> & Hv).
        cbn [finite_part]. exact Hv.
    + split.
      * intros x. unfold p.
        destruct (call_linear (Numpy.Qmean ys - suy / suu * Numpy.Qmean us)
                              (suy / suu) o s x) as (v & -> & _).
        reflexivity.
      * apply (Key (fun x => finite_part (Numpy.call p (Fin x))) (Numpy.Qmean ys - suy / suu * Numpy.Qmean us)
                   (suy / suu)); [ring|]. intros x. cbn beta. unfold p. unfold p.
        destruct (call_linear (Numpy.Qmean ys - suy / suu * Numpy.Qmean us)
                              (suy / suu) o s x) as (v & -> & Hv).
        cbn [finite_part]. exact Hv.
Qed.




End Residuals.


(** ** Where the error column is defined *)

Section ErrorColumn.
Import Report.

Lemma all_finite_map_Fin s : all_finite s -> exists qs, s = map Fin qs.
Proof.
  induction s as [|x s IH]; intros H; [exists []; reflexivity|].
  destruct IH as [qs ->]; [intros y Hy; apply H; now right|].
  pose proof (H x (or_introl eq_refl)) as Hx.
  destruct x as [q| | |]; try discriminate.
  exists (q :: qs). reflexivity.
Qed.

Lemma mean_all_finite s :
  s <> [] -> all_finite s -> is_finite (Series.mean s) = true.
Proof.
  intros Hne Hfin. destruct (all_finite_map_Fin s Hfin) as [qs ->].
  destruct (mean_Fin qs) as (t & _ & ->); [|reflexivity].
  intros ->. now apply Hne.
Qed.

Lemma fitted_call_finite compensate t p :
  linear_regression compensate t = Ok p ->
  forall x, is_finite (Numpy.call p (Fin x)) = true.
Proof.
  unfold linear_regression. intros H x.
  apply fit_Ok in H as (x0 & xs & ys & _ & _ & Hl & Hp). cbn zeta in Hp.
  destruct (lstsq_residuals (fit_degree compensate)
              (fst (Numpy.mapparms (Numpy.domain x0 xs)))
              (snd (Numpy.mapparms (Numpy.domain x0 xs)))
              x0 xs ys Hl) as [Hfin _].
  rewrite <- Hp in Hfin. rewrite Hfin. reflexivity.
Qed.

(** The rows the merge makes: reference columns with NaN recording
    columns, or the columns of a recorded row. *)
Lemma merged_rows_well_formed refs scaled stdin asof t :
  all_finite (map timestamp_seconds refs) ->
  (forall x, In x stdin ->
             is_finite (csv_recording_timestamp_seconds x) = true) ->
  refs <> [] ->
  merge_asof scaled stdin (map timestamp_seconds refs) = Ok asof ->
  add_columns (outer_merge refs asof) = Ok t ->
  forall row, In row t -> well_formed_row row.
Proof.
  intros Hrefs Hrec Hne Hasof Hadd row Hrow.
  pose proof (right_only_empty _ _ _ _ Hne Hasof) as Hro.
  destruct (add_columns_rows _ _ Hadd) as [g Ht].
  rewrite Ht in Hrow. apply in_map_iff in Hrow as (m & <- & Hm).
  unfold outer_merge in Hm. rewrite Hro, app_nil_r in Hm.
  apply in_flat_map in Hm as (r & Hr & Hm).
  assert (Hts : is_finite (timestamp_seconds r) = true)
    by (apply Hrefs; now apply in_map).
  unfold rows_of_reference in Hm. unfold well_formed_row.
  destruct (matched asof (timestamp_seconds r)) as [|a0 ms] eqn:Hmatch.
  - destruct Hm as [<-|[]].
    cbn [row_of frame recording_timestamp_seconds error_seconds m_frame
         m_recording_timestamp_seconds m_reference_timestamp_seconds].
    split; reflexivity.
  - apply in_map_iff in Hm as (a & <- & Ha).
    cbn [row_of frame recording_timestamp_seconds error_seconds m_frame
         m_recording_timestamp_seconds m_reference_timestamp_seconds].
    assert (Hin : In a asof).
    { assert (H : In a (matched asof (timestamp_seconds r)))
        by (rewrite Hmatch; exact Ha).
      apply filter_In in H. tauto. }
    apply merge_asof_rows in Hasof as (_ & _ & ->).
    apply in_map_iff in Hin as ([x c] & <- & Hp).
    apply in_combine_r in Hp.
    cbn [asof_recording_timestamp_seconds snd].
    pose proof (Hrec c Hp) as Hc.
    destruct (csv_recording_timestamp_seconds c); try discriminate.
    destruct (timestamp_seconds r); try discriminate.
    split; reflexivity.
Qed.

Lemma subtract_regression_well_formed compensate t p :
  linear_regression compensate t = Ok p ->
  (forall row, In row t -> well_formed_row row) ->
  forall row, In row (subtract_regression p t) -> well_formed_row row.
Proof.
  intros Hp Ht row Hrow. unfold subtract_regression in Hrow.
  apply in_map_iff in Hrow as (r & <- & Hr). specialize (Ht r Hr).
  unfold well_formed_row in *.
  cbn [set_error_seconds frame recording_timestamp_seconds error_seconds].
  destruct (frame r).
  - destruct Ht as [H1 H2]. split; [exact H1|].
    destruct (recording_timestamp_seconds r) as [x| | |]; try discriminate.
    pose proof (fitted_call_finite _ _ _ Hp x) as Hc.
    destruct (Numpy.call p (Fin x)); try discriminate.
    destruct (error_seconds r); try discriminate. reflexivity.
  - destruct Ht as [H1 H2]. split; [exact H1|]. rewrite H2. reflexivity.
Qed.

(** The offset of a label that some row has is a finite number. *)
Lemma offset_finite label t r :
  (forall row, In row t -> well_formed_row row) ->
  In r t -> frame_is label r = true ->
  is_finite (offset_of label t) = true.
Proof.
  intros Ht Hr Hl. unfold offset_of. apply mean_all_finite.
  - intros E. apply map_eq_nil in E.
    assert (Hin : In r (filter (frame_is label) t))
      by (apply filter_In; split; assumption).
    rewrite E in Hin. destruct Hin.
  - intros x Hx. apply in_map_iff in Hx as (r' & <- & Hr').
    apply filter_In in Hr' as [Hr' Hl'].
    specialize (Ht r' Hr'). unfold well_formed_row in Ht.
    unfold frame_is in Hl'. destruct (frame r'); [tauto | discriminate].
Qed.

Lemma remove_offsets_well_formed t :
  (forall row, In row t -> well_formed_row row) ->
  forall row, In row (remove_offsets t) -> well_formed_row row.
Proof.
  intros Ht row Hrow.
  unfold remove_offsets, subtract_offset in Hrow. rewrite map_map in Hrow.
  apply in_map_iff in Hrow as (r & <- & Hr).
  pose proof (Ht r Hr) as Hwf.
  assert (Hsub : forall label,
    frame_is label r = true ->
    well_formed_row
      (set_error_seconds (fsub (error_seconds r) (offset_of label t)) r)).
  { intros label Hl.
    pose proof (offset_finite label t r Ht Hr Hl) as Ho.
    unfold well_formed_row in *.
    cbn [set_error_seconds frame recording_timestamp_seconds error_seconds].
    unfold frame_is in Hl. destruct (frame r); [|discriminate].
    destruct Hwf as [H1 H2]. split; [exact H1|].
    destruct (error_seconds r); try discriminate.
    destruct (offset_of label t); try discriminate. reflexivity. }
  destruct (frame_is "BLACK" r) eqn:Eb.
  - rewrite frame_is_set_error.
    rewrite (frame_is_exclusive "BLACK" "WHITE" r) by (discriminate || exact Eb).
    now apply Hsub.
  - destruct (frame_is "WHITE" r) eqn:Ew; [now apply Hsub | exact Hwf].
Qed.

End ErrorColumn.

(** X9.  The error column of the final table is defined exactly where
    there is a recording.  In the table of a successful run on a spec with
    a positive frame rate, a row made for a reference transition without a
    recorded match has no frame, no recording timestamp and NaN as its
    error, also after the regression and the offsets are subtracted; every
    other row has a finite recording timestamp and a finite error. *)
Theorem error_is_defined_where_recorded
        (compensate_clock_skew : bool) (spec : Report.Spec)
        (stdin : list Report.RecordedTransition) (out : Report.Output) :
  (0 < Report.fps_num spec)%Z -> (0 < Report.fps_den spec)%Z ->
  Report.generate_report compensate_clock_skew spec stdin = Ok out ->
  forall row, In row (Report.transitions out) -> well_formed_row row.
Proof.
  intros Hnum Hden Hrun.
  destruct (generate_report_stages _ _ _ _ Hrun)
    as (refs & ri & scaled & asof & t & p &
        Hrefs & Hri & Hscaled & Hasof & Hadd & Hp & Hout).
  destruct (reference_transitions_increasing_finite _ _ Hnum Hden Hrefs)
    as [_ Hfin].
  pose proof (interval_nonempty _ _ _ Hri) as Hne.
  pose proof (merged_rows_are_finite _ _ _ _ _ Hscaled Hasof) as Hrec.
  rewrite Hout. apply remove_offsets_well_formed.
  apply (subtract_regression_well_formed _ _ _ Hp).
  exact (merged_rows_well_formed _ _ _ _ _ Hfin Hrec Hne Hasof Hadd).
Qed.

(** ** The synthesizer: rendering *)

Section Rendering.
Import FakeRecording.
Context {lib : Library}.

Lemma sgn_Qred q : Z.sgn (Qnum (Qred q)) = Z.sgn (Qnum q).
Proof.
  pose proof (Qred_correct q) as H. unfold Qeq in H.
  destruct (Qred q) as [n d], q as [n' d']. cbn [Qnum Qden] in *.
  destruct n, n'; cbn in *; try reflexivity; lia.
Qed.

Lemma sgn_fin q : sgn (fin q) = Z.sgn (Qnum q).
Proof. unfold fin. cbn [sgn]. apply sgn_Qred. Qed.

Lemma inf_of_sign_opp z : inf_of_sign (- z) = fneg (inf_of_sign z).
Proof. destruct z; reflexivity. Qed.

(** Multiplying by [-1 * a] is negating the product by [1 * a]. *)
Lemma fmul_inverted x a :
  fmul x (fmul (Fin (-1)) a) = fneg (fmul x (fmul (Fin 1) a)).
Proof.
  destruct a as [q| | |].
  - cbn [fmul]. destruct x as [v| | |].
    + unfold fin. cbn [fmul]. unfold fin. cbn [fneg]. unfold fin. f_equal.
      apply Qred_complete. rewrite !Qred_correct. ring.
    + unfold fmul. rewrite !sgn_fin. cbn [sgn fin].
      rewrite <- inf_of_sign_opp. f_equal.
      destruct q as [n d]. cbn. destruct n; reflexivity.
    + unfold fmul. rewrite !sgn_fin. cbn [sgn fin].
      rewrite <- inf_of_sign_opp. f_equal.
      destruct q as [n d]. cbn. destruct n; reflexivity.
    + reflexivity.
  - destruct x as [v| | |]; try reflexivity.
    cbn. destruct (Qnum v); reflexivity.
  - destruct x as [v| | |]; try reflexivity.
    cbn. destruct (Qnum v); reflexivity.
  - destruct x; reflexivity.
Qed.

Lemma round_half_even_nonneg q : 0 <= q -> (0 <= round_half_even q)%Z.
Proof.
  intros H. unfold round_half_even.
  assert (Hf : (0 <= Qfloor q)%Z).
  { change 0%Z with (Qfloor 0). now apply Qfloor_resp_le. }
  destruct (_ ?= _); [destruct (Z.even _) | |]; lia.
Qed.

Lemma ratio_positive (a b : Z) :
  (0 < b < a)%Z -> (1 <= Numpy.ceil_div a b)%Z.
Proof.
  intros H. pose proof (ceil_div_spec a b ltac:(lia)). nia.
Qed.

End Rendering.

(** X10.  [--invert] negates the rendered signal together with its DC
    offset: rendering with the option set gives, sample by sample, the
    negation of what rendering without it gives, and fails in the same
    cases. *)
Theorem invert_negates_the_rendered_samples
        {lib : FakeRecording.Library} (args : FakeRecording.Args)
        (spec : Report.Spec) (sample_rate ratio : Z) :
  FakeRecording.render (with_invert true args) spec sample_rate ratio
  = negated (FakeRecording.render (with_invert false args)
                                  spec sample_rate ratio).
Proof.
  unfold FakeRecording.render.
  cbn [with_invert FakeRecording.begin_padding_seconds
       FakeRecording.end_padding_seconds FakeRecording.clock_skew
       FakeRecording.invert FakeRecording.amplitude FakeRecording.dc_offset].
  destruct (FakeRecording.int_round _) as [n_begin|]; [|reflexivity].
  cbn [bind].
  destruct (FakeRecording.minus_ones n_begin) as [bp|]; [|reflexivity].
  cbn [bind].
  destruct (FakeRecording.truediv _ _) as [rate|]; [|reflexivity].
  cbn [bind].
  assert (Ho : FakeRecording.frame_offsets (with_invert true args) spec
                 (FakeRecording.generate_frames
                    (Report.transition_count spec)
                    (Report.delayed_transitions spec))
               = FakeRecording.frame_offsets (with_invert false args) spec
                 (FakeRecording.generate_frames
                    (Report.transition_count spec)
                    (Report.delayed_transitions spec))) by reflexivity.
  rewrite Ho.
  destruct (FakeRecording.frame_offsets _ _ _) as [offsets|]; [|reflexivity].
  cbn [bind].
  destruct (FakeRecording.int_round _) as [n_end|]; [|reflexivity].
  cbn [bind].
  destruct (FakeRecording.minus_ones n_end) as [ep|]; [|reflexivity].
  cbn [bind negated]. rewrite map_map. f_equal.
  apply map_ext. intros v. apply fmul_inverted.
Qed.

(** X11.  A clock skew of 0 is a division by zero.  With rates that pass
    the precondition, a spec on stdin and a begin padding that is a
    non-negative number, the run raises [ZeroDivisionError] at
    [sample_rate / args.clock_skew] and leaves the output file empty. *)
Theorem zero_clock_skew_raises
        {lib : FakeRecording.Library} (args : FakeRecording.Args)
        (w : FakeRecording.World) (spec : Report.Spec) (b : Q) :
  FakeRecording.stdin w = Some spec ->
  (0 < FakeRecording.output_sample_rate_hz args
   < FakeRecording.internal_sample_rate_hz args)%Z ->
  FakeRecording.begin_padding_seconds args = Fin b -> 0 <= b ->
  same (FakeRecording.clock_skew args) (Fin 0) = true ->
  FakeRecording.generate_fake_recording args w
  = (FakeRecording.mkWorld (Some spec) FakeRecording.Empty,
     Raise ZeroDivisionError).
Proof.
  intros Hstdin Hrates Hb Hb0 Hskew.
  unfold FakeRecording.generate_fake_recording, FakeRecording.compute,
    FakeRecording.parse_arguments.
  cbn [FakeRecording.stdin]. rewrite Hstdin. cbn [bind].
  replace (FakeRecording.internal_sample_rate_hz args
           >? FakeRecording.output_sample_rate_hz args)%Z with true
    by (symmetry; apply Z.gtb_lt; lia).
  cbn [bind]. rewrite downsample_ratio_value by lia. cbn [bind].
  pose proof (ratio_positive _ _ Hrates) as Hratio.
  set (ratio := Numpy.ceil_div _ _) in *.
  unfold FakeRecording.render. rewrite Hb.
  unfold of_int. cbn [fmul FakeRecording.int_round fin bind].
  unfold FakeRecording.minus_ones.
  assert (Hn : (0 <= FakeRecording.round_half_even
                       (Qred (b * inject_Z
                                (FakeRecording.internal_sample_rate
                                   args ratio))))%Z).
  { apply round_half_even_nonneg. rewrite Qred_correct.
    apply Qmult_le_0_compat; [exact Hb0|].
    unfold FakeRecording.internal_sample_rate.
    change 0 with (inject_Z 0). rewrite <- Zle_Qle. nia. }
  destruct (Z.ltb_spec (FakeRecording.round_half_even
                          (Qred (b * inject_Z
                                   (FakeRecording.internal_sample_rate
                                      args ratio)))) 0); [lia|].
  cbn [bind]. unfold FakeRecording.truediv.
  destruct (FakeRecording.clock_skew args) as [q| | |]; try discriminate.
  cbn [same] in Hskew. rewrite Hskew. reflexivity.
Qed.

Section Offsets0.
Import FakeRecording.
Context {lib : Library}.

Lemma vadd_zeros (a b : list float) :
  length a = length b ->
  (forall x, In x a -> x = Fin 0) -> (forall x, In x b -> x = Fin 0) ->
  vadd a b = repeat (Fin 0) (length a).
Proof.
  unfold vadd. revert b. induction a as [|x a IH]; intros [|y b] Hl Ha Hb;
    try discriminate; [reflexivity|].
  cbn [combine map length repeat fst snd].
  rewrite (Ha x (or_introl eq_refl)), (Hb y (or_introl eq_refl)).
  rewrite IH.
  - reflexivity.
  - cbn in Hl. lia.
  - intros z Hz. apply Ha. now right.
  - intros z Hz. apply Hb. now right.
Qed.

Lemma fmul_zero x w :
  is_finite x = true -> same w (Fin 0) = true -> fmul x w = Fin 0.
Proof.
  destruct x as [q| | |]; try discriminate.
  destruct w as [v| | |]; try discriminate. cbn [same fmul]. intros _ Hv.
  apply Qeq_bool_iff in Hv. unfold fin. f_equal. apply Qred_zero.
  rewrite Hv. ring.
Qed.

End Offsets0.

(** X12.  Without distortion options there is no distortion: when the
    sawtooth is off (its step or its maximum deviation is zero) and both
    overshoots are zero, every frame gets the offset 0, whatever scipy's
    sawtooth would return. *)
Theorem no_distortion_no_offsets
        {lib : FakeRecording.Library} (args : FakeRecording.Args)
        (spec : Report.Spec) (frames : list float) :
  truthy (FakeRecording.sawtooth_step_seconds args)
  && truthy (FakeRecording.sawtooth_max_deviation args) = false ->
  same (FakeRecording.white_duration_overshoot args) (Fin 0) = true ->
  same (FakeRecording.even_duration_overshoot args) (Fin 0) = true ->
  all_finite frames ->
  FakeRecording.frame_offsets args spec frames
  = Ok (repeat (Fin 0) (length frames)).
Proof.
  intros Hsaw Hwhite Heven Hframes.
  unfold FakeRecording.frame_offsets. rewrite Hsaw. cbn [bind]. f_equal.
  assert (H1 : FakeRecording.vadd (repeat (Fin 0) (length frames))
                 (map (fun f => fmul f (FakeRecording.white_duration_overshoot
                                          args)) frames)
               = repeat (Fin 0) (length frames)).
  { rewrite vadd_zeros; rewrite ?repeat_length; try reflexivity.
    - now rewrite length_map.
    - intros x Hx. now apply repeat_spec in Hx.
    - intros x Hx. apply in_map_iff in Hx as (f & <- & Hf).
      apply fmul_zero; [now apply Hframes | exact Hwhite]. }
  rewrite H1, vadd_zeros; rewrite ?repeat_length; try reflexivity.
  - unfold Series.arange. now rewrite !length_map, length_seq.
  - intros x Hx. now apply repeat_spec in Hx.
  - intros x Hx. apply in_map_iff in Hx as (i & <- & _).
    destruct (Z.eqb (i mod 2) 0); apply fmul_zero;
      reflexivity || exact Heven.
Qed.

(** ** Removing the offsets twice *)

Section Idempotence.
Import Report.






End Idempotence.


(** ** The chart's time axis *)

Section TimeAxis.
Import Report.

Lemma dropna_idempotent s : Series.dropna (Series.dropna s) = Series.dropna s.
Proof.
  apply filter_all. intros x Hx. apply filter_In in Hx. tauto.
Qed.

Lemma interval_dropna s : interval (Series.dropna s) = interval s.
Proof.
  unfold interval, Series.min, Series.max.
  now rewrite dropna_idempotent.
Qed.

(** [add_columns], with the map to expected timestamps written out. *)
Lemma add_columns_expected merged t :
  add_columns merged = Ok t ->
  exists ri oi,
    interval (map m_recording_timestamp_seconds merged) = Ok ri /\
    interval (map m_reference_timestamp_seconds merged) = Ok oi /\
    t = map (row_of (map m_reference_timestamp_seconds merged)
               (fun x => fadd (fmul (fdiv (fsub x (left oi))
                                          (Interval_length oi))
                                    (Interval_length ri)) (left ri)))
            merged.
Proof.
  unfold add_columns, rescale.
  destruct (interval (map m_recording_timestamp_seconds merged)) as [ri|];
    [|discriminate].
  cbn [bind].
  destruct (interval (map m_reference_timestamp_seconds merged)) as [oi|];
    [|discriminate].
  cbn [bind]. intros H. exists ri, oi.
  split; [reflexivity|]. split; [reflexivity|].
  assert (E : forall a b : list AlignedTransition, Ok a = Ok b -> b = a)
    by (intros a b Hab; congruence).
  apply E in H. rewrite H. clear E H.
  unfold Series.duplicated_keep_false.
  rewrite !map_map.
  rewrite <- (map_id merged) at 1.
  rewrite combine_map_map, combine_map_map, map_map.
  reflexivity.
Qed.

Lemma corrections_keep_estimate p t :
  exists f,
    (forall r, estimated_recording_timestamp_seconds (f r)
               = estimated_recording_timestamp_seconds r) /\
    remove_offsets (subtract_regression p t) = map f t.
Proof.
  unfold remove_offsets, subtract_regression, subtract_offset.
  set (t1 := map _ t).
  set (bo := offset_of "BLACK" t1). set (wo := offset_of "WHITE" t1).
  unfold t1. rewrite !map_map.
  eexists. split; [|reflexivity].
  intros r. cbn beta.
  destruct (frame_is "BLACK" _); destruct (frame_is "WHITE" _); reflexivity.
Qed.

(** The recording column of the merged table holds the timestamps of
    the recording analysis, and NaN. *)
Lemma merged_recording_from_stdin refs scaled stdin asof m :
  merge_asof scaled stdin (map timestamp_seconds refs) = Ok asof ->
  In m (flat_map (rows_of_reference asof) refs) ->
  (m_recording_timestamp_seconds m = NaN /\
   exists r, In r refs /\ matched asof (timestamp_seconds r) = [] /\
             m_reference_timestamp_seconds m = timestamp_seconds r) \/
  (exists c, In c stdin /\
             m_recording_timestamp_seconds m
             = csv_recording_timestamp_seconds c).
Proof.
  intros Hasof Hm. apply in_flat_map in Hm as (r & Hr & Hm).
  unfold rows_of_reference in Hm.
  destruct (matched asof (timestamp_seconds r)) as [|a0 ms] eqn:Hmatch.
  - destruct Hm as [<-|[]]. left. split; [reflexivity|].
    exists r. split; [exact Hr|]. split; [exact Hmatch | reflexivity].
  - right. apply in_map_iff in Hm as (a & <- & Ha).
    assert (Hin : In a asof).
    { assert (H : In a (matched asof (timestamp_seconds r)))
        by (rewrite Hmatch; exact Ha).
      apply filter_In in H. tauto. }
    apply merge_asof_rows in Hasof as (_ & _ & ->).
    apply in_map_iff in Hin as ([x c] & <- & Hp).
    apply in_combine_r in Hp. exists c. split; [exact Hp | reflexivity].
Qed.

(** A reference transition without a match is not the only one: the
    first recorded row is matched to another. *)
Lemma another_reference refs scaled stdin asof r :
  refs <> [] -> stdin <> [] -> length scaled = length stdin ->
  merge_asof scaled stdin (map timestamp_seconds refs) = Ok asof ->
  matched asof (timestamp_seconds r) = [] ->
  exists r', In r' refs /\
             same (timestamp_seconds r') (timestamp_seconds r) = false.
Proof.
  intros Hne Hstdin Hlen Hasof Hnone.
  pose proof (asof_keys_are_references _ _ _ _ Hne Hasof) as Hkeys.
  assert (Ha : exists a, In a asof).
  { apply merge_asof_rows in Hasof as (_ & _ & ->).
    destruct stdin as [|c stdin]; [congruence|].
    destruct scaled as [|x scaled]; [discriminate|].
    eexists. left. reflexivity. }
  destruct Ha as [a Ha]. destruct (Hkeys a Ha) as (r' & Hr' & Hsame).
  exists r'. split; [exact Hr'|].
  destruct (same (timestamp_seconds r') (timestamp_seconds r)) eqn:E;
    [|reflexivity].
  exfalso.
  assert (Hin : In a (matched asof (timestamp_seconds r))).
  { apply filter_In. split; [exact Ha|]. eapply same_trans; eauto. }
  rewrite Hnone in Hin. destruct Hin.
Qed.

(** The affine map of [rescale] sends the source interval into the
    target interval. *)
Lemma affine_within l r tl tr k :
  (l < r)%Q -> (tl <= tr)%Q -> (l <= k <= r)%Q ->
  exists v, affine l r tl tr (Fin k) = Fin v /\ (tl <= v <= tr)%Q.
Proof.
  intros Hlr Ht Hk. destruct (affine_Fin l r tl tr k Hlr) as (v & -> & Hv).
  exists v. split; [reflexivity|].
  assert (Hd : ~ (r - l == 0)%Q) by lra.
  assert (Hc0 : (0 <= (k - l) / (r - l))%Q)
    by (apply Qle_shift_div_l; lra).
  assert (Hc1 : ((k - l) / (r - l) <= 1)%Q)
    by (apply Qle_shift_div_r; lra).
  assert (E : (v == tl + (tr - tl) * ((k - l) / (r - l)))%Q)
    by (rewrite Hv; field; exact Hd).
  set (c := ((k - l) / (r - l))%Q) in *.
  assert (H0 : (0 <= (tr - tl) * c)%Q)
    by (apply Qmult_le_0_compat; lra).
  assert (H1 : (0 <= (tr - tl) * (1 - c))%Q)
    by (apply Qmult_le_0_compat; lra).
  rewrite E. split; lra.
Qed.

Lemma same_false_Fin a b : same (Fin a) (Fin b) = false -> ~ (a == b)%Q.
Proof.
  cbn [same]. intros H E. apply Qeq_bool_iff in E. congruence.
Qed.

End TimeAxis.

(** X15.  Every row of the final table has a place on the chart's time
    axis.  In the table of a successful run on a spec with a positive
    frame rate, [estimated_recording_timestamp_seconds] is a finite
    number for every row, between two timestamps of the recording
    analysis: the recorded timestamp itself when there is one, and for a
    missing transition the reference timestamp rescaled to the span of the
    recording. *)
Theorem estimated_timestamp_is_within_the_recording
        (compensate_clock_skew : bool) (spec : Report.Spec)
        (stdin : list Report.RecordedTransition) (out : Report.Output) :
  (0 < Report.fps_num spec)%Z -> (0 < Report.fps_den spec)%Z ->
  Report.generate_report compensate_clock_skew spec stdin = Ok out ->
  forall row, In row (Report.transitions out) ->
    exists a b,
      In a stdin /\ In b stdin /\
      is_finite (Report.estimated_recording_timestamp_seconds row) = true /\
      fle (Report.csv_recording_timestamp_seconds a)
          (Report.estimated_recording_timestamp_seconds row) = true /\
      fle (Report.estimated_recording_timestamp_seconds row)
          (Report.csv_recording_timestamp_seconds b) = true.
Proof.
  intros Hnum Hden Hrun.
  destruct (generate_report_stages _ _ _ _ Hrun)
    as (refs & ri0 & scaled & asof & t & p &
        Hrefs & Hri0 & Hscaled & Hasof & Hadd & Hp & Hout).
  destruct (reference_transitions_increasing_finite _ _ Hnum Hden Hrefs)
    as [Hinc Hfin].
  pose proof (interval_nonempty _ _ _ Hri0) as Hne.
  pose proof (merged_rows_are_finite _ _ _ _ _ Hscaled Hasof) as Hrec.
  pose proof (right_only_empty _ _ _ _ Hne Hasof) as Hro.
  assert (Hstdin : stdin <> []).
  { intros ->. unfold Report.rescale in Hscaled. discriminate. }
  pose proof (rescale_length _ _ _ Hscaled) as Hlen.
  rewrite length_map in Hlen.
  destruct (add_columns_expected _ _ Hadd) as (ri & oi & Hri & Hoi & Ht).
  unfold Report.outer_merge in Hri, Hoi, Ht. rewrite Hro, app_nil_r in *.
  set (M := flat_map (Report.rows_of_reference asof) refs) in *.
  (* the recording column: finite or missing *)
  assert (HM : forall m, In m M ->
    (Report.m_recording_timestamp_seconds m = NaN /\
     exists r, In r refs /\
               Report.matched asof (Report.timestamp_seconds r) = [] /\
               Report.m_reference_timestamp_seconds m
               = Report.timestamp_seconds r) \/
    (exists c, In c stdin /\
               Report.m_recording_timestamp_seconds m
               = Report.csv_recording_timestamp_seconds c))
    by (intros m Hm; eapply merged_recording_from_stdin; eauto).
  assert (Hrecs : finite_or_missing
                    (map Report.m_recording_timestamp_seconds M)).
  { intros x Hx. apply dropna_In in Hx as [Hx Hna].
    apply in_map_iff in Hx as (m & <- & Hm).
    destruct (HM m Hm) as [[E _]|(c & Hc & E)]; rewrite E in *.
    - discriminate.
    - now apply Hrec. }
  assert (Hd : Series.dropna (map Report.m_recording_timestamp_seconds M)
               <> []).
  { intros E. unfold Report.interval, Series.min, Series.max in Hri.
    rewrite E in Hri. discriminate. }
  destruct (proj2 (interval_spec _ Hrecs) Hd)
    as (ri' & Hri' & Hleft & Hright & Hbounds).
  assert (ri' = ri) by congruence. subst ri'.
  assert (Hends : exists a b tl tr,
    In a stdin /\ In b stdin /\
    Report.csv_recording_timestamp_seconds a = Fin tl /\
    Report.csv_recording_timestamp_seconds b = Fin tr /\
    ri = mkInterval (Fin tl) (Fin tr) /\ (tl <= tr)%Q).
  { rewrite <- interval_dropna in Hri.
    destruct (interval_finite _ _ Hrecs Hri) as (tl & tr & -> & Hle).
    cbn [left right] in Hleft, Hright.
    apply in_map_iff in Hleft as (ma & Ea & Hma).
    apply in_map_iff in Hright as (mb & Eb & Hmb).
    destruct (HM ma Hma) as [[E _]|(a & Ha & E)]; [congruence|].
    destruct (HM mb Hmb) as [[E' _]|(b & Hb & E')]; [congruence|].
    exists a, b, tl, tr. repeat (split; [congruence || assumption|]).
    exact Hle. }
  destruct Hends as (a & b & tl & tr & Ha & Hb & Ea & Eb & -> & Hle).
  (* the key column: the reference timestamps *)
  assert (Hkeys : all_finite (map Report.m_reference_timestamp_seconds M)).
  { intros x Hx. apply in_map_iff in Hx as (m & <- & Hm).
    apply in_flat_map in Hm as (r & Hr & Hm).
    rewrite (rows_of_reference_key _ _ _ Hm). apply Hfin.
    now apply in_map. }
  destruct (interval_finite _ _ Hkeys Hoi) as (l & r & -> & Hlr).
  pose proof (interval_encloses _ _ Hkeys Hoi) as Henc.
  cbn [left right] in Henc.
  assert (Hkey_in : forall r0, In r0 refs ->
            In (Report.timestamp_seconds r0)
               (map Report.m_reference_timestamp_seconds M)).
  { intros r0 Hr0.
    assert (Hex : exists m, In m (Report.rows_of_reference asof r0)).
    { unfold Report.rows_of_reference.
      destruct (Report.matched asof (Report.timestamp_seconds r0));
        eexists; left; reflexivity. }
    destruct Hex as [m Hm]. apply in_map_iff. exists m. split.
    - apply (rows_of_reference_key _ _ _ Hm).
    - apply in_flat_map. eauto. }
  destruct (corrections_keep_estimate p t) as (f & Hf & Hmap).
  intros row Hrow. rewrite Hout, Hmap in Hrow.
  apply in_map_iff in Hrow as (row0 & <- & Hrow0). rewrite Hf.
  rewrite Ht in Hrow0. apply in_map_iff in Hrow0 as (m & <- & Hm).
  unfold Report.estimated_recording_timestamp_seconds, Report.isValid.
  cbn [row_of Report.recording_timestamp_seconds
       Report.expected_recording_timestamp_seconds].
  destruct (HM m Hm) as [(E & r0 & Hr0 & Hnone & Ekey)|(c & Hc & E)];
    rewrite E.
  - cbn [isna negb]. rewrite Ekey.
    destruct (another_reference _ _ _ _ r0 Hne Hstdin Hlen Hasof Hnone)
      as (r1 & Hr1 & Hdiff).
    pose proof (Hfin _ (in_map Report.timestamp_seconds _ _ Hr0)) as F0.
    pose proof (Hfin _ (in_map Report.timestamp_seconds _ _ Hr1)) as F1.
    pose proof (Henc _ (Hkey_in r0 Hr0)) as [L0 R0].
    pose proof (Henc _ (Hkey_in r1 Hr1)) as [L1 R1].
    destruct (Report.timestamp_seconds r0) as [k0| | |]; try discriminate.
    destruct (Report.timestamp_seconds r1) as [k1| | |]; try discriminate.
    apply fle_Fin in L0, R0, L1, R1. apply same_false_Fin in Hdiff.
    assert (Hlt : (l < r)%Q).
    { destruct (Qlt_le_dec l r) as [H|H]; [exact H|]. exfalso.
      apply Hdiff. lra. }
    destruct (affine_within l r tl tr k0 Hlt Hle (conj L0 R0))
      as (v & Ev & Hv).
    change (fadd (fmul (fdiv (fsub (Fin k0) (left (mkInterval (Fin l) (Fin r))))
                             (Interval_length (mkInterval (Fin l) (Fin r))))
                       (Interval_length (mkInterval (Fin tl) (Fin tr))))
                 (left (mkInterval (Fin tl) (Fin tr))))
      with (affine l r tl tr (Fin k0)).
    rewrite Ev. exists a, b. rewrite Ea, Eb.
    split; [exact Ha|]. split; [exact Hb|]. split; [reflexivity|].
    split; apply fle_Fin; tauto.
  - pose proof (Hrec c Hc) as Fc.
    destruct (Report.csv_recording_timestamp_seconds c) as [q| | |] eqn:Eq;
      try discriminate.
    cbn [isna negb]. exists c, c. rewrite Eq.
    split; [exact Hc|]. split; [exact Hc|]. split; [reflexivity|].
    split; apply fle_Fin; apply Qle_refl.
Qed.

(** ** The message about the number of transitions *)

Section CountMessage.
Import Report.

(** Lines 91-97: which of the two messages is printed. *)
Lemma count_message compensate spec stdin out :
  generate_report compensate spec stdin = Ok out ->
  exists refs,
    reference_transitions spec = Ok refs /\
    (In CountMatches (stderr out) <-> length stdin = length refs) /\
    (In WarningCountInconsistent (stderr out)
     <-> length stdin <> length refs).
Proof.
  unfold generate_report.
  destruct (int_truediv (fps_num spec) (fps_den spec)) as [fps|];
    [|discriminate].
  cbn [bind].
  destruct (reference_transitions spec) as [refs|]; [|discriminate].
  cbn [bind].
  destruct (interval (map timestamp_seconds refs)) as [ri|];
    [|discriminate].
  cbn [bind].
  destruct (interval (map csv_recording_timestamp_seconds stdin))
    as [ti|]; [|discriminate].
  cbn [bind].
  destruct (align refs stdin) as [merged|]; [|discriminate].
  cbn [bind].
  destruct (add_columns merged) as [t|]; [|discriminate].
  cbn [bind].
  destruct (linear_regression compensate t) as [p|]; [|discriminate].
  cbn [bind]. intros H.
  assert (E : forall a b : Output, Ok a = Ok b -> stderr b = stderr a)
    by (intros a b Hab; congruence).
  apply E in H. cbn [stderr] in H. rewrite H. clear E H.
  exists refs. split; [reflexivity|].
  unfold clock_skew_messages.
  destruct (Nat.eqb_spec (length stdin) (length refs)) as [Hl|Hl].
  - split; split.
    + intros _. exact Hl.
    + intros _. right. right. left. reflexivity.
    + intros H. exfalso.
      destruct compensate;
        [destruct (flt (Fin (1 # 10)) _)|]; cbn in H;
        repeat (destruct H as [H|H]; [discriminate H|]); exact H.
    + intros H. contradiction.
  - split; split.
    + intros H. exfalso.
      destruct compensate;
        [destruct (flt (Fin (1 # 10)) _)|]; cbn in H;
        repeat (destruct H as [H|H]; [discriminate H|]); exact H.
    + intros H. contradiction.
    + intros _. exact Hl.
    + intros _. right. right. left. reflexivity.
Qed.

Lemma list_sum_ones {A} (f : A -> nat) l :
  (forall x, In x l -> f x = 1%nat) -> list_sum (map f l) = length l.
Proof.
  induction l as [|x l IH]; [reflexivity|]. intros H. cbn [map length].
  rewrite list_sum_head, (H x (or_introl eq_refl)), IH; [reflexivity|].
  intros y Hy. apply H. now right.
Qed.

Lemma list_sum_zero {A} (f : A -> nat) l :
  list_sum (map f l) = 0%nat -> forall x, In x l -> f x = 0%nat.
Proof.
  induction l as [|x l IH]; intros H y Hy; [destruct Hy|].
  cbn [map] in H. rewrite list_sum_head in H.
  destruct Hy as [<-|Hy]; [lia|]. apply IH; [lia | exact Hy].
Qed.

End CountMessage.

(** X16.  A table without anomalies comes with the message that the
    number of recorded transitions matches the spec.  In a successful run
    on a spec with a positive frame rate whose table has no "missing" and
    no "repeated" row, the recording analysis has as many rows as there
    are reference transitions, "matches the spec" is printed and the
    warning about an inconsistent number is not. *)
Theorem no_anomaly_no_count_warning
        (compensate_clock_skew : bool) (spec : Report.Spec)
        (stdin : list Report.RecordedTransition) (out : Report.Output) :
  (0 < Report.fps_num spec)%Z -> (0 < Report.fps_den spec)%Z ->
  Report.generate_report compensate_clock_skew spec stdin = Ok out ->
  count_anomaly (Some Report.Missing_transition) (Report.transitions out)
    = 0%nat ->
  count_anomaly (Some Report.Repeated_transition) (Report.transitions out)
    = 0%nat ->
  exists refs,
    Report.reference_transitions spec = Ok refs /\
    length stdin = length refs /\
    length (Report.transitions out) = length refs /\
    In Report.CountMatches (Report.stderr out) /\
    ~ In Report.WarningCountInconsistent (Report.stderr out).
Proof.
  intros Hnum Hden Hrun Hmiss Hrep.
  destruct (row_counts _ _ _ _ Hnum Hden Hrun)
    as (refs & asof & Hrefs & Hdet & Hcount).
  destruct (count_message _ _ _ _ Hrun) as (refs' & Hrefs' & Hyes & Hno).
  assert (refs' = refs) by congruence. subst refs'.
  assert (Hone : forall r, In r refs -> detections asof r = 1%nat).
  { intros r Hr.
    rewrite Hcount in Hmiss, Hrep.
    pose proof (list_sum_zero _ _ Hmiss r Hr) as H0.
    pose proof (list_sum_zero _ _ Hrep r Hr) as H1.
    cbn beta in H0, H1.
    destruct (counts_of_labels (detections asof r)) as (_ & E0 & E1).
    rewrite E0 in H0. rewrite E1 in H1.
    destruct (detections asof r) as [|[|k]]; cbn in H0, H1; lia. }
  assert (Hlen : length stdin = length refs).
  { rewrite <- Hdet. now apply list_sum_ones. }
  exists refs. split; [exact Hrefs|]. split; [exact Hlen|]. split.
  - assert (Htotal : length (Report.transitions out)
      = (count_anomaly None (Report.transitions out)
         + count_anomaly (Some Report.Repeated_transition)
                         (Report.transitions out)
         + count_anomaly (Some Report.Missing_transition)
                         (Report.transitions out))%nat).
    { rewrite !count_anomaly_label, <- count_label_total.
      symmetry. apply length_map. }
    rewrite Htotal, Hmiss, Hrep, Hcount, <- Hlen, <- Hdet.
    rewrite !Nat.add_0_r. apply list_sum_ext_in. intros r Hr.
    rewrite (Hone r Hr). reflexivity.
  - split; [now apply Hyes|]. intros H. apply Hno in H. contradiction.
Qed.

(** ** A recording without jitter *)

Section ExactFit.









End ExactFit.

Section ExactPolynomial.






End ExactPolynomial.

Section ExactIntervals.
Import Report.

Lemma Forall2_In_l {A B} (R : A -> B -> Prop) l l' x :
  Forall2 R l l' -> In x l -> exists y, In y l' /\ R x y.
Proof.
  induction 1 as [|a b l l' Hab _ IH]; intros Hx; [destruct Hx|].
  destruct Hx as [<-|Hx].
  - exists b. split; [now left | exact Hab].
  - destruct (IH Hx) as (y & Hy & Hxy). exists y.
    split; [now right | exact Hxy].
Qed.

Lemma Forall2_In_r {A B} (R : A -> B -> Prop) l l' y :
  Forall2 R l l' -> In y l' -> exists x, In x l /\ R x y.
Proof.
  induction 1 as [|a b l l' Hab _ IH]; intros Hy; [destruct Hy|].
  destruct Hy as [<-|Hy].
  - exists a. split; [now left | exact Hab].
  - destruct (IH Hy) as (x & Hx & Hxy). exists x.
    split; [now right | exact Hxy].
Qed.

Lemma exact_recording_finite a b refs stdin :
  exact_recording a b refs stdin ->
  all_finite (map csv_recording_timestamp_seconds stdin).
Proof.
  intros Hex.
  intros x Hx. apply in_map_iff in Hx as (c & <- & Hc).
  destruct (Forall2_In_r _ _ _ _ Hex Hc) as (r & _ & t & x & _ & -> & _).
  reflexivity.
Qed.


(** The recording spans the image of that interval. *)
Lemma recording_interval a b refs stdin l r :
  (2 <= length refs)%nat -> 0 < a -> exact_recording a b refs stdin ->
  interval (map timestamp_seconds refs) = Ok (mkInterval (Fin l) (Fin r)) ->
  In (Fin l) (map timestamp_seconds refs) ->
  In (Fin r) (map timestamp_seconds refs) ->
  (forall t, In (Fin t) (map timestamp_seconds refs) -> l <= t <= r) ->
  exists tl tr,
    interval (map csv_recording_timestamp_seconds stdin)
    = Ok (mkInterval (Fin tl) (Fin tr)) /\
    tl == a * l + b /\ tr == a * r + b.
Proof.
  intros Hlen Ha Hex Hi Hl Hr Hall.
  pose proof (exact_recording_finite _ _ _ _ Hex) as Hrfin.
  assert (Hne : stdin <> []).
  { intros E. pose proof (Forall2_length Hex) as HL.
    rewrite E in HL. cbn [length] in HL. lia. }
  assert (Hd : Series.dropna (map csv_recording_timestamp_seconds stdin)
               <> []).
  { rewrite (dropna_finite _ Hrfin). destruct stdin; [congruence|].
    discriminate. }
  assert (Hfm : finite_or_missing (map csv_recording_timestamp_seconds stdin)).
  { unfold finite_or_missing. now rewrite (dropna_finite _ Hrfin). }
  destruct (proj2 (interval_spec _ Hfm) Hd) as (i & Hti & Il & Ir & Hb).
  destruct (interval_finite _ _ Hrfin Hti) as (tl & tr & -> & _).
  cbn [left right] in *.
  exists tl, tr. split; [exact Hti|].
  assert (Himg : forall t, In (Fin t) (map timestamp_seconds refs) ->
                           tl <= a * t + b <= tr).
  { intros t Ht. apply in_map_iff in Ht as (r0 & E0 & Hr0).
    destruct (Forall2_In_l _ _ _ _ Hex Hr0)
      as (c & Hc & t' & x & Et & Ex & Hx).
    assert (t' = t) by congruence. subst t'.
    assert (Hin : In (Fin x) (map csv_recording_timestamp_seconds stdin))
      by (rewrite <- Ex; now apply in_map).
    destruct (Hb _ Hin eq_refl) as [H1 H2]. apply fle_Fin in H1, H2.
    rewrite <- Hx. tauto. }
  assert (Hpre : forall x, In (Fin x)
                              (map csv_recording_timestamp_seconds stdin) ->
                           exists t, In (Fin t) (map timestamp_seconds refs)
                                     /\ x == a * t + b).
  { intros x Hx. apply in_map_iff in Hx as (c & Ec & Hc).
    destruct (Forall2_In_r _ _ _ _ Hex Hc)
      as (r0 & Hr0 & t & x' & Et & Ex & Hx').
    assert (x' = x) by congruence. subst x'.
    exists t. split; [|exact Hx']. rewrite <- Et. now apply in_map. }
  destruct (Hpre tl Il) as (t1 & Ht1 & E1).
  destruct (Hpre tr Ir) as (t2 & Ht2 & E2).
  pose proof (Himg l Hl). pose proof (Himg r Hr).
  pose proof (Hall t1 Ht1). pose proof (Hall t2 Ht2).
  split; nra.
Qed.

End ExactIntervals.

Section ExactMerge.
Import Report.





End ExactMerge.

Section ExactTable.
Import Report.








End ExactTable.

Section ExactErrors.
Import Report.







End ExactErrors.


(** ** The order of the rows *)

Section RowOrder.
Import Report.

Lemma StronglySorted_app {A} (R : A -> A -> Prop) l1 l2 :
  StronglySorted R l1 -> StronglySorted R l2 ->
  (forall x y, In x l1 -> In y l2 -> R x y) ->
  StronglySorted R (l1 ++ l2).
Proof.
  intros H1 H2 H. induction H1 as [|x l1 H1 IH Hall]; [exact H2|].
  cbn [app]. constructor.
  - apply IH. intros a b Ha Hb. apply H; [now right | exact Hb].
  - apply Forall_app. split; [exact Hall|].
    apply Forall_forall. intros y Hy. apply H; [now left | exact Hy].
Qed.

Lemma StronglySorted_constant {A} (R : A -> A -> Prop) c l :
  R c c -> (forall x, In x l -> x = c) -> StronglySorted R l.
Proof.
  intros Hc. induction l as [|x l IH]; intros H; constructor.
  - apply IH. intros y Hy. apply H. now right.
  - apply Forall_forall. intros y Hy.
    rewrite (H x (or_introl eq_refl)), (H y (or_intror Hy)). exact Hc.
Qed.

Lemma flt_fle x y : flt x y = true -> fle x y = true.
Proof.
  destruct x as [a| | |], y as [b| | |]; cbn; try discriminate; auto.
  rewrite negb_true_iff, Qle_bool_false, Qle_bool_iff.
  apply Qlt_le_weak.
Qed.

Lemma merged_keys_ascending refs asof :
  increasing refs -> all_finite (map timestamp_seconds refs) ->
  ascending (map m_reference_timestamp_seconds
                 (flat_map (rows_of_reference asof) refs)).
Proof.
  intros Hinc. induction Hinc as [|r refs Hs IH Hall]; intros Hfin;
    [constructor|].
  cbn [flat_map]. rewrite map_app. apply StronglySorted_app.
  - apply (StronglySorted_constant _ (timestamp_seconds r)).
    + apply fle_refl_finite. apply Hfin. now left.
    + intros x Hx. apply in_map_iff in Hx as (m & <- & Hm).
      apply (rows_of_reference_key _ _ _ Hm).
  - apply IH. intros y Hy. apply Hfin. now right.
  - intros x y Hx Hy.
    apply in_map_iff in Hx as (m & <- & Hm).
    apply in_map_iff in Hy as (m' & <- & Hm').
    apply in_flat_map in Hm' as (r' & Hr' & Hm').
    rewrite (rows_of_reference_key _ _ _ Hm),
            (rows_of_reference_key _ _ _ Hm').
    rewrite Forall_forall in Hall. apply flt_fle. now apply Hall.
Qed.

End RowOrder.

(** X18.  The final table is in the order of the reference transitions.
    In the table of a successful run on a spec with a positive frame rate,
    [reference_timestamp_seconds] never decreases from one row to the
    next (the rows of one reference transition are adjacent). *)
Theorem table_is_sorted_by_reference
        (compensate_clock_skew : bool) (spec : Report.Spec)
        (stdin : list Report.RecordedTransition) (out : Report.Output) :
  (0 < Report.fps_num spec)%Z -> (0 < Report.fps_den spec)%Z ->
  Report.generate_report compensate_clock_skew spec stdin = Ok out ->
  ascending (map Report.reference_timestamp_seconds (Report.transitions out)).
Proof.
  intros Hnum Hden Hrun.
  destruct (generate_report_stages _ _ _ _ Hrun)
    as (refs & ri & scaled & asof & t & p &
        Hrefs & Hri & Hscaled & Hasof & Hadd & _ & Hout).
  destruct (reference_transitions_increasing_finite _ _ Hnum Hden Hrefs)
    as [Hinc Hfin].
  pose proof (interval_nonempty _ _ _ Hri) as Hne.
  pose proof (right_only_empty _ _ _ _ Hne Hasof) as Hro.
  destruct (corrections_keep_anomaly p t) as (f & Hf & Hmap).
  destruct (add_columns_rows _ _ Hadd) as [g Ht].
  rewrite Hout, Hmap, map_map.
  rewrite (map_ext _ Report.reference_timestamp_seconds)
    by (intros r; apply (Hf r)).
  rewrite Ht, map_map. cbn [row_of Report.reference_timestamp_seconds].
  unfold Report.outer_merge. rewrite Hro, app_nil_r.
  now apply merged_keys_ascending.
Qed.

(** ** Nothing to align *)

Section NothingToAlign.
Import Report.

Lemma interval_raises s e :
  interval s = Raise e ->
  e = ValueError "left side of interval must be <= right side".
Proof.
  unfold interval, pd_Interval.
  destruct (fle (Series.min s) (Series.max s)); [discriminate|].
  intros H. congruence.
Qed.

Lemma reference_transitions_Ok spec :
  fps_num spec <> 0%Z -> fps_den spec <> 0%Z ->
  exists fps refs,
    int_truediv (fps_num spec) (fps_den spec) = Ok fps /\
    reference_transitions spec = Ok refs.
Proof.
  intros Hnum Hden. unfold reference_transitions, int_truediv.
  destruct (Z.eqb_spec (fps_den spec) 0) as [E|_]; [contradiction|].
  destruct (Z.eqb_spec (fps_num spec) 0) as [E|_]; [contradiction|].
  cbn [bind]. eauto.
Qed.

End NothingToAlign.

(** X19.  A frame rate with a zero numerator or denominator is a division
    by zero: [spec["fps"]["num"] / spec["fps"]["den"]] or
    [spec["fps"]["den"] / spec["fps"]["num"]] raises [ZeroDivisionError]
    and the run ends there, whatever the recording analysis. *)
Theorem zero_frame_rate_raises
        (compensate_clock_skew : bool) (spec : Report.Spec)
        (stdin : list Report.RecordedTransition) :
  Report.fps_num spec = 0%Z \/ Report.fps_den spec = 0%Z ->
  Report.generate_report compensate_clock_skew spec stdin
  = Raise ZeroDivisionError.
Proof.
  intros H. unfold Report.generate_report, Report.reference_transitions,
    Report.int_truediv.
  destruct (Z.eqb_spec (Report.fps_den spec) 0) as [Ed|Ed]; [reflexivity|].
  destruct H as [En|Ed']; [|contradiction].
  cbn [bind]. rewrite En. reflexivity.
Qed.

(** X20.  A recording analysis without rows is rejected: for a spec with a
    non-zero frame rate the run fails with the [ValueError] of
    [pd.Interval], at the interval of the reference transitions when the
    spec has none, otherwise at the interval of the recorded timestamps. *)
Theorem empty_recording_is_rejected
        (compensate_clock_skew : bool) (spec : Report.Spec) :
  Report.fps_num spec <> 0%Z -> Report.fps_den spec <> 0%Z ->
  Report.generate_report compensate_clock_skew spec []
  = Raise (ValueError "left side of interval must be <= right side").
Proof.
  intros Hnum Hden.
  destruct (reference_transitions_Ok spec Hnum Hden)
    as (fps & refs & Hfps & Hrefs).
  unfold Report.generate_report. rewrite Hfps, Hrefs. cbn [bind].
  destruct (Report.interval (map Report.timestamp_seconds refs))
    as [ri|e] eqn:Hri.
  - reflexivity.
  - cbn [bind]. now rewrite (interval_raises _ _ Hri).
Qed.

(** X21.  A spec that yields no reference transition (as when no frame
    differs from the frame before it) is rejected: the run fails with the
    [ValueError] of [pd.Interval] at the interval of the reference
    transitions, whatever the recording analysis. *)
Theorem spec_without_transition_is_rejected
        (compensate_clock_skew : bool) (spec : Report.Spec)
        (stdin : list Report.RecordedTransition) :
  Report.reference_transitions spec = Ok [] ->
  Report.generate_report compensate_clock_skew spec stdin
  = Raise (ValueError "left side of interval must be <= right side").
Proof.
  intros Hrefs.
  destruct (reference_transitions_fps _ _ Hrefs) as [fps Hfps].
  unfold Report.generate_report. rewrite Hfps, Hrefs. reflexivity.
Qed.

(** ** Instances of the further properties *)

Lemma interval_bounds_witness :
  let s := [Fin 3; NaN; Fin 1] in
  finite_or_missing s /\
  (Series.dropna s = [] ->
   Report.interval s
     = Raise (ValueError "left side of interval must be <= right side")) /\
  (Series.dropna s <> [] ->
   exists i,
     Report.interval s = Ok i /\
     In (left i) s /\ In (right i) s /\
     forall x, In x s -> isna x = false ->
               fle (left i) x = true /\ fle x (right i) = true).
Proof.
  intros s.
  assert (H : finite_or_missing s).
  { intros x Hx. vm_compute in Hx.
    repeat (destruct Hx as [<-|Hx]; [reflexivity|]). destruct Hx. }
  split; [exact H|]. exact (interval_bounds s H).
Defined.




Lemma nearest_is_closest_witness :
  let rs := [Fin 1; Fin 2; Fin 4] in
  all_finite rs /\ rs <> [] /\
  Series.is_monotonic_increasing rs = true /\
  Report.nearest rs (Fin 3) = Fin 2 /\
  exists n,
    Report.nearest rs (Fin 3) = Fin n /\
    In (Fin n) rs /\
    (forall r, In (Fin r) rs -> Qabs (3 - n) <= Qabs (3 - r)) /\
    (forall r, In (Fin r) rs -> Qabs (3 - r) == Qabs (3 - n) -> n <= r).
Proof.
  intros rs.
  assert (H : all_finite rs).
  { intros x Hx. vm_compute in Hx.
    repeat (destruct Hx as [<-|Hx]; [reflexivity|]). destruct Hx. }
  assert (Hne : rs <> []) by discriminate.
  split; [exact H|]. split; [exact Hne|]. split; [reflexivity|].
  split; [vm_compute; reflexivity|].
  exact (nearest_is_closest rs 3 H Hne eq_refl).
Defined.

Lemma nearest_is_monotone_witness :
  let rs := [Fin 1; Fin 2; Fin 4] in
  all_finite rs /\ rs <> [] /\
  Series.is_monotonic_increasing rs = true /\ (3 # 2) <= 3 /\
  exists n m,
    Report.nearest rs (Fin (3 # 2)) = Fin n /\
    Report.nearest rs (Fin 3) = Fin m /\
    n <= m.
Proof.
  intros rs.
  assert (H : all_finite rs).
  { intros x Hx. vm_compute in Hx.
    repeat (destruct Hx as [<-|Hx]; [reflexivity|]). destruct Hx. }
  assert (Hne : rs <> []) by discriminate.
  assert (Hle : (3 # 2) <= 3) by (unfold Qle; simpl; lia).
  split; [exact H|]. split; [exact Hne|]. split; [reflexivity|].
  split; [exact Hle|].
  exact (nearest_is_monotone rs (3 # 2) 3 H Hne eq_refl Hle).
Defined.

Lemma every_recorded_transition_has_one_row_witness :
  let out :=
    value_or (Report.mkOutput [] [])
      (Report.generate_report false BW6 one_missing_one_duplicated) in
  (0 < Report.fps_num BW6)%Z /\ (0 < Report.fps_den BW6)%Z /\
  Report.generate_report false BW6 one_missing_one_duplicated = Ok out /\
  length one_missing_one_duplicated = 5%nat /\
  length (Report.transitions out) = 6%nat /\
  (count_anomaly None (Report.transitions out)
   + count_anomaly (Some Report.Repeated_transition) (Report.transitions out)
   = length one_missing_one_duplicated)%nat.
Proof.
  intros out.
  assert (Hout : Report.generate_report false BW6 one_missing_one_duplicated
                 = Ok out) by (vm_compute; reflexivity).
  split; [reflexivity|]. split; [reflexivity|]. split; [exact Hout|].
  split; [reflexivity|]. split; [vm_compute; reflexivity|].
  exact (proj1 (every_recorded_transition_has_one_row
                  false BW6 one_missing_one_duplicated out
                  eq_refl eq_refl Hout)).
Defined.

Lemma successful_run_has_finite_timestamps_witness :
  let out :=
    value_or (Report.mkOutput [] [])
      (Report.generate_report false BW4 BW4_recording) in
  Report.generate_report false BW4 BW4_recording = Ok out /\
  forall x, In x BW4_recording ->
            is_finite (Report.csv_recording_timestamp_seconds x) = true.
Proof.
  intros out.
  assert (Hout : Report.generate_report false BW4 BW4_recording = Ok out)
    by (vm_compute; reflexivity).
  split; [exact Hout|].
  exact (successful_run_has_finite_timestamps false BW4 BW4_recording out
           Hout).
Defined.


Lemma error_is_defined_where_recorded_witness :
  let out :=
    value_or (Report.mkOutput [] [])
      (Report.generate_report false BW6 one_missing_one_duplicated) in
  (0 < Report.fps_num BW6)%Z /\ (0 < Report.fps_den BW6)%Z /\
  Report.generate_report false BW6 one_missing_one_duplicated = Ok out /\
  map Report.frame (Report.transitions out)
  = [Some "WHITE"; Some "BLACK"; Some "BLACK"; None; Some "BLACK";
     Some "WHITE"]%string /\
  forall row, In row (Report.transitions out) -> well_formed_row row.
Proof.
  intros out.
  assert (Hout : Report.generate_report false BW6 one_missing_one_duplicated
                 = Ok out) by (vm_compute; reflexivity).
  split; [reflexivity|]. split; [reflexivity|]. split; [exact Hout|].
  split; [vm_compute; reflexivity|].
  exact (error_is_defined_where_recorded
           false BW6 one_missing_one_duplicated out eq_refl eq_refl Hout).
Defined.

Lemma zero_clock_skew_raises_witness :
  let args := with_clock_skew (Fin 0) FakeRecording.example_args in
  FakeRecording.stdin previous_recording = Some BW4 /\
  (0 < FakeRecording.output_sample_rate_hz args
   < FakeRecording.internal_sample_rate_hz args)%Z /\
  FakeRecording.begin_padding_seconds args = Fin (1 # 10) /\
  0 <= 1 # 10 /\
  same (FakeRecording.clock_skew args) (Fin 0) = true /\
  FakeRecording.generate_fake_recording
    (lib := FakeRecording.example_library) args previous_recording
  = (FakeRecording.mkWorld (Some BW4) FakeRecording.Empty,
     Raise ZeroDivisionError).
Proof.
  intros args.
  assert (Hr : (0 < FakeRecording.output_sample_rate_hz args
                < FakeRecording.internal_sample_rate_hz args)%Z)
    by (simpl; lia).
  assert (Hb : 0 <= 1 # 10) by (unfold Qle; simpl; lia).
  split; [reflexivity|]. split; [exact Hr|]. split; [reflexivity|].
  split; [exact Hb|]. split; [reflexivity|].
  exact (zero_clock_skew_raises (lib := FakeRecording.example_library)
           args previous_recording BW4 (1 # 10)
           eq_refl Hr eq_refl Hb eq_refl).
Defined.

Lemma no_distortion_no_offsets_witness :
  let frames := [Fin 0; Fin 1; Fin 0; Fin 1] in
  truthy (FakeRecording.sawtooth_step_seconds FakeRecording.example_args)
  && truthy (FakeRecording.sawtooth_max_deviation FakeRecording.example_args)
  = false /\
  same (FakeRecording.white_duration_overshoot FakeRecording.example_args)
       (Fin 0) = true /\
  same (FakeRecording.even_duration_overshoot FakeRecording.example_args)
       (Fin 0) = true /\
  all_finite frames /\
  FakeRecording.frame_offsets (lib := FakeRecording.example_library)
    FakeRecording.example_args BW4 frames
  = Ok [Fin 0; Fin 0; Fin 0; Fin 0].
Proof.
  intros frames.
  assert (H : all_finite frames).
  { intros x Hx. vm_compute in Hx.
    repeat (destruct Hx as [<-|Hx]; [reflexivity|]). destruct Hx. }
  split; [reflexivity|]. split; [reflexivity|]. split; [reflexivity|].
  split; [exact H|].
  exact (no_distortion_no_offsets (lib := FakeRecording.example_library)
           FakeRecording.example_args BW4 frames
           eq_refl eq_refl eq_refl H).
Defined.


Lemma estimated_timestamp_is_within_the_recording_witness :
  let out :=
    value_or (Report.mkOutput [] [])
      (Report.generate_report false BW6 one_missing_one_duplicated) in
  (0 < Report.fps_num BW6)%Z /\ (0 < Report.fps_den BW6)%Z /\
  Report.generate_report false BW6 one_missing_one_duplicated = Ok out /\
  map Report.estimated_recording_timestamp_seconds (Report.transitions out)
  = [fin (1 # 24); fin (2 # 24); fin (21 # 240); fin (3 # 24);
     fin (4 # 24); fin (5 # 24)] /\
  forall row, In row (Report.transitions out) ->
    exists a b,
      In a one_missing_one_duplicated /\ In b one_missing_one_duplicated /\
      is_finite (Report.estimated_recording_timestamp_seconds row) = true /\
      fle (Report.csv_recording_timestamp_seconds a)
          (Report.estimated_recording_timestamp_seconds row) = true /\
      fle (Report.estimated_recording_timestamp_seconds row)
          (Report.csv_recording_timestamp_seconds b) = true.
Proof.
  intros out.
  assert (Hout : Report.generate_report false BW6 one_missing_one_duplicated
                 = Ok out) by (vm_compute; reflexivity).
  split; [reflexivity|]. split; [reflexivity|]. split; [exact Hout|].
  split; [vm_compute; reflexivity|].
  exact (estimated_timestamp_is_within_the_recording
           false BW6 one_missing_one_duplicated out eq_refl eq_refl Hout).
Defined.

Lemma no_anomaly_no_count_warning_witness :
  let out :=
    value_or (Report.mkOutput [] [])
      (Report.generate_report false BW4 BW4_recording) in
  (0 < Report.fps_num BW4)%Z /\ (0 < Report.fps_den BW4)%Z /\
  Report.generate_report false BW4 BW4_recording = Ok out /\
  count_anomaly (Some Report.Missing_transition) (Report.transitions out)
    = 0%nat /\
  count_anomaly (Some Report.Repeated_transition) (Report.transitions out)
    = 0%nat /\
  exists refs,
    Report.reference_transitions BW4 = Ok refs /\
    length BW4_recording = length refs /\
    length (Report.transitions out) = length refs /\
    In Report.CountMatches (Report.stderr out) /\
    ~ In Report.WarningCountInconsistent (Report.stderr out).
Proof.
  intros out.
  assert (Hout : Report.generate_report false BW4 BW4_recording = Ok out)
    by (vm_compute; reflexivity).
  assert (Hm : count_anomaly (Some Report.Missing_transition)
                             (Report.transitions out) = 0%nat)
    by (vm_compute; reflexivity).
  assert (Hr : count_anomaly (Some Report.Repeated_transition)
                             (Report.transitions out) = 0%nat)
    by (vm_compute; reflexivity).
  split; [reflexivity|]. split; [reflexivity|]. split; [exact Hout|].
  split; [exact Hm|]. split; [exact Hr|].
  exact (no_anomaly_no_count_warning false BW4 BW4_recording out
           eq_refl eq_refl Hout Hm Hr).
Defined.


Lemma table_is_sorted_by_reference_witness :
  let out :=
    value_or (Report.mkOutput [] [])
      (Report.generate_report false BW6 one_missing_one_duplicated) in
  (0 < Report.fps_num BW6)%Z /\ (0 < Report.fps_den BW6)%Z /\
  Report.generate_report false BW6 one_missing_one_duplicated = Ok out /\
  map Report.reference_timestamp_seconds (Report.transitions out)
  = [fin (1 # 24); fin (2 # 24); fin (2 # 24); fin (3 # 24);
     fin (4 # 24); fin (5 # 24)] /\
  ascending (map Report.reference_timestamp_seconds (Report.transitions out)).
Proof.
  intros out.
  assert (Hout : Report.generate_report false BW6 one_missing_one_duplicated
                 = Ok out) by (vm_compute; reflexivity).
  split; [reflexivity|]. split; [reflexivity|]. split; [exact Hout|].
  split; [vm_compute; reflexivity|].
  exact (table_is_sorted_by_reference
           false BW6 one_missing_one_duplicated out eq_refl eq_refl Hout).
Defined.

Lemma zero_frame_rate_raises_witness :
  let spec := Report.mkSpec 0 1 4 [] ["BLACK"; "WHITE"]%string in
  (Report.fps_num spec = 0%Z \/ Report.fps_den spec = 0%Z) /\
  Report.generate_report false spec BW4_recording = Raise ZeroDivisionError.
Proof.
  intros spec.
  assert (H : Report.fps_num spec = 0%Z \/ Report.fps_den spec = 0%Z)
    by (left; reflexivity).
  split; [exact H|].
  exact (zero_frame_rate_raises false spec BW4_recording H).
Defined.

Lemma empty_recording_is_rejected_witness :
  Report.fps_num BW4 <> 0%Z /\ Report.fps_den BW4 <> 0%Z /\
  Report.generate_report false BW4 []
  = Raise (ValueError "left side of interval must be <= right side").
Proof.
  assert (Hn : Report.fps_num BW4 <> 0%Z) by (simpl; lia).
  assert (Hd : Report.fps_den BW4 <> 0%Z) by (simpl; lia).
  split; [exact Hn|]. split; [exact Hd|].
  exact (empty_recording_is_rejected false BW4 Hn Hd).
Defined.

Lemma spec_without_transition_is_rejected_witness :
  Report.reference_transitions BBB = Ok [] /\
  Report.generate_report false BBB BW4_recording
  = Raise (ValueError "left side of interval must be <= right side").
Proof.
  assert (H : Report.reference_transitions BBB = Ok [])
    by (vm_compute; reflexivity).
  split; [exact H|].
  exact (spec_without_transition_is_rejected false BBB BW4_recording H).
Defined.
